(** * Branch-to-Amplitude webhook translator

    A shallow embedding of [src/pages/api/branch-to-amplitude.ts] and the
    properties its specification states about it.

    The source file comes in two revisions.  The first one sends the identify
    record and the attribution event in a single [/2/httpapi] call and scans
    the identity mapping case-insensitively; it is embedded in [Module
    Unified].  The second one sends two calls ([/identify], then
    [/2/httpapi]) and reads [idfa], [idfv], [adid] in a fixed order; it is
    embedded in [Module TwoCall].  [toMillis], [normalizeEventType] and
    [buildInsertId] are literally the same in both revisions and are embedded
    once.

    Conventions of the embedding:
    - a request body is an arbitrary JSON value ([Js.value]); nothing is
      assumed about the presence or the type of a field;
    - an object is the list of its own properties in enumeration order (the
      order of [Object.keys]); a well-formed object has no repeated key;
    - a number is a binary64 floating-point value ([spec_float]);
    - a string is the sequence of bytes of its UTF-8 encoding, a surrogate
      that has no partner being written like any other code point of three
      bytes; a character of code [c] below 128 is the single byte [c];
    - the letters A to Z and a to z change case as written here; the case
      mapping of every other character is the engine's Unicode table, an input
      of an invocation like the clock;
    - [Date.now], [Date.parse] and the outbound [fetch] belong to the host and
      are inputs of an invocation; an exception is an explicit [Throw];
    - [console.log] is not modelled. *)

From Stdlib Require Import ZArith List String Ascii Bool Lia.
From Stdlib Require Import Floats.SpecFloat.
From Stdlib Require Import DecimalString.
Import ListNotations.

Open Scope string_scope.
Open Scope Z_scope.

(** ** Strings *)

Module JsString.

Definition code (c : ascii) : Z := Z.of_nat (nat_of_ascii c).
Definition chr (z : Z) : ascii := ascii_of_nat (Z.to_nat z).

Definition is_upper (c : ascii) : bool := (65 <=? code c) && (code c <=? 90).
Definition is_lower (c : ascii) : bool := (97 <=? code c) && (code c <=? 122).
Definition is_digit (c : ascii) : bool := (48 <=? code c) && (code c <=? 57).

Definition lower_char (c : ascii) : ascii :=
  if is_upper c then chr (code c + 32) else c.
Definition upper_char (c : ascii) : ascii :=
  if is_lower c then chr (code c - 32) else c.

Fixpoint map_string (f : ascii -> ascii) (s : string) : string :=
  match s with
  | EmptyString => EmptyString
  | String c r => String (f c) (map_string f r)
  end.

(** What [toLowerCase] and [toUpperCase] do to the letters of ASCII; every
    other byte is left as it is. *)
Definition ascii_lower : string -> string := map_string lower_char.
Definition ascii_upper : string -> string := map_string upper_char.

(** No character beyond U+007F. *)
Fixpoint ascii_only (s : string) : bool :=
  match s with
  | EmptyString => true
  | String c r => (code c <? 128) && ascii_only r
  end.

(** White space and line terminators, as [trim] and the numeric-literal
    grammar understand them, by the length of their encoding:
    TAB, LF, VT, FF, CR, SP; *)
Definition white1 (c : ascii) : bool :=
  ((9 <=? code c) && (code c <=? 13)) || (code c =? 32).

(** U+00A0; *)
Definition white2 (c0 c1 : ascii) : bool :=
  (code c0 =? 194) && (code c1 =? 160).

(** U+1680, U+2000 to U+200A, U+2028, U+2029, U+202F, U+205F, U+3000 and
    U+FEFF. *)
Definition white3 (c0 c1 c2 : ascii) : bool :=
  let x := code c0 in
  let y := code c1 in
  let z := code c2 in
  ((x =? 225) && (y =? 154) && (z =? 128))
  || ((x =? 226) && (y =? 128)
      && (((128 <=? z) && (z <=? 138)) || (z =? 168) || (z =? 169) || (z =? 175)))
  || ((x =? 226) && (y =? 129) && (z =? 159))
  || ((x =? 227) && (y =? 128) && (z =? 128))
  || ((x =? 239) && (y =? 187) && (z =? 191)).

(** What follows the white-space character a text starts with, if it starts
    with one. *)
Definition white_head (s : string) : option string :=
  match s with
  | EmptyString => None
  | String c0 r0 =>
      if white1 c0 then Some r0
      else
        match r0 with
        | EmptyString => None
        | String c1 r1 =>
            if white2 c0 c1 then Some r1
            else
              match r1 with
              | EmptyString => None
              | String c2 r2 => if white3 c0 c1 c2 then Some r2 else None
              end
        end
  end.

Fixpoint trimStart (s : string) : string :=
  match s with
  | EmptyString => s
  | String c0 r0 =>
      if white1 c0 then trimStart r0
      else
        match r0 with
        | EmptyString => s
        | String c1 r1 =>
            if white2 c0 c1 then trimStart r1
            else
              match r1 with
              | EmptyString => s
              | String c2 r2 => if white3 c0 c1 c2 then trimStart r2 else s
              end
        end
  end.

Definition is_empty (s : string) : bool :=
  match s with EmptyString => true | _ => false end.

(** Nothing but white space. *)
Fixpoint blank (s : string) : bool :=
  match s with
  | EmptyString => true
  | String c0 r0 =>
      if white1 c0 then blank r0
      else
        match r0 with
        | EmptyString => false
        | String c1 r1 =>
            if white2 c0 c1 then blank r1
            else
              match r1 with
              | EmptyString => false
              | String c2 r2 => if white3 c0 c1 c2 then blank r2 else false
              end
        end
  end.

(** The text up to the white space it ends with. *)
Fixpoint trimEnd (s : string) : string :=
  match s with
  | EmptyString => EmptyString
  | String c r => if blank s then EmptyString else String c (trimEnd r)
  end.

(** [String.prototype.trim]. *)
Definition trim (s : string) : string := trimEnd (trimStart s).

(** A surrogate without a partner: U+D800 to U+DFFF, written ED A0..BF xx. *)
Definition is_surrogate (c0 c1 : ascii) : bool :=
  (code c0 =? 237) && (160 <=? code c1).

Definition three_bytes (x y z : Z) : string :=
  String (chr x) (String (chr y) (String (chr z) EmptyString)).

Definition surrogate (u : Z) : string :=
  three_bytes 237 (128 + (u / 64) mod 64) (128 + u mod 64).

(** The two surrogates of a character beyond U+FFFF, given its four bytes. *)
Definition surrogates (c0 c1 c2 c3 : ascii) : list string :=
  let point := (code c0 mod 8) * 262144 + (code c1 mod 64) * 4096
               + (code c2 mod 64) * 64 + code c3 mod 64 - 65536 in
  [surrogate (55296 + point / 1024); surrogate (56320 + point mod 1024)].

(** The UTF-16 code units of a text, each as a text of its own: what the
    indices of a string select and what its [length] counts. *)
Fixpoint code_units (s : string) : list string :=
  match s with
  | EmptyString => []
  | String c0 r0 =>
      let single := String c0 EmptyString :: code_units r0 in
      if code c0 <? 192 then single
      else
        match r0 with
        | EmptyString => single
        | String c1 r1 =>
            if code c0 <? 224
            then String c0 (String c1 EmptyString) :: code_units r1
            else
              match r1 with
              | EmptyString => single
              | String c2 r2 =>
                  if code c0 <? 240
                  then String c0 (String c1 (String c2 EmptyString))
                       :: code_units r2
                  else
                    match r2 with
                    | EmptyString => single
                    | String c3 r3 =>
                        (surrogates c0 c1 c2 c3 ++ code_units r3)%list
                    end
              end
        end
  end.

(** [s.includes(pat)]. *)
Fixpoint includes (pat s : string) : bool :=
  String.prefix pat s
  || match s with
     | EmptyString => false
     | String _ r => includes pat r
     end.

(** [s.slice(0, n)]. *)
Definition slice0 (n : nat) (s : string) : string := String.substring 0 n s.

(** [s.replace(/\/+$/, '')]: the trailing run of slashes is removed. *)
Fixpoint strip_trailing_slashes (s : string) : string :=
  match s with
  | EmptyString => EmptyString
  | String c r =>
      let r' := strip_trailing_slashes r in
      if is_empty r' && Ascii.eqb c "/" then EmptyString else String c r'
  end.

Fixpoint join (sep : string) (l : list string) : string :=
  match l with
  | [] => EmptyString
  | [x] => x
  | x :: r => x ++ sep ++ join sep r
  end.

Fixpoint repeat_char (c : ascii) (n : nat) : string :=
  match n with
  | O => EmptyString
  | S k => String c (repeat_char c k)
  end.

(** Decimal digits of an integer, with a leading minus sign when negative. *)
Definition of_Z (z : Z) : string := NilZero.string_of_int (Z.to_int z).

End JsString.

(** ** Numbers

    The Number type is IEEE 754 binary64: [spec_float] at precision 53 and
    maximal exponent 1024, with the operations of the Standard Library's
    [SpecFloat].  Finite values are kept in canonical form. *)

Module JsNumber.

Definition number : Type := spec_float.

Definition prec : Z := 53.
Definition emax : Z := 1024.

Definition NaN : number := S754_nan.
Definition Infinity (neg : bool) : number := S754_infinity neg.

(** The Number nearest to an integer. *)
Definition of_Z (z : Z) : number := binary_normalize prec emax z 0 false.

(** [a * b] and [a > b]. *)
Definition mul (a b : number) : number := SFmul prec emax a b.
Definition gt (a b : number) : bool := SFltb b a.

Definition isNaN (x : number) : bool :=
  match x with S754_nan => true | _ => false end.

Definition is_finite (x : number) : bool :=
  match x with S754_zero _ | S754_finite _ _ _ => true | _ => false end.

(** ToBoolean on a Number: [NaN], [+0] and [-0] are falsy. *)
Definition truthy (x : number) : bool :=
  match x with S754_nan | S754_zero _ => false | _ => true end.

(** The same Number value (structural, on canonical forms). *)
Definition same (x y : number) : bool :=
  match x, y with
  | S754_zero a, S754_zero b => Bool.eqb a b
  | S754_infinity a, S754_infinity b => Bool.eqb a b
  | S754_nan, S754_nan => true
  | S754_finite a m e, S754_finite b m' e' =>
      Bool.eqb a b && Pos.eqb m m' && Z.eqb e e'
  | _, _ => false
  end.

(** A non-negative rational [n / d] is a pair [(n, d)] with [0 < d]. *)
Definition ratio : Type := (Z * Z)%type.

(** Round [n / d] to the nearest Number, ties to even.  The quotient is
    taken with at least 54 significant bits and the remainder decides the
    location of the exact value between two candidates. *)
Definition of_ratio (neg : bool) (v : ratio) : number :=
  let '(n, d) := v in
  if n <=? 0 then S754_zero neg
  else
    let k := Z.max 0 (54 + Z.log2 d - Z.log2 n) in
    let q := (n * 2 ^ k) / d in
    let r := (n * 2 ^ k) mod d in
    let loc := if r =? 0 then loc_Exact else loc_Inexact (2 * r ?= d) in
    binary_round_aux prec emax neg q (- k) loc.

(** The exact value [m * 2^e] of a finite Number, as a ratio. *)
Definition to_ratio (m : positive) (e : Z) : ratio :=
  if 0 <=? e then (Zpos m * 2 ^ e, 1) else (Zpos m, 2 ^ (- e)).

(** [v * 10^p]. *)
Definition scale10 (v : ratio) (p : Z) : ratio :=
  let '(n, d) := v in
  if 0 <=? p then (n * 10 ^ p, d) else (n, d * 10 ^ (- p)).

(** *** Number::toString *)

Definition digits10 (z : Z) : Z := Z.of_nat (String.length (JsString.of_Z z)).

(** The integer [n] with [10^(n-1) <= v < 10^n], for [0 < v]. *)
Definition magnitude (v : ratio) : Z :=
  let '(n, d) := v in
  if d <=? n then digits10 (n / d)
  else 1 - digits10 ((d + n - 1) / n - 1).

(** The shortest decimal significand: the least [k] and an integer [s] with
    [s * 10^(n-k)] rounding to [x]; of two such [s] the one nearer to [x].
    The result is [(s, k)] with [10^(k-1) <= s <= 10^k]. *)
Fixpoint shortest (fuel : nat) (k : Z) (x : number) (v : ratio) (n : Z)
  : Z * Z :=
  let '(tn, td) := scale10 v (k - n) in
  let lo := tn / td in
  let r := tn mod td in
  let hi := lo + 1 in
  let ok s := same (of_ratio false (scale10 (s, 1) (n - k))) x in
  let pick :=
    match ok lo, ok hi with
    | true, true =>
        Some match 2 * r ?= td with
             | Lt => lo
             | Gt => hi
             | Eq => if Z.even lo then lo else hi
             end
    | true, false => Some lo
    | false, true => Some hi
    | false, false => None
    end in
  match pick, fuel with
  | Some s, _ => (s, k)
  | None, S f => shortest f (k + 1) x v n
  | None, O => (lo, k)
  end.

Definition zeros (n : Z) : string := JsString.repeat_char "0" (Z.to_nat n).

(** The text of a positive finite Number from its digits [ds] and its
    decimal exponent [n] (the value is [0.ds * 10^n]). *)
Definition layout (ds : string) (n : Z) : string :=
  let k := Z.of_nat (String.length ds) in
  if (k <=? n) && (n <=? 21) then ds ++ zeros (n - k)
  else if (0 <? n) && (n <=? 21) then
    String.substring 0 (Z.to_nat n) ds ++ "." ++
    String.substring (Z.to_nat n) (Z.to_nat (k - n)) ds
  else if (-6 <? n) && (n <=? 0) then "0." ++ zeros (- n) ++ ds
  else
    let e := n - 1 in
    let sign := if e <? 0 then "-" else "+" in
    let mant :=
      if k =? 1 then ds
      else String.substring 0 1 ds ++ "." ++
           String.substring 1 (Z.to_nat (k - 1)) ds in
    mant ++ "e" ++ sign ++ JsString.of_Z (Z.abs e).

Definition positive_toString (m : positive) (e : Z) : string :=
  let x := binary_round prec emax false m e in
  let v := to_ratio m e in
  let n := magnitude v in
  let '(s, k) := shortest 17 1 x v n in
  (* rounding up may reach the next power of ten *)
  if s =? 10 ^ k then layout "1" (n + 1) else layout (JsString.of_Z s) n.

(** [Number::toString(x)] in radix 10. *)
Definition toString (x : number) : string :=
  match x with
  | S754_nan => "NaN"
  | S754_zero _ => "0"
  | S754_infinity neg => if neg then "-Infinity" else "Infinity"
  | S754_finite neg m e =>
      (if neg then "-" else EmptyString) ++ positive_toString m e
  end.

(** *** StringToNumber *)

Fixpoint span (f : ascii -> bool) (s : string) : string * string :=
  match s with
  | EmptyString => (EmptyString, EmptyString)
  | String c r =>
      if f c then let '(a, b) := span f r in (String c a, b)
      else (EmptyString, s)
  end.

(** The value of a digit in a radix up to sixteen, if it is one. *)
Definition digit_value (radix : Z) (c : ascii) : option Z :=
  let z := JsString.code c in
  let d := if JsString.is_digit c then z - 48
           else if (97 <=? z) && (z <=? 102) then z - 87
           else if (65 <=? z) && (z <=? 70) then z - 55
           else 16 in
  if d <? radix then Some d else None.

Definition is_digit_of (radix : Z) (c : ascii) : bool :=
  match digit_value radix c with Some _ => true | None => false end.

Fixpoint digits_value (radix : Z) (s : string) (acc : Z) : Z :=
  match s with
  | EmptyString => acc
  | String c r =>
      digits_value radix r
        (acc * radix + match digit_value radix c with Some d => d | None => 0 end)
  end.

(** [0x], [0o] and [0b] literals: at least one digit and nothing else. *)
Definition radix_literal (radix : Z) (body : string) : number :=
  let '(ds, rest) := span (is_digit_of radix) body in
  if JsString.is_empty ds || negb (JsString.is_empty rest) then NaN
  else of_Z (digits_value radix ds 0).

(** The exponent part [e], [e+] or [e-] followed by digits, at the end. *)
Definition exponent_part (s : string) : option Z :=
  match s with
  | EmptyString => Some 0
  | String c r =>
      if Ascii.eqb c "e" || Ascii.eqb c "E" then
        let '(neg, r1) :=
          match r with
          | String "-" r' => (true, r')
          | String "+" r' => (false, r')
          | _ => (false, r)
          end in
        let '(ds, rest) := span JsString.is_digit r1 in
        if JsString.is_empty ds || negb (JsString.is_empty rest) then None
        else let e := digits_value 10 ds 0 in Some (if neg then - e else e)
      else None
  end.

(** An unsigned decimal literal: digits, an optional fraction, an optional
    exponent; at least one digit before the exponent. *)
Definition decimal_literal (neg : bool) (s : string) : number :=
  let '(ip, r1) := span JsString.is_digit s in
  let '(fp, r2) :=
    match r1 with
    | String "." r => span JsString.is_digit r
    | _ => (EmptyString, r1)
    end in
  if JsString.is_empty ip && JsString.is_empty fp then NaN
  else
    match exponent_part r2 with
    | None => NaN
    | Some e =>
        let m := digits_value 10 (ip ++ fp) 0 in
        of_ratio neg (scale10 (m, 1) (e - Z.of_nat (String.length fp)))
    end.

Definition signed_literal (neg : bool) (s : string) : number :=
  if String.eqb s "Infinity" then Infinity neg else decimal_literal neg s.

(** [Number(s)] on a string: the StringNumericLiteral grammar; anything
    else is [NaN], and the empty or blank string is [+0]. *)
Definition of_string (s : string) : number :=
  match JsString.trim s with
  | EmptyString => S754_zero false
  | String "0" (String "x" r) | String "0" (String "X" r) => radix_literal 16 r
  | String "0" (String "o" r) | String "0" (String "O" r) => radix_literal 8 r
  | String "0" (String "b" r) | String "0" (String "B" r) => radix_literal 2 r
  | String "-" r => signed_literal true r
  | String "+" r => signed_literal false r
  | t => signed_literal false t
  end.

End JsNumber.

(** ** Values

    What [JSON.parse] produces, and [undefined].  Property reads are own
    properties: none of the keys the source reads names a property of a
    built-in prototype. *)

Module Js.

Import JsNumber.

#[local] Set Warnings "-register-all".

Inductive value : Type :=
| VUndefined
| VNull
| VBool (b : bool)
| VNum (n : number)
| VStr (s : string)
| VArr (items : list value)
| VObj (props : list (string * value)).

(** The exceptions an invocation can raise. *)
Inductive error : Type :=
| NotAFunction (method : string)    (* TypeError: x.method is not a function *)
| InOnPrimitive (key : string)      (* TypeError: 'in' applied to a non-object *)
| NoPrimitiveValue                  (* TypeError: cannot convert object to primitive *)
| HostFailure (message : string).   (* rejected by the host: fetch, body read *)

Inductive result (A : Type) : Type :=
| Ok (a : A)
| Throw (e : error).
Arguments Ok {A} a.
Arguments Throw {A} e.

(** ToBoolean. *)
Definition truthy (v : value) : bool :=
  match v with
  | VUndefined | VNull => false
  | VBool b => b
  | VNum n => JsNumber.truthy n
  | VStr s => negb (JsString.is_empty s)
  | VArr _ | VObj _ => true
  end.

(** [a || b] and [a ?? b] on already evaluated operands. *)
Definition or (a b : value) : value := if truthy a then a else b.
Definition nullish (a b : value) : value :=
  match a with VUndefined | VNull => b | _ => a end.

Definition typeof (v : value) : string :=
  match v with
  | VUndefined => "undefined"
  | VNull | VArr _ | VObj _ => "object"
  | VBool _ => "boolean"
  | VNum _ => "number"
  | VStr _ => "string"
  end.

Definition is_string (v : value) : bool :=
  match v with VStr _ => true | _ => false end.

Fixpoint lookup (k : string) (props : list (string * value)) : option value :=
  match props with
  | [] => None
  | (k', v) :: r => if String.eqb k k' then Some v else lookup k r
  end.

Definition has_key (k : string) (props : list (string * value)) : bool :=
  match lookup k props with Some _ => true | None => false end.

(** An array index written canonically: ["0"], ["1"], ["42"], ... *)
Definition index_of_key (k : string) : option nat :=
  let '(ds, rest) := span JsString.is_digit k in
  let n := digits_value 10 ds 0 in
  if negb (JsString.is_empty ds) && JsString.is_empty rest
     && String.eqb (JsString.of_Z n) k
  then Some (Z.to_nat n) else None.

Definition key_of_index (i : nat) : string := JsString.of_Z (Z.of_nat i).

Definition chars (s : string) : list value := map VStr (JsString.code_units s).

Definition indexed (items : list value) : list (string * value) :=
  combine (map key_of_index (seq 0 (List.length items))) items.

(** The own enumerable properties, in enumeration order: what [Object.keys]
    and object spread see. *)
Definition own_props (v : value) : list (string * value) :=
  match v with
  | VObj props => props
  | VArr items => indexed items
  | VStr s => indexed (chars s)
  | _ => []
  end.

Definition keys (v : value) : list string := map fst (own_props v).

(** [v[k]] and [v.k], for [v] other than [undefined] and [null]. *)
Definition get (v : value) (k : string) : value :=
  match v with
  | VObj props =>
      match lookup k props with Some x => x | None => VUndefined end
  | VArr items =>
      if String.eqb k "length" then VNum (of_Z (Z.of_nat (List.length items)))
      else match index_of_key k with
           | Some i => nth i items VUndefined
           | None => VUndefined
           end
  | VStr s =>
      if String.eqb k "length" then VNum (of_Z (Z.of_nat (List.length (chars s))))
      else match index_of_key k with
           | Some i => nth i (chars s) VUndefined
           | None => VUndefined
           end
  | _ => VUndefined
  end.

(** [v?.k]. *)
Definition get_opt (v : value) (k : string) : value :=
  match v with VUndefined | VNull => VUndefined | _ => get v k end.

(** [k in v]: a TypeError unless [v] is an object. *)
Definition has_property (k : string) (v : value) : result bool :=
  match v with
  | VObj props => Ok (has_key k props)
  | VArr items =>
      Ok (String.eqb k "length"
          || match index_of_key k with
             | Some i => (i <? List.length items)%nat
             | None => false
             end)
  | _ => Throw (InOnPrimitive k)
  end.

(** Defining a property: an existing key keeps its place. *)
Fixpoint set (k : string) (v : value) (props : list (string * value))
  : list (string * value) :=
  match props with
  | [] => [(k, v)]
  | (k', v') :: r =>
      if String.eqb k k' then (k, v) :: r else (k', v') :: set k v r
  end.

Definition copy_props (src dst : list (string * value)) : list (string * value) :=
  fold_left (fun acc kv => set (fst kv) (snd kv) acc) src dst.

(** [{ ...a, ...b }]. *)
Definition spread (a b : value) : value :=
  VObj (copy_props (own_props b) (copy_props (own_props a) [])).

(** ToString.  An array is joined with commas, [undefined] and [null]
    elements giving the empty text; a plain object is ["[object Object]"]
    unless an own [toString] property hides the inherited method, in which
    case no primitive value can be had. *)
Fixpoint to_string (v : value) : result string :=
  match v with
  | VUndefined => Ok "undefined"
  | VNull => Ok "null"
  | VBool b => Ok (if b then "true" else "false")
  | VNum n => Ok (toString n)
  | VStr s => Ok s
  | VArr items =>
      (fix join_items (l : list value) : result string :=
         match l with
         | [] => Ok EmptyString
         | x :: r =>
             let head :=
               match x with
               | VUndefined | VNull => Ok EmptyString
               | _ => to_string x
               end in
             match head, r with
             | Throw e, _ => Throw e
             | Ok sx, [] => Ok sx
             | Ok sx, _ =>
                 match join_items r with
                 | Ok sr => Ok (sx ++ "," ++ sr)
                 | Throw e => Throw e
                 end
             end
         end) items
  | VObj props =>
      if has_key "toString" props then Throw NoPrimitiveValue
      else Ok "[object Object]"
  end.

(** ToNumber, that is [Number(v)]. *)
Definition to_number (v : value) : result number :=
  match v with
  | VUndefined => Ok NaN
  | VNull => Ok (S754_zero false)
  | VBool b => Ok (if b then of_Z 1 else S754_zero false)
  | VNum n => Ok n
  | VStr s => Ok (of_string s)
  | VArr _ | VObj _ =>
      match to_string v with
      | Ok s => Ok (of_string s)
      | Throw e => Throw e
      end
  end.

(** *** JSON.stringify *)

Definition hex_digit (z : Z) : ascii :=
  JsString.chr (if z <? 10 then 48 + z else 87 + z).

Definition escape_char (c : ascii) : string :=
  let z := JsString.code c in
  if z =? 34 then "\" ++ String c EmptyString
  else if z =? 92 then "\\"
  else if z =? 8 then "\b"
  else if z =? 12 then "\f"
  else if z =? 10 then "\n"
  else if z =? 13 then "\r"
  else if z =? 9 then "\t"
  else if z <? 32 then
    "\u00" ++ String (hex_digit (z / 16)) (String (hex_digit (z mod 16)) EmptyString)
  else String c EmptyString.

(** A surrogate without a partner is written as its [\u] escape. *)
Definition escape_surrogate (c1 c2 : ascii) : string :=
  let low := (JsString.code c1 mod 64) * 64 + JsString.code c2 mod 64 in
  "\ud" ++ String (hex_digit (low / 256))
             (String (hex_digit ((low / 16) mod 16))
               (String (hex_digit (low mod 16)) EmptyString)).

Fixpoint escape (s : string) : string :=
  match s with
  | EmptyString => EmptyString
  | String c r =>
      match r with
      | String c1 (String c2 r2) =>
          if JsString.is_surrogate c c1
          then escape_surrogate c1 c2 ++ escape r2
          else escape_char c ++ escape r
      | _ => escape_char c ++ escape r
      end
  end.

Definition quote (s : string) : string :=
  String (JsString.chr 34) (escape s) ++ String (JsString.chr 34) EmptyString.

(** [JSON.stringify(v)]; [None] stands for [undefined].  A property whose
    value serializes to [undefined] is left out of its object; such an
    array element is written [null]; a non-finite number is [null]. *)
Fixpoint stringify (v : value) : option string :=
  match v with
  | VUndefined => None
  | VNull => Some "null"
  | VBool b => Some (if b then "true" else "false")
  | VNum n => Some (if is_finite n then toString n else "null")
  | VStr s => Some (quote s)
  | VArr items =>
      Some ("[" ++ JsString.join ","
              (map (fun x => match stringify x with
                             | Some t => t
                             | None => "null"
                             end) items) ++ "]")
  | VObj props =>
      Some ("{" ++ JsString.join ","
              ((fix members (l : list (string * value)) : list string :=
                  match l with
                  | [] => []
                  | (k, x) :: r =>
                      match stringify x with
                      | Some t => (quote k ++ ":" ++ t) :: members r
                      | None => members r
                      end
                  end) props) ++ "}")
  end.

(** The properties of an object literal that reach the wire. *)
Definition defined (v : value) : bool :=
  match v with VUndefined => false | _ => true end.

Definition sent_props (props : list (string * value)) : list (string * value) :=
  filter (fun kv => defined (snd kv)) props.

End Js.

(** ** SHA-256 (FIPS 180-4), as [crypto.createHash("sha256")] computes it *)

Module Sha256.

(** Words are 32-bit: integers in [0, 2^32), sums wrap around. *)
Definition wrap (x : Z) : Z := x mod 2 ^ 32.
Definition add (x y : Z) : Z := wrap (x + y).

Definition rotr (n x : Z) : Z :=
  Z.lor (Z.shiftr x n) (wrap (Z.shiftl x (32 - n))).
Definition shr (n x : Z) : Z := Z.shiftr x n.
Definition complement (x : Z) : Z := Z.lxor x 0xffffffff.

Definition Ch (x y z : Z) : Z := Z.lxor (Z.land x y) (Z.land (complement x) z).
Definition Maj (x y z : Z) : Z :=
  Z.lxor (Z.lxor (Z.land x y) (Z.land x z)) (Z.land y z).
Definition Sigma0 (x : Z) : Z := Z.lxor (Z.lxor (rotr 2 x) (rotr 13 x)) (rotr 22 x).
Definition Sigma1 (x : Z) : Z := Z.lxor (Z.lxor (rotr 6 x) (rotr 11 x)) (rotr 25 x).
Definition sigma0 (x : Z) : Z := Z.lxor (Z.lxor (rotr 7 x) (rotr 18 x)) (shr 3 x).
Definition sigma1 (x : Z) : Z := Z.lxor (Z.lxor (rotr 17 x) (rotr 19 x)) (shr 10 x).

(** The first sixty-four primes. *)
Definition primes : list Z :=
  [ 2; 3; 5; 7; 11; 13; 17; 19; 23; 29; 31; 37; 41; 43; 47; 53;
    59; 61; 67; 71; 73; 79; 83; 89; 97; 101; 103; 107; 109; 113; 127; 131;
    137; 139; 149; 151; 157; 163; 167; 173; 179; 181; 191; 193; 197; 199;
    211; 223; 227; 229; 233; 239; 241; 251; 257; 263; 269; 271; 277; 281;
    283; 293; 307; 311 ].

(** The integer cube root, one bit at a time from bit [bits - 1] down. *)
Fixpoint cube_root (bits : nat) (n acc : Z) : Z :=
  match bits with
  | O => acc
  | S b =>
      let next := acc + 2 ^ Z.of_nat b in
      cube_root b n (if next * next * next <=? n then next else acc)
  end.

(** The round constants: the first 32 bits of the fractional part of the
    cube root of each prime. *)
Definition K : list Z :=
  map (fun p => wrap (cube_root 36 (p * 2 ^ 96) 0)) primes.

(** The eight working variables, and the chaining value between blocks. *)
Record hash : Type := Hash {
  ha : Z; hb : Z; hc : Z; hd : Z; he : Z; hf : Z; hg : Z; hh : Z
}.

(** The first 32 bits of the fractional part of the square root of [p]. *)
Definition root_fraction (p : Z) : Z := wrap (Z.sqrt (p * 2 ^ 64)).

(** The initial hash value, from the first eight primes. *)
Definition initial : hash :=
  Hash (root_fraction 2) (root_fraction 3) (root_fraction 5) (root_fraction 7)
       (root_fraction 11) (root_fraction 13) (root_fraction 17) (root_fraction 19).

(** Padding: a one bit, zero bits up to 448 modulo 512, then the bit length
    on 64 bits, big-endian. *)
Definition be_bytes (count : nat) (x : Z) : list Z :=
  map (fun i => Z.shiftr x (8 * Z.of_nat i) mod 256) (rev (seq 0 count)).

Definition pad (msg : list Z) : list Z :=
  let len := Z.of_nat (List.length msg) in
  let fill := (55 - len) mod 64 in
  msg ++ 128 :: repeat 0 (Z.to_nat fill) ++ be_bytes 8 (8 * len).

Fixpoint words (bytes : list Z) : list Z :=
  match bytes with
  | b0 :: b1 :: b2 :: b3 :: r =>
      (((b0 * 256 + b1) * 256 + b2) * 256 + b3) :: words r
  | _ => []
  end.

(** The message schedule, most recent word first. *)
Fixpoint extend (count : nat) (recent : list Z) : list Z :=
  match count with
  | O => recent
  | S k =>
      let w := add (add (sigma1 (nth 1 recent 0)) (nth 6 recent 0))
                   (add (sigma0 (nth 14 recent 0)) (nth 15 recent 0)) in
      extend k (w :: recent)
  end.

Definition schedule (block : list Z) : list Z :=
  rev (extend 48 (rev (words block))).

Definition round (s : hash) (kw : Z * Z) : hash :=
  let '(k, w) := kw in
  let t1 := add (add (add (hh s) (Sigma1 (he s))) (Ch (he s) (hf s) (hg s)))
                (add k w) in
  let t2 := add (Sigma0 (ha s)) (Maj (ha s) (hb s) (hc s)) in
  Hash (add t1 t2) (ha s) (hb s) (hc s) (add (hd s) t1) (he s) (hf s) (hg s).

Definition compress (h : hash) (block : list Z) : hash :=
  let s := fold_left round (combine K (schedule block)) h in
  Hash (add (ha h) (ha s)) (add (hb h) (hb s)) (add (hc h) (hc s))
       (add (hd h) (hd s)) (add (he h) (he s)) (add (hf h) (hf s))
       (add (hg h) (hg s)) (add (hh h) (hh s)).

Fixpoint blocks (count : nat) (bytes : list Z) (h : hash) : hash :=
  match count with
  | O => h
  | S k => blocks k (skipn 64 bytes) (compress h (firstn 64 bytes))
  end.

Definition digest (msg : list Z) : hash :=
  let padded := pad msg in
  blocks (List.length padded / 64) padded initial.

(** [.digest("hex")]: eight lower-case hexadecimal digits per word. *)
Definition nibble (x : Z) (i : Z) : ascii :=
  Js.hex_digit (Z.land (Z.shiftr x (4 * i)) 15).

Definition hex_word (x : Z) (rest : string) : string :=
  String (nibble x 7) (String (nibble x 6) (String (nibble x 5)
  (String (nibble x 4) (String (nibble x 3) (String (nibble x 2)
  (String (nibble x 1) (String (nibble x 0) rest))))))).

Definition hex (h : hash) : string :=
  hex_word (ha h) (hex_word (hb h) (hex_word (hc h) (hex_word (hd h)
  (hex_word (he h) (hex_word (hf h) (hex_word (hg h) (hex_word (hh h)
  EmptyString))))))).

(** The bytes [update] hashes: the UTF-8 encoding of the string, U+FFFD
    taking the place of a surrogate without a partner. *)
Fixpoint utf8 (s : string) : list Z :=
  match s with
  | EmptyString => []
  | String c r =>
      match r with
      | String c1 (String c2 r2) =>
          if JsString.is_surrogate c c1
          then 239 :: 191 :: 189 :: utf8 r2
          else JsString.code c :: utf8 r
      | _ => JsString.code c :: utf8 r
      end
  end.

(** [crypto.createHash("sha256").update(s).digest("hex")]. *)
Definition sha256_hex (s : string) : string := hex (digest (utf8 s)).

End Sha256.

(** ** The host: clock, date parser, case tables, network

    An invocation reads the clock ([Date.now]), may parse a date string
    ([Date.parse], whose behaviour outside the ISO format is left to the
    implementation), changes the case of strings and awaits outbound
    requests.  The computation is a
    function of the host's answers; it threads the number of clock reads and
    the list of requests sent so far, and may end in an exception. *)

Module Host.

Import JsNumber Js.

Record http_request : Type := {
  url : string;
  http_method : string;
  headers : list (string * string);
  body : string
}.

(** A response: its status line and what [text()] resolves to. *)
Record http_response : Type := {
  resp_status : Z;
  resp_text : result string
}.

(** [Response.ok]. *)
Definition resp_ok (r : http_response) : bool :=
  (200 <=? resp_status r) && (resp_status r <=? 299).

Record host : Type := {
  (** the [i]-th reading of the clock, in milliseconds since the epoch *)
  clock : nat -> Z;
  (** [Date.parse]: a time value or [NaN] *)
  Date_parse : string -> number;
  (** [toUpperCase] and [toLowerCase] on a string that has characters beyond
      ASCII: the Unicode case mapping of the engine *)
  unicode_upper : string -> string;
  unicode_lower : string -> string;
  (** the answer to the [i]-th outbound request, or a transport error *)
  network : nat -> http_request -> result http_response
}.

Record world : Type := {
  ticks : nat;
  sent : list http_request
}.

Definition start : world := {| ticks := 0; sent := [] |}.

(** [String.prototype.toUpperCase] and [toLowerCase].  The letters of ASCII
    are mapped first, which the Unicode mapping leaves as they are; a string
    that has nothing else is done, any other goes through the engine's
    table. *)
Definition toUpperCase (h : host) (s : string) : string :=
  let mapped := JsString.ascii_upper s in
  if JsString.ascii_only mapped then mapped else unicode_upper h mapped.

Definition toLowerCase (h : host) (s : string) : string :=
  let mapped := JsString.ascii_lower s in
  if JsString.ascii_only mapped then mapped else unicode_lower h mapped.

Definition M (A : Type) : Type := world -> result A * world.

Definition ret {A} (a : A) : M A := fun w => (Ok a, w).
Definition bind {A B} (c : M A) (k : A -> M B) : M B :=
  fun w =>
    match c w with
    | (Ok a, w') => k a w'
    | (Throw e, w') => (Throw e, w')
    end.
Definition lift {A} (r : result A) : M A := fun w => (r, w).

(** [try { c } catch (err) { handle err }]. *)
Definition try_catch {A} (c : M A) (handle : error -> M A) : M A :=
  fun w =>
    match c w with
    | (Ok a, w') => (Ok a, w')
    | (Throw e, w') => handle e w'
    end.

(** [Date.now()]. *)
Definition Date_now (h : host) : M number :=
  fun w => (Ok (of_Z (clock h (ticks w))),
            {| ticks := S (ticks w); sent := sent w |}).

(** [await fetch(...)]. *)
Definition fetch (h : host) (rq : http_request) : M http_response :=
  fun w => (network h (List.length (sent w)) rq,
            {| ticks := ticks w; sent := sent w ++ [rq] |}).

End Host.

Declare Scope js_scope.
Delimit Scope js_scope with js.
Notation "x <- c ;; k" := (Host.bind c (fun x => k))
  (at level 61, c at next level, right associativity) : js_scope.
Notation "' pat <- c ;; k" := (Host.bind c (fun x => match x with pat => k end))
  (at level 61, pat pattern, c at next level, right associativity) : js_scope.

(** ** The source: functions shared by both revisions *)

Import JsNumber Js Host.
Open Scope js_scope.

(** The argument of [toMillis]: a value out of the payload, or a [Date]
    holding a time value. *)
Inductive timestamp : Type :=
| TsValue (v : value)
| TsDate (t : number).

Definition seconds_limit : number := of_Z (10 ^ 12).   (* 1e12 *)
Definition thousand : number := of_Z 1000.

(** [n > 1e12 ? n : n * 1000]. *)
Definition to_ms (n : number) : number :=
  if gt n seconds_limit then n else mul n thousand.

(** [function toMillis(ts)]. *)
Definition toMillis (h : host) (ts : timestamp) : M number :=
  match ts with
  | TsValue VUndefined | TsValue VNull => Date_now h
  | TsDate t => if JsNumber.truthy t then ret t else Date_now h
  | TsValue (VNum n) => ret (to_ms n)
  | TsValue v =>
      n <- lift (to_number v) ;;
      if negb (isNaN n) then ret (to_ms n)
      else
        (* new Date(ts).getTime() *)
        s <- lift (to_string v) ;;
        let d := Date_parse h s in
        if JsNumber.truthy d then ret d else Date_now h
  end.

Inductive kind : Type := Install | Reinstall | Open | Other.

Definition kind_text (t : kind) : string :=
  match t with
  | Install => "install"
  | Reinstall => "reinstall"
  | Open => "open"
  | Other => "other"
  end.

(** [p.name || p.event || '']. *)
Definition raw_event (p : value) : value :=
  Js.or (Js.or (get p "name") (get p "event")) (VStr EmptyString).

(** [function normalizeEventType(p)]; calling [toUpperCase] on anything but a
    string is a TypeError. *)
Definition normalizeEventType (h : host) (p : value) : result (kind * string) :=
  match raw_event p with
  | VStr s =>
      let raw := toUpperCase h s in
      if JsString.includes "REINSTALL" raw then Ok (Reinstall, "Branch Reinstall")
      else if JsString.includes "INSTALL" raw then Ok (Install, "Branch Attributed Install")
      else if JsString.includes "OPEN" raw then Ok (Open, "Branch Open")
      else Ok (Other, if JsString.is_empty raw then "Branch Event" else raw)
  | _ => Throw (NotAFunction "toUpperCase")
  end.

(** [JSON.stringify] of a value that is not [undefined]. *)
Definition json_text (v : value) : string :=
  match stringify v with Some s => s | None => "undefined" end.

(** The text hashed by [buildInsertId]. *)
Definition seed (p : value) (when : number) (label : string) : string :=
  json_text (VObj [ ("id", get p "id");
                    ("name", get p "name");
                    ("event", get p "event");
                    ("when", VNum when);
                    ("label", VStr label);
                    ("link", get_opt (get p "last_attributed_touch_data") "link_id") ]).

(** [function buildInsertId(p, when, label)]. *)
Definition buildInsertId (p : value) (when : number) (label : string) : string :=
  JsString.slice0 64 (Sha256.sha256_hex (seed p when label)).

(** The three lines of the handler that normalize the event:
    [const when = toMillis(p.timestamp_millis || p.timestamp)],
    [const { type, label } = normalizeEventType(p)],
    [const insertId = buildInsertId(p, when, label)]. *)
Definition normalized (h : host) (p : value) : M (number * kind * string * string) :=
  when <- toMillis h (TsValue (Js.or (get p "timestamp_millis") (get p "timestamp"))) ;;
  ' (type, label) <- lift (normalizeEventType h p) ;;
  ret (when, type, label, buildInsertId p when label).

(** ** Configuration, request and response *)

(** [process.env]: each variable is a string or is not set. *)
Record env : Type := {
  AMPLITUDE_API_KEY : option string;
  AMPLITUDE_HTTP_ENDPOINT : option string;
  BRANCH_TOKEN_var : option string
}.

Definition env_value (o : option string) : value :=
  match o with Some s => VStr s | None => VUndefined end.

Definition AMPLITUDE_KEY (e : env) : value := env_value (AMPLITUDE_API_KEY e).

Definition AMPLITUDE_ENDPOINT (e : env) : string :=
  JsString.strip_trailing_slashes
    match AMPLITUDE_HTTP_ENDPOINT e with
    | Some s => if JsString.is_empty s then "https://api2.amplitude.com" else s
    | None => "https://api2.amplitude.com"
    end.

Definition BRANCH_TOKEN (e : env) : value := env_value (BRANCH_TOKEN_var e).

(** [req.query.token]: absent, given once, or given several times. *)
Inductive query_param : Type :=
| QAbsent
| QOne (s : string)
| QMany (l : list string).

Record request : Type := {
  method : string;
  query_token : query_param;
  req_body : value
}.

(** [req.query.token !== BRANCH_TOKEN]. *)
Definition token_differs (q : query_param) (token : value) : bool :=
  match q, token with
  | QOne s, VStr t => negb (String.eqb s t)
  | QAbsent, VUndefined => false
  | _, _ => true
  end.

(** What was written to [res]: [send(text)], [json(value)], or the
    [server_error] body, whose message is the engine's text for the
    exception caught. *)
Inductive reply : Type :=
| Send (text : string)
| Json (v : value)
| ServerError (e : error).

Record response : Type := {
  status : Z;
  sent_body : reply
}.

Definition respond (code : Z) (r : reply) : M response :=
  ret {| status := code; sent_body := r |}.

(** ** The records sent downstream (the same in both revisions) *)

(** [x ?? null]. *)
Definition or_null (x : value) : value := nullish x VNull.

(** The [user_properties] of the identify record: [$setOnce] and [$set]. *)
Definition setOnce (latd : value) (type : kind) (when : number) : value :=
  VObj [ ("acq_channel_first", or_null (get latd "channel"));
         ("acq_campaign_first", or_null (get latd "campaign"));
         ("acq_partner_first", or_null (get latd "ad_partner"));
         ("acq_adset_first", or_null (get latd "ad_set"));
         ("acq_creative_first", or_null (get latd "creative"));
         ("acq_install_ts",
           match type with Install => VNum when | _ => VUndefined end) ].

Definition set_always (latd : value) (when : number) : value :=
  VObj [ ("acq_channel_last", or_null (get latd "channel"));
         ("acq_campaign_last", or_null (get latd "campaign"));
         ("acq_partner_last", or_null (get latd "ad_partner"));
         ("acq_adset_last", or_null (get latd "ad_set"));
         ("acq_creative_last", or_null (get latd "creative"));
         ("acq_last_touch_ts", VNum when) ].

Definition user_properties (latd : value) (type : kind) (when : number) : value :=
  VObj [ ("$setOnce", setOnce latd type when);
         ("$set", set_always latd when) ].

(** [const identification = { ... }]. *)
Definition identification (deviceId latd : value) (type : kind) (when : number)
  : value :=
  VObj [ ("device_id", deviceId);
         ("user_id", VNull);
         ("user_properties", user_properties latd type when) ].

(** [event_properties] of the attribution event. *)
Definition event_properties (latd : value) (type : kind) : value :=
  VObj [ ("install_type", VStr (kind_text type));
         ("branch_channel", or_null (get latd "channel"));
         ("branch_campaign", or_null (get latd "campaign"));
         ("branch_partner", or_null (get latd "ad_partner"));
         ("branch_adset", or_null (get latd "ad_set"));
         ("branch_creative", or_null (get latd "creative"));
         ("branch_feature", or_null (get latd "feature"));
         ("branch_link_id", or_null (get latd "link_id"));
         ("web_to_app", VBool (Js.truthy (get latd "web_to_app"))) ].

Definition platform_of (h : host) (os : string) : value :=
  VStr (if JsString.includes "android" (toLowerCase h os)
        then "Android" else "iOS").

Definition json_headers : list (string * string) :=
  [("Content-Type", "application/json")].

Definition post (target : string) (payload : value) : http_request :=
  {| url := target; http_method := "POST"; headers := json_headers;
     body := json_text payload |}.

Definition skipped : reply :=
  Json (VObj [("skipped", VBool true); ("reason", VStr "no_device_id")]).

Definition failed (what : string) (r : http_response) (text : string) : reply :=
  Json (VObj [ ("error", VStr what);
               ("status", VNum (of_Z (resp_status r)));
               ("body", VStr text) ]).

Definition done : reply := Json (VObj [("ok", VBool true)]).

(** [typeof payload?.data === "object" ? { ...payload, ...payload.data } : payload] *)
Definition unwrap (payload : value) : value :=
  if String.eqb (typeof (get_opt payload "data")) "object"
  then spread payload (get payload "data")
  else payload.

(** ** First revision: one combined delivery *)

Module Unified.

Definition recognized : list string :=
  ["idfa"; "idfv"; "adid"; "advertising_id"; "gaid"].

(** The loop of [pickDeviceId] over [Object.keys(u)]. *)
Fixpoint scan (h : host) (u : value) (ks : list string) : option string :=
  match ks with
  | [] => None
  | key :: rest =>
      let lower := toLowerCase h key in
      if existsb (String.eqb lower) recognized then
        match get u key with
        | VStr value =>
            if negb (JsString.is_empty (JsString.trim value))
            then Some (JsString.trim value)
            else scan h u rest
        | _ => scan h u rest
        end
      else scan h u rest
  end.

(** [function pickDeviceId(p): string]. *)
Definition pickDeviceId (h : host) (p : value) : M string :=
  let u := Js.or (get p "user_data") (VObj []) in
  match scan h u (keys u) with
  | Some id => ret id
  | None => now <- Date_now h ;; ret ("fallback-" ++ toString now)
  end.

(** [cond ? u.k : undefined] with [cond] = [k in u && typeof u.k === "string"]. *)
Definition string_field (u : value) (k : string) : result value :=
  match has_property k u with
  | Ok present =>
      Ok (if present && is_string (get u k) then get u k else VUndefined)
  | Throw e => Throw e
  end.

Definition os_text (u : value) : result string :=
  match has_property "os" u with
  | Ok present =>
      Ok (match get u "os" with
          | VStr s => if present then s else EmptyString
          | _ => EmptyString
          end)
  | Throw e => Throw e
  end.

(** [const identifyEvent = { ... }]. *)
Definition identifyEvent (deviceId latd : value) (type : kind) (when : number)
  : value :=
  VObj [ ("device_id", deviceId);
         ("user_id", VNull);
         ("event_type", VStr "$identify");
         ("user_properties", get (identification deviceId latd type when)
                                 "user_properties");
         ("time", VNum when) ].

(** [const branchEvent = { ... }]. *)
Definition branchEvent (h : host) (deviceId latd u : value) (type : kind)
  (label : string) (when : number) (insertId : string) : result value :=
  match string_field u "app_version" with
  | Throw e => Throw e
  | Ok app_version =>
  match os_text u with
  | Throw e => Throw e
  | Ok os =>
  match string_field u "os" with
  | Throw e => Throw e
  | Ok os_name =>
  match string_field u "os_version" with
  | Throw e => Throw e
  | Ok os_version =>
  match string_field u "device_model" with
  | Throw e => Throw e
  | Ok device_model =>
      Ok (VObj [ ("device_id", deviceId);
                 ("user_id", VNull);
                 ("event_type", VStr label);
                 ("time", VNum when);
                 ("insert_id", VStr insertId);
                 ("event_properties", event_properties latd type);
                 ("app_version", app_version);
                 ("platform", platform_of h os);
                 ("os_name", os_name);
                 ("os_version", os_version);
                 ("device_model", device_model) ])
  end end end end end.

Definition combinedPayload (e : env) (identifyEvent branchEvent : value) : value :=
  VObj [ ("api_key", AMPLITUDE_KEY e);
         ("events", VArr [identifyEvent; branchEvent]) ].

(** The handler from [const deviceId = pickDeviceId(p)] on. *)
Definition translate (e : env) (h : host) (p : value) : M response :=
  deviceId <- pickDeviceId h p ;;
  if JsString.is_empty deviceId then respond 202 skipped
  else
    let latd := Js.or (get p "last_attributed_touch_data") (VObj []) in
    ' (when, type, label, insertId) <- normalized h p ;;
    let ident := identifyEvent (VStr deviceId) latd type when in
    let u := nullish (get p "user_data") (VObj []) in
    event <- lift (branchEvent h (VStr deviceId) latd u type label when insertId) ;;
    evtRes <- fetch h (post (AMPLITUDE_ENDPOINT e ++ "/2/httpapi")
                            (combinedPayload e ident event)) ;;
    if negb (resp_ok evtRes) then
      text <- lift (resp_text evtRes) ;;
      respond 500 (failed "event_failed" evtRes text)
    else respond 200 done.

(** The body of the [try] block, after the method and token checks. *)
Definition process (e : env) (h : host) (req : request) : M response :=
  let payload := Js.or (req_body req) (VObj []) in
  translate e h (unwrap payload).

(** [export default async function handler(req, res)]. *)
Definition handler (e : env) (h : host) (req : request) : M response :=
  try_catch
    (if negb (String.eqb (method req) "POST")
     then respond 405 (Send "Method Not Allowed")
     else if negb (Js.truthy (BRANCH_TOKEN e))
              || token_differs (query_token req) (BRANCH_TOKEN e)
     then respond 401 (Send "Unauthorized")
     else process e h req)
    (fun err => respond 500 (ServerError err)).

End Unified.

(** ** Second revision: identify call, then event call *)

Module TwoCall.

(** [x && x.trim()]. *)
Definition and_trim (x : value) : result value :=
  if Js.truthy x then
    match x with
    | VStr s => Ok (VStr (JsString.trim s))
    | _ => Throw (NotAFunction "trim")
    end
  else Ok x.

(** [function pickDeviceId(p): string | undefined]. *)
Definition pickDeviceId (p : value) : result value :=
  let u := Js.or (get p "user_data") (VObj []) in
  match and_trim (get u "idfa") with
  | Throw e => Throw e
  | Ok a =>
      if Js.truthy a then Ok a
      else
        match and_trim (get u "idfv") with
        | Throw e => Throw e
        | Ok b =>
            if Js.truthy b then Ok b
            else
              match and_trim (get u "adid") with
              | Throw e => Throw e
              | Ok c => Ok (Js.or c VUndefined)
              end
        end
  end.

(** [x || undefined]. *)
Definition or_undefined (x : value) : value := Js.or x VUndefined.

(** [(u.os || '').toLowerCase().includes('android') ? 'Android' : 'iOS']. *)
Definition platform (h : host) (u : value) : result value :=
  match Js.or (get u "os") (VStr EmptyString) with
  | VStr s => Ok (platform_of h s)
  | _ => Throw (NotAFunction "toLowerCase")
  end.

(** [const eventBody = { ... }]. *)
Definition eventBody (e : env) (h : host) (deviceId latd u : value)
  (type : kind) (label : string) (when : number) (insertId : string)
  : result value :=
  match platform h u with
  | Throw err => Throw err
  | Ok plat =>
      Ok (VObj [ ("api_key", AMPLITUDE_KEY e);
                 ("events", VArr [
                    VObj [ ("device_id", deviceId);
                           ("user_id", VNull);
                           ("event_type", VStr label);
                           ("time", VNum when);
                           ("insert_id", VStr insertId);
                           ("event_properties", event_properties latd type);
                           ("app_version", or_undefined (get u "app_version"));
                           ("platform", plat);
                           ("os_name", or_undefined (get u "os"));
                           ("os_version", or_undefined (get u "os_version"));
                           ("device_model", or_undefined (get u "device_model")) ] ]) ])
  end.

Definition identifyBody (e : env) (ident : value) : value :=
  VObj [ ("api_key", AMPLITUDE_KEY e); ("identification", VArr [ident]) ].

Definition translate (e : env) (h : host) (p : value) : M response :=
  deviceId <- lift (pickDeviceId p) ;;
  if negb (Js.truthy deviceId) then respond 202 skipped
  else
    let latd := Js.or (get p "last_attributed_touch_data") (VObj []) in
    ' (when, type, label, insertId) <- normalized h p ;;
    let ident := identification deviceId latd type when in
    identRes <- fetch h (post (AMPLITUDE_ENDPOINT e ++ "/identify")
                              (identifyBody e ident)) ;;
    if negb (resp_ok identRes) then
      text <- lift (resp_text identRes) ;;
      respond 500 (failed "identify_failed" identRes text)
    else
      let u := Js.or (get p "user_data") (VObj []) in
      event <- lift (eventBody e h deviceId latd u type label when insertId) ;;
      evtRes <- fetch h (post (AMPLITUDE_ENDPOINT e ++ "/2/httpapi") event) ;;
      if negb (resp_ok evtRes) then
        text <- lift (resp_text evtRes) ;;
        respond 500 (failed "event_failed" evtRes text)
      else respond 200 done.

Definition process (e : env) (h : host) (req : request) : M response :=
  let payload := Js.or (req_body req) (VObj []) in
  translate e h (unwrap payload).

Definition handler (e : env) (h : host) (req : request) : M response :=
  try_catch
    (if negb (String.eqb (method req) "POST")
     then respond 405 (Send "Method Not Allowed")
     else if negb (Js.truthy (BRANCH_TOKEN e))
              || token_differs (query_token req) (BRANCH_TOKEN e)
     then respond 401 (Send "Unauthorized")
     else process e h req)
    (fun err => respond 500 (ServerError err)).

End TwoCall.

(** ** A host for the worked examples

    Its [Date.parse] recognises the ECMAScript date-time string format
    ([YYYY-MM-DDTHH:mm:ss.sssZ] and its shorter forms) and nothing else, and
    its local time zone is UTC; its case tables leave every character beyond
    ASCII as it is.  The general statements below hold for every host; this
    one only serves to run the handler on concrete requests. *)

Module IsoDate.

(** Exactly [n] decimal digits at the head of [s]. *)
Fixpoint digits (n : nat) (s : string) (acc : Z) : option (Z * string) :=
  match n with
  | O => Some (acc, s)
  | S k =>
      match s with
      | String c r =>
          if JsString.is_digit c
          then digits k r (acc * 10 + (JsString.code c - 48))
          else None
      | EmptyString => None
      end
  end.

(** Days from 1970-01-01 to the given civil date. *)
Definition days_from_civil (y m d : Z) : Z :=
  let y' := if m <=? 2 then y - 1 else y in
  let era := y' / 400 in
  let yoe := y' - era * 400 in
  let doy := (153 * (if 2 <? m then m - 3 else m + 9) + 2) / 5 + d - 1 in
  let doe := yoe * 365 + yoe / 4 - yoe / 100 + doy in
  era * 146097 + doe - 719468.

Definition year (s : string) : option (Z * string) :=
  match s with
  | String "+" r => digits 6 r 0
  | String "-" r =>
      match digits 6 r 0 with
      | Some (y, r') => if y =? 0 then None else Some (- y, r')
      | None => None
      end
  | _ => digits 4 s 0
  end.

(** [-MM] and [-DD], each optional; defaults are 1. *)
Definition month_day (s : string) : option (Z * Z * string) :=
  match s with
  | String "-" r =>
      match digits 2 r 0 with
      | Some (m, String "-" r') =>
          match digits 2 r' 0 with
          | Some (d, r'') => Some (m, d, r'')
          | None => None
          end
      | Some (m, r') => Some (m, 1, r')
      | None => None
      end
  | _ => Some (1, 1, s)
  end.

(** [:ss] and [.sss], each optional. *)
Definition seconds (s : string) : option (Z * Z * string) :=
  match s with
  | String ":" r =>
      match digits 2 r 0 with
      | Some (sec, String "." r') =>
          match digits 3 r' 0 with
          | Some (ms, r'') => Some (sec, ms, r'')
          | None => None
          end
      | Some (sec, r') => Some (sec, 0, r')
      | None => None
      end
  | _ => Some (0, 0, s)
  end.

(** The offset from UTC in minutes: [Z], [+HH:mm], [-HH:mm], or none. *)
Definition offset (s : string) : option Z :=
  let hm (sign : Z) (r : string) :=
    match digits 2 r 0 with
    | Some (hh, String ":" r') =>
        match digits 2 r' 0 with
        | Some (mm, EmptyString) =>
            if (hh <=? 23) && (mm <=? 59) then Some (sign * (hh * 60 + mm))
            else None
        | _ => None
        end
    | _ => None
    end in
  match s with
  | EmptyString => Some 0
  | String "Z" EmptyString => Some 0
  | String "+" r => hm 1 r
  | String "-" r => hm (-1) r
  | _ => None
  end.

(** Milliseconds into the day and the offset, from the text after the date. *)
Definition time_of_day (s : string) : option (Z * Z) :=
  match s with
  | EmptyString => Some (0, 0)
  | String "T" r =>
      match digits 2 r 0 with
      | Some (hh, String ":" r1) =>
          match digits 2 r1 0 with
          | Some (mm, r2) =>
              match seconds r2 with
              | Some (sec, ms, r3) =>
                  match offset r3 with
                  | Some off =>
                      let t := ((hh * 60 + mm) * 60 + sec) * 1000 + ms in
                      if (mm <=? 59) && (sec <=? 59)
                         && ((hh <=? 23) || ((hh =? 24) && (t =? 86400000)))
                      then Some (t, off) else None
                  | None => None
                  end
              | None => None
              end
          | None => None
          end
      | _ => None
      end
  | _ => None
  end.

(** The time value of a date-time string, if it is one and in range. *)
Definition time_value (s : string) : option Z :=
  match year s with
  | Some (y, r) =>
      match month_day r with
      | Some (m, d, r') =>
          match time_of_day r' with
          | Some (t, off) =>
              let tv := days_from_civil y m d * 86400000 + t - off * 60000 in
              if (1 <=? m) && (m <=? 12) && (1 <=? d) && (d <=? 31)
                 && (Z.abs tv <=? 8640000000000000)
              then Some tv else None
          | None => None
          end
      | None => None
      end
  | None => None
  end.

Definition parse (s : string) : JsNumber.number :=
  match time_value s with
  | Some tv => of_Z tv
  | None => NaN
  end.

End IsoDate.

(** A host whose clock starts at [now] and advances by one millisecond per
    reading, and whose network gives the same [answer] to every request. *)
Definition sample_host (now : Z) (answer : result http_response) : host :=
  {| clock := fun i => now + Z.of_nat i;
     Date_parse := IsoDate.parse;
     unicode_upper := fun s => s;
     unicode_lower := fun s => s;
     network := fun _ _ => answer |}.

Definition accepted : result http_response :=
  Ok {| resp_status := 200; resp_text := Ok "{}" |}.

Definition sample_env : env :=
  {| AMPLITUDE_API_KEY := Some "KEY";
     AMPLITUDE_HTTP_ENDPOINT := None;
     BRANCH_TOKEN_var := Some "XYZ" |}.

(** A POST carrying the right token. *)
Definition webhook (payload : value) : request :=
  {| method := "POST"; query_token := QOne "XYZ"; req_body := payload |}.

(** Run an invocation from the initial world. *)
Definition run {A} (c : M A) : result A * world := c start.
Definition outcome {A} (c : M A) : result A := fst (run c).
Definition requests {A} (c : M A) : list http_request := sent (snd (run c)).

(** ** Vocabulary of the statements *)

(** [pat] occurs in [s]. *)
Definition Contains (pat s : string) : Prop :=
  exists before after, s = before ++ pat ++ after.

(** A string of white space only (the empty string included). *)
Abbreviation blank := JsString.blank.

(** A key that is one of the recognized identity fields in some letter case. *)
Definition is_recognized (h : host) (k : string) : bool :=
  existsb (String.eqb (toLowerCase h k)) Unified.recognized.

(** A property of the identity mapping that holds a device id: a recognized
    key with a string value that is not blank. *)
Definition populated (h : host) (kv : string * value) : bool :=
  is_recognized h (fst kv)
  && match snd kv with
     | VStr s => negb (blank s)
     | _ => false
     end.

(** An object whose keys are pairwise distinct. *)
Definition distinct_keys (props : list (string * value)) : Prop :=
  NoDup (map fst props).

(** Lower-case hexadecimal digits. *)
Definition is_hex_char (c : ascii) : bool :=
  JsString.is_digit c || ((97 <=? JsString.code c) && (JsString.code c <=? 102)).

Fixpoint all_chars (f : ascii -> bool) (s : string) : bool :=
  match s with
  | EmptyString => true
  | String c r => f c && all_chars f r
  end.

(** The declared type of the parameter of [toMillis]:
    [number | string | Date | null | undefined]. *)
Definition declared_timestamp (ts : timestamp) : bool :=
  match ts with
  | TsDate _ => true
  | TsValue (VUndefined | VNull | VNum _ | VStr _) => true
  | TsValue _ => false
  end.

(** [a <= b] on Numbers. *)
Definition le (a b : number) : bool := SFleb a b.

(** The properties of the payload that the handler reads. *)
Definition payload_fields : list string :=
  [ "user_data"; "last_attributed_touch_data"; "timestamp_millis";
    "timestamp"; "name"; "event"; "id" ].

(** A request body that, if it is an object, has distinct keys. *)
Definition well_formed (v : value) : Prop :=
  match v with
  | VObj props => distinct_keys props
  | _ => True
  end.

(** The property [k] of the merge of [inner] over [outer]. *)
Definition merged (outer inner : list (string * value)) (k : string) : value :=
  match lookup k inner with
  | Some v => v
  | None => get (VObj outer) k
  end.

(** The members of a serialized object. *)
Definition members (props : list (string * value)) : list string :=
  flat_map (fun kv => match stringify (snd kv) with
                      | Some t => [(quote (fst kv) ++ ":" ++ t)%string]
                      | None => []
                      end) props.

(** The property [k] of a record as it reaches the wire: [None] when the
    serializer leaves it out. *)
Definition on_wire (record : value) (k : string) : option value :=
  lookup k (sent_props (own_props record)).

(** Attribution fields of the user-property groups: suffix-free name and the
    property of [last_attributed_touch_data] it comes from. *)
Definition touch_fields : list (string * string) :=
  [ ("channel", "channel"); ("campaign", "campaign"); ("partner", "ad_partner");
    ("adset", "ad_set"); ("creative", "creative") ].

(** Attribution fields of the event: property of [event_properties] and the
    property of [last_attributed_touch_data] it comes from. *)
Definition attribution_fields : list (string * string) :=
  [ ("branch_channel", "channel"); ("branch_campaign", "campaign");
    ("branch_partner", "ad_partner"); ("branch_adset", "ad_set");
    ("branch_creative", "creative"); ("branch_feature", "feature");
    ("branch_link_id", "link_id") ].

(** Device-metadata fields of the event: property of the event and the
    property of [user_data] it comes from. *)
Definition metadata_fields : list (string * string) :=
  [ ("app_version", "app_version"); ("os_name", "os");
    ("os_version", "os_version"); ("device_model", "device_model") ].

(** A timestamp the payload does not usably give: absent, or a text that
    reads neither as a number nor as a date. *)
Definition unusable (h : host) (ts : value) : Prop :=
  ts = VUndefined \/ ts = VNull
  \/ exists s, ts = VStr s /\ isNaN (of_string s) = true
                /\ isNaN (Date_parse h s) = true.

(** A request the handler lets through: a POST whose [token] query parameter
    is given once and equals a configured, non-empty [BRANCH_TOKEN]. *)
Definition authorized (e : env) (req : request) : Prop :=
  method req = "POST"
  /\ exists t, t <> EmptyString
              /\ BRANCH_TOKEN_var e = Some t
              /\ query_token req = QOne t.

(** The answer to a request that is not let through. *)
Definition refusal (req : request) : response :=
  if String.eqb (method req) "POST"
  then {| status := 401; sent_body := Send "Unauthorized" |}
  else {| status := 405; sent_body := Send "Method Not Allowed" |}.

(** A string that ends with a slash. *)
Fixpoint ends_with_slash (s : string) : bool :=
  match s with
  | EmptyString => false
  | String c EmptyString => Ascii.eqb c "/"
  | String _ r => ends_with_slash r
  end.

(** A string made of slashes only. *)
Definition slashes (s : string) : bool := all_chars (fun c => Ascii.eqb c "/") s.

(** What a downstream response that is not ok makes of the invocation:
    [const text = await res.text(); return res.status(500).json({...})]. *)
Definition answered (what : string) (res : http_response) : result response :=
  match resp_text res with
  | Ok text => Ok {| status := 500; sent_body := failed what res text |}
  | Throw err => Throw err
  end.

(** The response of the handler for the result of the [try] block. *)
Definition caught (r : result response) : response :=
  match r with
  | Ok resp => resp
  | Throw err => {| status := 500; sent_body := ServerError err |}
  end.

(** * Properties *)

(** ** Strings *)

Section StringFacts.

Import JsString.

Lemma prefix_app (pat rest : string) : String.prefix pat (pat ++ rest) = true.
Proof.
  induction pat as [|c pat IH]; simpl.
  - now destruct rest.
  - destruct (ascii_dec c c) as [_|ne]; [exact IH | now elim ne].
Qed.

Lemma prefix_inv (pat s : string) :
  String.prefix pat s = true -> exists rest, s = pat ++ rest.
Proof.
  revert s; induction pat as [|c pat IH]; intros s H.
  - now exists s.
  - destruct s as [|d s]; simpl in H; [discriminate|].
    destruct (ascii_dec c d) as [->|]; [|discriminate].
    destruct (IH _ H) as [rest ->]. now exists rest.
Qed.

Lemma includes_eq (pat s : string) :
  includes pat s =
  String.prefix pat s
  || match s with EmptyString => false | String _ r => includes pat r end.
Proof. now destruct s. Qed.

Lemma includes_Contains (pat s : string) :
  includes pat s = true <-> Contains pat s.
Proof.
  split.
  - induction s as [|c s IH]; rewrite includes_eq; intros H.
    + rewrite orb_false_r in H. apply prefix_inv in H as [rest E].
      now exists EmptyString, rest.
    + apply orb_true_iff in H as [H|H].
      * apply prefix_inv in H as [rest E]. now exists EmptyString, rest.
      * destruct (IH H) as (b & a & ->). now exists (String c b), a.
  - intros (b & a & ->). induction b as [|c b IH]; rewrite includes_eq.
    + cbn [append]. now rewrite prefix_app.
    + cbn [append]. rewrite IH. apply orb_true_r.
Qed.

Lemma includes_not_Contains (pat s : string) :
  includes pat s = false <-> ~ Contains pat s.
Proof.
  rewrite <- includes_Contains. destruct (includes pat s); split; congruence.
Qed.

Lemma map_string_empty f s : is_empty (map_string f s) = is_empty s.
Proof. now destruct s. Qed.

Lemma is_empty_true s : is_empty s = true <-> s = EmptyString.
Proof. destruct s; simpl; split; congruence. Qed.

Lemma is_empty_false s : is_empty s = false <-> s <> EmptyString.
Proof. destruct s; simpl; split; congruence. Qed.

End StringFacts.

(** ** Event-type normalization *)

(** C4. With [raw] the upper-cased event string ([p.name], else [p.event],
    else the empty string, put through [toUpperCase]), [normalizeEventType]
    answers by the first of REINSTALL, INSTALL, OPEN that occurs in [raw], in
    that order, with the labels "Branch Reinstall", "Branch Attributed
    Install", "Branch Open"; when none occurs the kind is [other] and the
    label is [raw], or "Branch Event" when [raw] is empty.  In particular an
    input whose upper-cased form contains both REINSTALL and INSTALL is a
    reinstall. *)
Theorem normalizeEventType_priority (h : host) (p : value) (s : string) :
  raw_event p = VStr s ->
  let raw := toUpperCase h s in
  (Contains "REINSTALL" raw ->
     normalizeEventType h p = Ok (Reinstall, "Branch Reinstall"))
  /\ (~ Contains "REINSTALL" raw -> Contains "INSTALL" raw ->
     normalizeEventType h p = Ok (Install, "Branch Attributed Install"))
  /\ (~ Contains "REINSTALL" raw -> ~ Contains "INSTALL" raw ->
      Contains "OPEN" raw ->
     normalizeEventType h p = Ok (Open, "Branch Open"))
  /\ (~ Contains "REINSTALL" raw -> ~ Contains "INSTALL" raw ->
      ~ Contains "OPEN" raw ->
     normalizeEventType h p =
       Ok (Other, if JsString.is_empty raw then "Branch Event" else raw))
  /\ (Contains "REINSTALL" raw -> Contains "INSTALL" raw ->
     exists label, normalizeEventType h p = Ok (Reinstall, label)).
Proof.
  intros E raw. unfold normalizeEventType. rewrite E. fold raw.
  repeat split.
  - intros H. apply includes_Contains in H. now rewrite H.
  - intros H1 H2. apply includes_not_Contains in H1. apply includes_Contains in H2.
    now rewrite H1, H2.
  - intros H1 H2 H3. apply includes_not_Contains in H1, H2.
    apply includes_Contains in H3. now rewrite H1, H2, H3.
  - intros H1 H2 H3. apply includes_not_Contains in H1, H2, H3.
    now rewrite H1, H2, H3.
  - intros H _. apply includes_Contains in H. rewrite H. now eexists.
Qed.

(** The event name "reinstall_and_install" is a reinstall. *)
Lemma normalizeEventType_priority_witness :
  normalizeEventType (sample_host 0 accepted)
    (VObj [("name", VStr "reinstall_and_install")])
  = Ok (Reinstall, "Branch Reinstall").
Proof.
  apply (normalizeEventType_priority (sample_host 0 accepted)
           (VObj [("name", VStr "reinstall_and_install")])
           "reinstall_and_install" eq_refl).
  exists EmptyString, "_AND_INSTALL". reflexivity.
Defined.

(** ** Device-id selection, first revision *)

Section Trim.

Import JsString.

Lemma trimStart_eq (s : string) :
  trimStart s = match white_head s with Some r => trimStart r | None => s end.
Proof.
  destruct s as [|c0 r0]; [reflexivity|]. cbn [trimStart white_head].
  destruct (white1 c0); [reflexivity|].
  destruct r0 as [|c1 r1]; [reflexivity|].
  destruct (white2 c0 c1); [reflexivity|].
  destruct r1 as [|c2 r2]; [reflexivity|].
  now destruct (white3 c0 c1 c2).
Qed.

Lemma blank_eq (s : string) :
  blank s = match white_head s with Some r => blank r | None => is_empty s end.
Proof.
  destruct s as [|c0 r0]; [reflexivity|]. cbn [blank white_head is_empty].
  destruct (white1 c0); [reflexivity|].
  destruct r0 as [|c1 r1]; [reflexivity|].
  destruct (white2 c0 c1); [reflexivity|].
  destruct r1 as [|c2 r2]; [reflexivity|].
  now destruct (white3 c0 c1 c2).
Qed.

(** A white-space character in front: the text is that character, which is
    blank, and the rest. *)
Lemma white_head_split (s r : string) :
  white_head s = Some r ->
  exists w, s = w ++ r /\ blank w = true /\ w <> EmptyString.
Proof.
  destruct s as [|c0 r0]; [discriminate|]. cbn [white_head].
  destruct (white1 c0) eqn:W1.
  { intros [= <-]. exists (String c0 EmptyString).
    split; [reflexivity|]. split; [|discriminate]. cbn [blank]. now rewrite W1. }
  destruct r0 as [|c1 r1]; [discriminate|].
  destruct (white2 c0 c1) eqn:W2.
  { intros [= <-]. exists (String c0 (String c1 EmptyString)).
    split; [reflexivity|]. split; [|discriminate]. cbn [blank].
    now rewrite W1, W2. }
  destruct r1 as [|c2 r2]; [discriminate|].
  destruct (white3 c0 c1 c2) eqn:W3; [|discriminate].
  intros [= <-]. exists (String c0 (String c1 (String c2 EmptyString))).
  split; [reflexivity|]. split; [|discriminate]. cbn [blank].
  now rewrite W1, W2, W3.
Qed.

Lemma white_head_shorter (s r : string) :
  white_head s = Some r -> (String.length r < String.length s)%nat.
Proof.
  destruct s as [|c0 r0]; [discriminate|]. cbn [white_head String.length].
  destruct (white1 c0); [intros [= <-]; lia|].
  destruct r0 as [|c1 r1]; [discriminate|]. cbn [String.length].
  destruct (white2 c0 c1); [intros [= <-]; lia|].
  destruct r1 as [|c2 r2]; [discriminate|]. cbn [String.length].
  destruct (white3 c0 c1 c2); [intros [= <-]; lia|discriminate].
Qed.

Lemma append_assoc (a b c : string) : (a ++ b) ++ c = a ++ (b ++ c).
Proof. induction a as [|x a IH]; [reflexivity|]. cbn [append]. now rewrite IH. Qed.

Lemma white_head_app (s r t : string) :
  white_head s = Some r -> white_head (s ++ t) = Some (r ++ t).
Proof.
  destruct s as [|c0 r0]; [discriminate|]. cbn [white_head append].
  destruct (white1 c0); [now intros [= <-]|].
  destruct r0 as [|c1 r1]; [discriminate|]. cbn [append].
  destruct (white2 c0 c1); [now intros [= <-]|].
  destruct r1 as [|c2 r2]; [discriminate|]. cbn [append].
  destruct (white3 c0 c1 c2); [now intros [= <-]|discriminate].
Qed.

(** Induction along the white space a text starts with. *)
Lemma white_induction (P : string -> Prop) :
  (forall s, white_head s = None -> P s) ->
  (forall s r, white_head s = Some r -> P r -> P s) ->
  forall s, P s.
Proof.
  intros Stop Step s. remember (String.length s) as n eqn:L. revert s L.
  induction n as [n IH] using lt_wf_ind. intros s ->.
  destruct (white_head s) as [r|] eqn:W.
  - apply (Step s r W).
    apply (IH (String.length r)); [now apply white_head_shorter|reflexivity].
  - now apply Stop.
Qed.

Lemma trimStart_blank (s : string) : blank (trimStart s) = blank s.
Proof.
  induction s as [s W|s r W IH] using white_induction;
    rewrite (trimStart_eq s), (blank_eq s), W; [|exact IH].
  now rewrite (blank_eq s), W.
Qed.

Lemma trimStart_head (s : string) : white_head (trimStart s) = None.
Proof.
  induction s as [s W|s r W IH] using white_induction;
    rewrite (trimStart_eq s), W; assumption.
Qed.

Lemma trimEnd_empty (s : string) : is_empty (trimEnd s) = blank s.
Proof.
  destruct s as [|c r]; [reflexivity|]. cbn [trimEnd].
  now destruct (blank (String c r)).
Qed.

(** [trim] leaves nothing exactly when the string is blank. *)
Lemma trim_empty_blank (s : string) : is_empty (trim s) = blank s.
Proof. unfold trim. now rewrite trimEnd_empty, trimStart_blank. Qed.

Lemma blank_app (s t : string) : blank s = true -> blank (s ++ t) = blank t.
Proof.
  induction s as [s W|s r W IH] using white_induction; intros B.
  - rewrite (blank_eq s), W in B. now destruct s.
  - rewrite (blank_eq s), W in B.
    now rewrite (blank_eq (s ++ t)), (white_head_app _ _ t W), IH.
Qed.

Lemma trimEnd_suffix (s : string) :
  exists tail, s = trimEnd s ++ tail /\ blank tail = true.
Proof.
  induction s as [|c s (tail & E & B)]; cbn [trimEnd].
  - now exists EmptyString.
  - destruct (blank (String c s)) eqn:C.
    + now exists (String c s).
    + exists tail. split; [|exact B]. cbn [append]. now rewrite <- E.
Qed.

Lemma trimStart_prefix (s : string) :
  exists head, s = head ++ trimStart s /\ blank head = true.
Proof.
  induction s as [s W|s r W (head & E & B)] using white_induction;
    rewrite (trimStart_eq s), W.
  - now exists EmptyString.
  - destruct (white_head_split _ _ W) as (w & -> & Bw & _).
    exists (w ++ head). split.
    + rewrite append_assoc. now rewrite <- E.
    + now rewrite blank_app.
Qed.

(** [trim s] is [s] without a blank head and a blank tail. *)
Lemma trim_inside (s : string) :
  exists head tail,
    s = head ++ trim s ++ tail /\ blank head = true /\ blank tail = true.
Proof.
  destruct (trimStart_prefix s) as (head & E1 & B1).
  destruct (trimEnd_suffix (trimStart s)) as (tail & E2 & B2).
  exists head, tail. unfold trim. now rewrite <- E2.
Qed.

Lemma trimEnd_idempotent (s : string) : trimEnd (trimEnd s) = trimEnd s.
Proof.
  induction s as [|c s IH]; [reflexivity|]. cbn [trimEnd].
  destruct (blank (String c s)) eqn:B; [reflexivity|]. cbn [trimEnd].
  destruct (blank (String c (trimEnd s))) eqn:B'; [|now rewrite IH].
  destruct (trimEnd_suffix s) as (tail & E & Bt).
  rewrite E in B. change (String c (trimEnd s ++ tail))
    with (String c (trimEnd s) ++ tail) in B.
  rewrite (blank_app _ tail B') in B. congruence.
Qed.

Lemma trimEnd_head (s : string) :
  white_head s = None -> white_head (trimEnd s) = None.
Proof.
  intros W. destruct (white_head (trimEnd s)) as [r|] eqn:W'; [|reflexivity].
  destruct (trimEnd_suffix s) as (tail & E & _).
  apply (white_head_app _ _ tail) in W'. rewrite <- E in W'. congruence.
Qed.

(** Trimming twice is trimming once. *)
Lemma trim_idempotent (s : string) : trim (trim s) = trim s.
Proof.
  unfold trim.
  rewrite (trimStart_eq (trimEnd (trimStart s))),
    (trimEnd_head _ (trimStart_head s)).
  apply trimEnd_idempotent.
Qed.

End Trim.

(** A no-break space (U+00A0, bytes C2 A0) and a line separator (U+2028,
    bytes E2 80 A8) are white space: [trim] removes them, a string made of
    them is blank, and as a numeric literal it reads as zero. *)
Lemma trim_unicode_space :
  let nbsp := String (JsString.chr 194) (String (JsString.chr 160) EmptyString) in
  let line := JsString.three_bytes 226 128 168 in
  blank (nbsp ++ line) = true
  /\ JsString.trim (nbsp ++ "a" ++ nbsp ++ "b" ++ line) = "a" ++ nbsp ++ "b"
  /\ of_string (nbsp ++ line) = S754_zero false
  /\ of_string (nbsp ++ "12" ++ line) = of_Z 12.
Proof. repeat split. Qed.

Section DeviceId.

Import Unified.

Variable h : host.

Lemma lookup_distinct (props : list (string * value)) (k : string) (v : value) :
  distinct_keys props -> In (k, v) props -> lookup k props = Some v.
Proof.
  unfold distinct_keys.
  induction props as [|[k' v'] props IH]; simpl; intros D I; [easy|].
  inversion D as [|? ? notin D']; subst.
  destruct I as [I|I].
  - inversion I; subst. now rewrite String.eqb_refl.
  - destruct (String.eqb_spec k k') as [->|_].
    + elim notin. now apply (in_map fst) in I.
    + now apply IH.
Qed.

(** One turn of the loop: a populated property ends the scan with its
    trimmed value, any other property is passed over. *)
Lemma scan_step (u : value) (k : string) (rest : list string) :
  scan h u (k :: rest) =
  if populated h (k, get u k)
  then match get u k with
       | VStr s => Some (JsString.trim s)
       | _ => None
       end
  else scan h u rest.
Proof.
  unfold populated, is_recognized. cbn [scan fst snd].
  destruct (existsb _ recognized); [|reflexivity].
  destruct (get u k); try reflexivity.
  now rewrite trim_empty_blank.
Qed.

Lemma scan_skips (props pre : list (string * value)) (rest : list string) :
  distinct_keys props ->
  incl pre props ->
  (forall kv, In kv pre -> populated h kv = false) ->
  scan h (VObj props) (map fst pre ++ rest) = scan h (VObj props) rest.
Proof.
  intros D. induction pre as [|[k v] pre IH]; intros I N; [reflexivity|].
  cbn [map fst app]. rewrite scan_step.
  assert (G : get (VObj props) k = v).
  { cbn [get]. rewrite (lookup_distinct props k v D); [reflexivity|].
    apply I. now left. }
  rewrite G, (N (k, v)) by now left.
  apply IH.
  - intros x Hx. apply I. now right.
  - intros x Hx. apply N. now right.
Qed.

(** The scan never yields the empty string. *)
Lemma scan_nonempty (u : value) (ks : list string) (id : string) :
  scan h u ks = Some id -> id <> EmptyString.
Proof.
  induction ks as [|k ks IH]; [discriminate|].
  rewrite scan_step. destruct (populated h (k, get u k)) eqn:P; [|exact IH].
  unfold populated in P. cbn [fst snd] in P.
  destruct (get u k); try (rewrite andb_false_r in P; discriminate).
  apply andb_true_iff in P as [_ P]. apply negb_true_iff in P.
  intros [= <-]. rewrite <- trim_empty_blank in P. now apply is_empty_false in P.
Qed.

End DeviceId.

(** X19. In the first revision, when the identity mapping [user_data] holds,
    under a key that is a letter-case spelling of idfa, idfv, adid,
    advertising_id or gaid, a string that is not blank, [pickDeviceId] returns
    the trimmed value of the first such property in the enumeration order of
    the mapping; the result is not empty (and the clock is not read). *)
Theorem pickDeviceId_first_populated
  (h : host) (p : value) (props before after : list (string * value))
  (k v : string) (w : world) :
  get p "user_data" = VObj props ->
  distinct_keys props ->
  props = (before ++ (k, VStr v) :: after)%list ->
  In (toLowerCase h k) Unified.recognized ->
  blank v = false ->
  (forall kv, In kv before -> populated h kv = false) ->
  Unified.pickDeviceId h p w = (Ok (JsString.trim v), w)
  /\ JsString.trim v <> EmptyString.
Proof.
  intros U D E R B N.
  assert (T : JsString.trim v <> EmptyString).
  { apply is_empty_false. now rewrite trim_empty_blank. }
  split; [|exact T].
  unfold Unified.pickDeviceId. rewrite U. cbn [Js.or Js.truthy].
  unfold keys. cbn [own_props]. subst props. rewrite map_app.
  rewrite scan_skips; [| exact D | | exact N].
  2:{ intros x Hx. apply in_or_app. now left. }
  cbn [map fst]. rewrite scan_step.
  assert (G : get (VObj (before ++ (k, VStr v) :: after)) k = VStr v).
  { cbn [get]. rewrite (lookup_distinct _ k (VStr v) D); [reflexivity|].
    apply in_or_app. right. now left. }
  rewrite G. unfold populated, is_recognized. cbn [fst snd]. rewrite B.
  replace (existsb _ Unified.recognized) with true; [reflexivity|].
  symmetry. apply existsb_exists. exists (toLowerCase h k).
  split; [exact R | apply String.eqb_refl].
Qed.

(** Two identifiers under upper-case keys: the one met first is taken. *)
Lemma pickDeviceId_first_populated_witness :
  Unified.pickDeviceId (sample_host 0 accepted)
    (VObj [("user_data", VObj [("os", VStr "iOS"); ("IDFV", VStr " v-1 ");
                               ("idfa", VStr "a-2")])])
    start
  = (Ok "v-1", start)
  /\ "v-1" <> EmptyString.
Proof.
  apply (pickDeviceId_first_populated (sample_host 0 accepted)
           (VObj [("user_data", VObj [("os", VStr "iOS"); ("IDFV", VStr " v-1 ");
                                      ("idfa", VStr "a-2")])])
           [("os", VStr "iOS"); ("IDFV", VStr " v-1 "); ("idfa", VStr "a-2")]
           [("os", VStr "iOS")] [("idfa", VStr "a-2")] "IDFV" " v-1 " start).
  - reflexivity.
  - unfold distinct_keys. simpl.
    repeat constructor; simpl; intuition discriminate.
  - reflexivity.
  - simpl. tauto.
  - reflexivity.
  - intros kv [<-|[]]. reflexivity.
Defined.


(** ** The idempotency key *)

Section InsertId.

Import Sha256.

Lemma hex_digit_is_hex (z : Z) : 0 <= z < 16 -> is_hex_char (hex_digit z) = true.
Proof.
  intros R.
  assert (C : z = 0 \/ z = 1 \/ z = 2 \/ z = 3 \/ z = 4 \/ z = 5 \/ z = 6 \/ z = 7
              \/ z = 8 \/ z = 9 \/ z = 10 \/ z = 11 \/ z = 12 \/ z = 13
              \/ z = 14 \/ z = 15) by lia.
  repeat (destruct C as [->|C]; [reflexivity|]). now subst.
Qed.

Lemma nibble_is_hex (x i : Z) : is_hex_char (nibble x i) = true.
Proof.
  unfold nibble. apply hex_digit_is_hex.
  change 15 with (Z.ones 4). rewrite Z.land_ones by lia.
  apply Z.mod_pos_bound. lia.
Qed.

Lemma hex_word_length (x : Z) (rest : string) :
  String.length (hex_word x rest) = (8 + String.length rest)%nat.
Proof. reflexivity. Qed.

Lemma hex_word_all_hex (x : Z) (rest : string) :
  all_chars is_hex_char rest = true ->
  all_chars is_hex_char (hex_word x rest) = true.
Proof.
  intros H. unfold hex_word. cbn [all_chars].
  now rewrite !nibble_is_hex, H.
Qed.

(** A digest is written on sixty-four hexadecimal digits. *)
Lemma hex_length (h : hash) : String.length (hex h) = 64%nat.
Proof. unfold hex. now rewrite !hex_word_length. Qed.

Lemma hex_all_hex (h : hash) : all_chars is_hex_char (hex h) = true.
Proof. unfold hex. repeat apply hex_word_all_hex. reflexivity. Qed.

Lemma substring_whole (s : string) : String.substring 0 (String.length s) s = s.
Proof. induction s as [|c s IH]; simpl; [reflexivity | now rewrite IH]. Qed.

(** [slice(0, 64)] keeps the whole digest. *)
Lemma slice_digest (h : hash) : JsString.slice0 64 (hex h) = hex h.
Proof.
  unfold JsString.slice0. rewrite <- (hex_length h) at 1. apply substring_whole.
Qed.

End InsertId.

(** C2. [buildInsertId] depends on its arguments only through six values:
    the event id, the event name, the alternate event name, the normalized
    timestamp, the normalized label and the attribution link id.  Two calls
    that agree on them return the same key, and the key is always a string
    of sixty-four hexadecimal digits. *)
Theorem buildInsertId_deterministic_hex
  (p1 p2 : value) (when : number) (label : string) :
  get p1 "id" = get p2 "id" ->
  get p1 "name" = get p2 "name" ->
  get p1 "event" = get p2 "event" ->
  get_opt (get p1 "last_attributed_touch_data") "link_id"
  = get_opt (get p2 "last_attributed_touch_data") "link_id" ->
  buildInsertId p1 when label = buildInsertId p2 when label
  /\ String.length (buildInsertId p1 when label) = 64%nat
  /\ all_chars is_hex_char (buildInsertId p1 when label) = true.
Proof.
  intros Hid Hname Hevent Hlink. split; [|split].
  - unfold buildInsertId, seed. now rewrite Hid, Hname, Hevent, Hlink.
  - unfold buildInsertId, Sha256.sha256_hex. rewrite slice_digest. apply hex_length.
  - unfold buildInsertId, Sha256.sha256_hex. rewrite slice_digest. apply hex_all_hex.
Qed.

(** Two payloads that differ in their identity and attribution channel but
    agree on the six inputs get the same key. *)
Lemma buildInsertId_deterministic_hex_witness :
  let p1 := VObj [ ("id", VStr "evt-1"); ("name", VStr "INSTALL");
                   ("user_data", VObj [("idfa", VStr "ABC123")]);
                   ("last_attributed_touch_data",
                     VObj [("channel", VStr "Facebook Ads"); ("link_id", VStr "L9")]) ] in
  let p2 := VObj [ ("name", VStr "INSTALL"); ("id", VStr "evt-1");
                   ("user_data", VObj [("adid", VStr "XYZ789")]);
                   ("last_attributed_touch_data",
                     VObj [("link_id", VStr "L9"); ("channel", VStr "Email")]) ] in
  let when := of_Z 1700000000000 in
  buildInsertId p1 when "Branch Attributed Install"
  = buildInsertId p2 when "Branch Attributed Install"
  /\ String.length (buildInsertId p1 when "Branch Attributed Install") = 64%nat
  /\ all_chars is_hex_char (buildInsertId p1 when "Branch Attributed Install") = true.
Proof.
  intros p1 p2 when.
  apply (buildInsertId_deterministic_hex p1 p2 when "Branch Attributed Install");
    reflexivity.
Defined.

(** ** Timestamp coercion *)

Section Millis.

Lemma compare_swap (a b : number) :
  SFcompare b a = option_map CompOpp (SFcompare a b).
Proof.
  destruct a as [sa|sa| |sa ma ea], b as [sb|sb| |sb mb eb]; simpl;
    try reflexivity;
    try (destruct sa; reflexivity); try (destruct sb; reflexivity);
    try (destruct sa, sb; reflexivity).
  destruct sa, sb; simpl; try reflexivity;
    rewrite (Z.compare_antisym ea eb); destruct (ea ?= eb); simpl;
    try reflexivity; f_equal; rewrite ?CompOpp_involutive;
    first [ apply (Pos.compare_cont_antisym mb ma Eq)
          | symmetry; apply (Pos.compare_cont_antisym ma mb Eq) ].
Qed.

(** A number that is at most [b] is not greater than [b]. *)
Lemma le_not_gt (a b : number) : le a b = true -> gt a b = false.
Proof.
  unfold le, gt, SFleb, SFltb. rewrite (compare_swap a b).
  destruct (SFcompare a b) as [[]|]; simpl; congruence.
Qed.

Lemma toMillis_number (h : host) (n : number) (w : world) :
  toMillis h (TsValue (VNum n)) w = (Ok (to_ms n), w).
Proof. reflexivity. Qed.

Lemma toMillis_string (h : host) (s : string) (w : world) :
  toMillis h (TsValue (VStr s)) w =
  if isNaN (of_string s)
  then if JsNumber.truthy (Date_parse h s) then (Ok (Date_parse h s), w)
       else Date_now h w
  else (Ok (to_ms (of_string s)), w).
Proof.
  cbn [toMillis]. unfold bind, lift, to_number, to_string, ret.
  destruct (isNaN (of_string s)); cbn [negb]; [|reflexivity].
  now destruct (JsNumber.truthy (Date_parse h s)).
Qed.

(** [toMillis] only reads the clock: it sends nothing. *)
Lemma toMillis_sends_nothing (h : host) (ts : timestamp) (w : world) :
  sent (snd (toMillis h ts w)) = sent w.
Proof.
  destruct ts as [v|t]; cbn [toMillis].
  - destruct v; try reflexivity; unfold bind, lift;
      (destruct (to_number _) as [x|e1]; [|reflexivity]);
      (destruct (negb (isNaN x)); [reflexivity|]);
      (destruct (to_string _) as [txt|e2]; [|reflexivity]);
      now destruct (JsNumber.truthy (Date_parse h txt)).
  - now destruct (JsNumber.truthy t).
Qed.

End Millis.

(** C5, for the inputs of the declared type.  [toMillis] returns a number,
    without raising, on every input of its declared type (a number, a string,
    a [Date], [null], [undefined]).  A number at most 1e12 is multiplied by
    1000, a number above 1e12 is returned as it is.  A string that reads as a
    number is treated as that number; otherwise it is read as a date-time
    string, whose time value is returned when it is neither zero nor [NaN].
    An absent input ([undefined], [null]) and a string that reads neither as
    a number nor as a date yield the current reading of the clock.  Hence
    1_700_000_000 and 1_700_000_000_000 both give 1_700_000_000_000. *)
Theorem toMillis_coercion (h : host) (w : world) :
  (forall ts, declared_timestamp ts = true ->
     exists n w', toMillis h ts w = (Ok n, w'))
  /\ (forall n, le n seconds_limit = true ->
        toMillis h (TsValue (VNum n)) w = (Ok (mul n thousand), w))
  /\ (forall n, gt n seconds_limit = true ->
        toMillis h (TsValue (VNum n)) w = (Ok n, w))
  /\ (forall s, isNaN (of_string s) = false ->
        toMillis h (TsValue (VStr s)) w
        = toMillis h (TsValue (VNum (of_string s))) w)
  /\ (forall s, isNaN (of_string s) = true ->
        JsNumber.truthy (Date_parse h s) = true ->
        toMillis h (TsValue (VStr s)) w = (Ok (Date_parse h s), w))
  /\ toMillis h (TsValue VUndefined) w = Date_now h w
  /\ toMillis h (TsValue VNull) w = Date_now h w
  /\ (forall s, isNaN (of_string s) = true ->
        isNaN (Date_parse h s) = true ->
        toMillis h (TsValue (VStr s)) w = Date_now h w)
  /\ toMillis h (TsValue (VNum (of_Z 1700000000))) w
     = (Ok (of_Z 1700000000000), w)
  /\ toMillis h (TsValue (VNum (of_Z 1700000000000))) w
     = (Ok (of_Z 1700000000000), w).
Proof.
  repeat match goal with |- _ /\ _ => split end.
  - intros [v|t] D.
    + destruct v; try discriminate D.
      * eexists _, _. reflexivity.
      * eexists _, _. reflexivity.
      * eexists _, _. apply toMillis_number.
      * rewrite toMillis_string.
        destruct (isNaN _); [destruct (JsNumber.truthy _)|];
          eexists _, _; reflexivity.
    + cbn [toMillis]. destruct (JsNumber.truthy t); eexists _, _; reflexivity.
  - intros n L. rewrite toMillis_number. unfold to_ms.
    now rewrite (le_not_gt _ _ L).
  - intros n G. rewrite toMillis_number. unfold to_ms. now rewrite G.
  - intros s N. rewrite toMillis_string, toMillis_number. now rewrite N.
  - intros s N T. rewrite toMillis_string. now rewrite N, T.
  - reflexivity.
  - reflexivity.
  - intros s N D. rewrite toMillis_string. rewrite N.
    destruct (Date_parse h s); try discriminate D. reflexivity.
  - reflexivity.
  - reflexivity.
Qed.

(** Seconds given as text are scaled, an ISO date is read as a date, and a
    text that is neither falls back on the clock. *)
Lemma toMillis_coercion_witness :
  let h := sample_host 1700000001234 accepted in
  (exists n w', toMillis h (TsDate (of_Z 86400000)) start = (Ok n, w'))
  /\ toMillis h (TsValue (VNum (of_Z 12))) start = (Ok (of_Z 12000), start)
  /\ toMillis h (TsValue (VNum (of_Z 1700000000001))) start
     = (Ok (of_Z 1700000000001), start)
  /\ toMillis h (TsValue (VStr "1700000000")) start
     = (Ok (of_Z 1700000000000), start)
  /\ toMillis h (TsValue (VStr "2023-11-14T22:13:20.000Z")) start
     = (Ok (of_Z 1700000000000), start)
  /\ toMillis h (TsValue (VStr "soon")) start
     = (Ok (of_Z 1700000001234), {| ticks := 1; sent := [] |}).
Proof.
  intros h.
  destruct (toMillis_coercion h start)
    as (Total & Sec & Ms & Num & Date & _ & _ & Unparsed & _ & _).
  repeat match goal with |- _ /\ _ => split end.
  - apply Total. reflexivity.
  - apply (Sec (of_Z 12)). reflexivity.
  - apply (Ms (of_Z 1700000000001)). reflexivity.
  - rewrite (Num "1700000000") by reflexivity. reflexivity.
  - apply (Date "2023-11-14T22:13:20.000Z"); reflexivity.
  - apply (Unparsed "soon"); reflexivity.
Defined.

(** The coercion is not total on what a request body can hold, and a date
    string is not always read as its date: a JSON object with an own
    [toString] property has no primitive value, so that [Number(ts)] raises;
    and the date string of the epoch, whose time value is zero, gives the
    reading of the clock instead. *)
Lemma toMillis_coercion_counterexample :
  let h := sample_host 1700000001234 accepted in
  toMillis h (TsValue (VObj [("toString", VNum (of_Z 1))])) start
  = (Throw NoPrimitiveValue, start)
  /\ ~ (exists n w', toMillis h (TsValue (VObj [("toString", VNum (of_Z 1))])) start
                     = (Ok n, w'))
  /\ Date_parse h "1970-01-01T00:00:00.000Z" = of_Z 0
  /\ toMillis h (TsValue (VStr "1970-01-01T00:00:00.000Z")) start
     = (Ok (of_Z 1700000001234), {| ticks := 1; sent := [] |}).
Proof.
  intros h. split; [reflexivity|]. split; [|split; reflexivity].
  intros (n & w' & E). discriminate E.
Qed.

(** A date string that denotes the epoch itself parses to zero, which
    [d.getTime() || Date.now()] replaces by the clock. *)
Lemma toMillis_epoch_string (h : host) (s : string) (w : world) (sign : bool) :
  isNaN (of_string s) = true ->
  Date_parse h s = S754_zero sign ->
  toMillis h (TsValue (VStr s)) w = Date_now h w.
Proof. intros N D. rewrite toMillis_string. now rewrite N, D. Qed.

(** Outside the declared type: an object with an own [toString] property has
    no primitive value, and [Number(ts)] raises. *)
Lemma toMillis_exotic_object (h : host) (x : value) (w : world) :
  toMillis h (TsValue (VObj [("toString", x)])) w = (Throw NoPrimitiveValue, w).
Proof. reflexivity. Qed.

(** ** The data wrapper *)

Section Spread.

Lemma lookup_set_same (k : string) (v : value) (props : list (string * value)) :
  lookup k (set k v props) = Some v.
Proof.
  induction props as [|[k' v'] props IH]; cbn [set lookup].
  - now rewrite String.eqb_refl.
  - destruct (String.eqb_spec k k') as [->|ne]; cbn [lookup].
    + now rewrite String.eqb_refl.
    + destruct (String.eqb_spec k k'); [contradiction | exact IH].
Qed.

Lemma lookup_set_other (k k' : string) (v : value) (props : list (string * value)) :
  k <> k' -> lookup k (set k' v props) = lookup k props.
Proof.
  intros ne. induction props as [|[k1 v1] props IH]; cbn [set lookup].
  - now destruct (String.eqb_spec k k').
  - destruct (String.eqb_spec k' k1) as [->|ne1]; cbn [lookup].
    + now destruct (String.eqb_spec k k1).
    + now rewrite IH.
Qed.

Lemma lookup_none_notin (k : string) (props : list (string * value)) :
  ~ In k (map fst props) -> lookup k props = None.
Proof.
  induction props as [|[k' v'] props IH]; cbn [lookup map fst In]; intros N.
  - reflexivity.
  - destruct (String.eqb_spec k k') as [->|_]; [elim N; now left|].
    apply IH. intros I. apply N. now right.
Qed.

(** Copying properties that do not include [k] leaves [k] as it was. *)
Lemma lookup_copy_absent (k : string) (src dst : list (string * value)) :
  lookup k src = None -> lookup k (copy_props src dst) = lookup k dst.
Proof.
  unfold copy_props. revert dst.
  induction src as [|[k1 v1] src IH]; intros dst A; cbn [fold_left fst snd].
  - reflexivity.
  - cbn [lookup] in A. destruct (String.eqb_spec k k1) as [->|ne]; [discriminate|].
    rewrite IH by exact A. now apply lookup_set_other.
Qed.

(** Copying properties with distinct keys that include [k] defines [k]. *)
Lemma lookup_copy_present (k : string) (v : value) (src dst : list (string * value)) :
  distinct_keys src -> lookup k src = Some v ->
  lookup k (copy_props src dst) = Some v.
Proof.
  unfold copy_props, distinct_keys. revert dst.
  induction src as [|[k1 v1] src IH]; intros dst D P; cbn [fold_left fst snd].
  - discriminate.
  - inversion D as [|? ? notin D']; subst. cbn [lookup] in P.
    destruct (String.eqb_spec k k1) as [->|ne].
    + inversion P; subst.
      fold (copy_props src (set k1 v dst)).
      rewrite lookup_copy_absent by now apply lookup_none_notin.
      apply lookup_set_same.
    + now apply IH.
Qed.

(** A shallow copy of an object with distinct keys reads like the object. *)
Lemma lookup_copy_self (k : string) (props : list (string * value)) :
  distinct_keys props -> lookup k (copy_props props []) = lookup k props.
Proof.
  intros D. destruct (lookup k props) as [v|] eqn:L.
  - now apply lookup_copy_present.
  - now rewrite lookup_copy_absent.
Qed.

(** The merge: a key of the inner mapping hides the same key of the outer. *)
Lemma get_spread_objects (outer inner : list (string * value)) (k : string) :
  distinct_keys outer -> distinct_keys inner ->
  get (spread (VObj outer) (VObj inner)) k = merged outer inner k.
Proof.
  intros Do Di. unfold spread, merged. cbn [own_props get].
  destruct (lookup k inner) as [v|] eqn:L.
  - now rewrite (lookup_copy_present k v).
  - rewrite lookup_copy_absent by exact L. now rewrite lookup_copy_self.
Qed.

(** The decimal text of a natural number starts with a digit. *)
Lemma key_of_index_head (i : nat) :
  exists c r, key_of_index i = String c r /\ JsString.is_digit c = true.
Proof.
  unfold key_of_index, JsString.of_Z.
  destruct (Z.of_nat i) as [|q|q] eqn:E; [| |lia].
  - now exists "0"%char, EmptyString.
  - cbn [Z.to_int NilZero.string_of_int].
    destruct (Pos.to_uint q) eqn:U; cbn;
      [ now exists "0"%char, EmptyString | eexists _, _; split; [reflexivity|reflexivity] .. ].
Qed.

Lemma lookup_indexed_field (k : string) (items : list value) :
  In k payload_fields -> lookup k (indexed items) = None.
Proof.
  intros F. apply lookup_none_notin. unfold indexed.
  intros I. apply in_map_iff in I as ([k' v] & E & I). cbn [fst] in E. subst k'.
  apply in_combine_l in I. apply in_map_iff in I as (i & E & _).
  destruct (key_of_index_head i) as (c & r & H & Dg). subst k.
  cbn [payload_fields In] in F. rewrite H in F.
  repeat (destruct F as [F|F];
          [inversion F; subst; discriminate Dg|]).
  exact F.
Qed.

End Spread.

Section Wrapper.

(** What the handler does depends on [p] through the seven properties it
    reads, in either revision. *)
Lemma Unified_translate_ext (e : env) (h : host) (p p' : value) (w : world) :
  (forall k, In k payload_fields -> get p k = get p' k) ->
  Unified.translate e h p w = Unified.translate e h p' w.
Proof.
  intros H.
  assert (H1 := H "user_data"). assert (H2 := H "last_attributed_touch_data").
  assert (H3 := H "timestamp_millis"). assert (H4 := H "timestamp").
  assert (H5 := H "name"). assert (H6 := H "event"). assert (H7 := H "id").
  cbn [payload_fields In] in *.
  unfold Unified.translate, Unified.pickDeviceId, normalized, normalizeEventType,
    raw_event, buildInsertId, seed.
  rewrite H1, H2, H3, H4, H5, H6, H7 by tauto. reflexivity.
Qed.

Lemma TwoCall_translate_ext (e : env) (h : host) (p p' : value) (w : world) :
  (forall k, In k payload_fields -> get p k = get p' k) ->
  TwoCall.translate e h p w = TwoCall.translate e h p' w.
Proof.
  intros H.
  assert (H1 := H "user_data"). assert (H2 := H "last_attributed_touch_data").
  assert (H3 := H "timestamp_millis"). assert (H4 := H "timestamp").
  assert (H5 := H "name"). assert (H6 := H "event"). assert (H7 := H "id").
  cbn [payload_fields In] in *.
  unfold TwoCall.translate, TwoCall.pickDeviceId, normalized, normalizeEventType,
    raw_event, buildInsertId, seed.
  rewrite H1, H2, H3, H4, H5, H6, H7 by tauto. reflexivity.
Qed.

(** A payload wrapped under [data]: the properties of the inner mapping come
    first, those of the outer mapping fill in. *)
Lemma unwrap_wrapped (outer inner : list (string * value)) (k : string) :
  distinct_keys outer -> distinct_keys inner ->
  lookup "data" outer = Some (VObj inner) ->
  get (unwrap (VObj outer)) k = merged outer inner k.
Proof.
  intros Do Di L. unfold unwrap. cbn [get_opt get]. rewrite L. cbn [typeof String.eqb].
  replace (String.eqb "object" "object") with true by reflexivity.
  now apply get_spread_objects.
Qed.

(** Only an object has a [data] property. *)
Lemma get_data_object (payload : value) :
  get payload "data" <> VUndefined -> exists outer, payload = VObj outer.
Proof.
  destruct payload as [| | | |s|its|outer]; cbn [get]; try congruence.
  - change (String.eqb "data" "length") with false.
    change (index_of_key "data") with (@None nat). cbn. congruence.
  - change (String.eqb "data" "length") with false.
    change (index_of_key "data") with (@None nat). cbn. congruence.
  - intros _. now exists outer.
Qed.

(** A payload whose [data] is not a mapping: the handler reads the same
    properties after [unwrap] as before. *)
Lemma unwrap_not_wrapped (payload : value) (k : string) :
  well_formed payload ->
  (forall inner, get payload "data" <> VObj inner) ->
  In k payload_fields ->
  get (unwrap payload) k = get payload k.
Proof.
  intros W N F. unfold unwrap.
  assert (G : get_opt payload "data" = get payload "data") by now destruct payload.
  rewrite G. destruct (get payload "data") as [| |b|n|s|items|inner] eqn:D;
    try reflexivity.
  - (* null *)
    destruct (get_data_object payload) as [outer ->]; [congruence|].
    change (typeof VNull) with "object". cbn [String.eqb Ascii.eqb Bool.eqb].
    unfold spread. cbn [own_props copy_props fold_left get].
    fold (copy_props outer []). now rewrite lookup_copy_self.
  - (* an array *)
    destruct (get_data_object payload) as [outer ->]; [congruence|].
    change (typeof (VArr items)) with "object". cbn [String.eqb Ascii.eqb Bool.eqb].
    unfold spread. cbn [own_props get].
    rewrite lookup_copy_absent by now apply lookup_indexed_field.
    now rewrite lookup_copy_self.
  - now elim (N inner).
Qed.

End Wrapper.

(** C6. When the body holds a mapping under [data], the handler works on the
    merge of the body and that mapping, in which a key of the inner mapping
    hides the same key of the body: every extraction reads the merged
    properties, so the invocation proceeds as on any flat payload with those
    properties.  When [data] is absent or is not a mapping, the invocation
    proceeds on the body as it is. *)
Theorem data_wrapper_flattened (e : env) (h : host) (req : request) :
  well_formed (req_body req) ->
  (forall outer inner,
     req_body req = VObj outer ->
     lookup "data" outer = Some (VObj inner) ->
     distinct_keys inner ->
     (forall k, get (unwrap (VObj outer)) k = merged outer inner k)
     /\ (forall flat w,
           (forall k, In k payload_fields -> get flat k = merged outer inner k) ->
           Unified.process e h req w = Unified.translate e h flat w))
  /\ ((forall inner, get (req_body req) "data" <> VObj inner) ->
      forall w,
        Unified.process e h req w
        = Unified.translate e h (Js.or (req_body req) (VObj [])) w).
Proof.
  intros W. split.
  - intros outer inner B L Di. rewrite B in W. cbn [well_formed] in W.
    split.
    + intros k. now apply unwrap_wrapped.
    + intros flat w F. unfold Unified.process. rewrite B. cbn [Js.or Js.truthy].
      apply Unified_translate_ext. intros k I.
      rewrite (F k I). now apply unwrap_wrapped.
  - intros N w. unfold Unified.process.
    apply Unified_translate_ext. intros k I.
    apply unwrap_not_wrapped; [| |exact I].
    + unfold Js.or. destruct (Js.truthy (req_body req)); [exact W|].
      unfold well_formed, distinct_keys. constructor.
    + intros inner. unfold Js.or.
      destruct (Js.truthy (req_body req)); [apply N | discriminate].
Qed.

(** A wrapped open event whose envelope carries another name and the
    timestamp: the handler answers as on the flat payload, where the inner
    name has won. *)
Lemma data_wrapper_flattened_witness :
  let inner := [ ("name", VStr "OPEN"); ("user_data", VObj [("idfa", VStr "D1")]) ] in
  let outer := [ ("name", VStr "INSTALL"); ("timestamp", VNum (of_Z 1700000000));
                 ("data", VObj inner) ] in
  let flat := VObj [ ("timestamp", VNum (of_Z 1700000000)); ("name", VStr "OPEN");
                     ("user_data", VObj [("idfa", VStr "D1")]) ] in
  let h := sample_host 1700000001234 accepted in
  get (unwrap (VObj outer)) "name" = VStr "OPEN"
  /\ get (unwrap (VObj outer)) "timestamp" = VNum (of_Z 1700000000)
  /\ Unified.process sample_env h (webhook (VObj outer)) start
     = Unified.translate sample_env h flat start.
Proof.
  intros inner outer flat h.
  assert (Do : well_formed (req_body (webhook (VObj outer)))).
  { unfold well_formed, distinct_keys. simpl.
    repeat constructor; simpl; intuition discriminate. }
  assert (Di : distinct_keys inner).
  { unfold distinct_keys. simpl. repeat constructor; simpl; intuition discriminate. }
  destruct (data_wrapper_flattened sample_env h (webhook (VObj outer)) Do)
    as [Wrapped _].
  destruct (Wrapped outer inner eq_refl eq_refl Di) as [Reads Same].
  split; [|split].
  - apply (Reads "name").
  - apply (Reads "timestamp").
  - apply Same. intros k F. cbn [payload_fields In] in F.
    repeat (destruct F as [<-|F]; [reflexivity|]). destruct F.
Defined.

(** ** The outbound records *)

Section Wire.

Lemma stringify_none (v : value) : stringify v = None <-> defined v = false.
Proof. destruct v; cbn; split; congruence. Qed.

(** The serializer writes the members of an object between braces. *)
Lemma stringify_object (props : list (string * value)) :
  stringify (VObj props) = Some ("{" ++ JsString.join "," (members props) ++ "}").
Proof.
  cbn [stringify].
  match goal with
  | |- context [JsString.join _ (?f props)] =>
      assert (E : forall l, f l = members l)
  end.
  { induction l as [|[k x] l IH]; [reflexivity|].
    unfold members. cbn [flat_map fst snd]. fold (members l). rewrite <- IH.
    now destruct (stringify x). }
  now rewrite E.
Qed.

(** A property whose value is [undefined] is not among the members. *)
Lemma members_sent_props (props : list (string * value)) :
  members (sent_props props) = members props.
Proof.
  unfold members, sent_props.
  induction props as [|[k x] props IH]; [reflexivity|].
  cbn [filter flat_map fst snd]. destruct (defined x) eqn:Dx.
  - cbn [flat_map fst snd]. now rewrite IH.
  - apply stringify_none in Dx. now rewrite Dx.
Qed.

(** The text on the wire is the text of the properties that are sent. *)
Lemma stringify_sent_props (props : list (string * value)) :
  stringify (VObj props) = stringify (VObj (sent_props props)).
Proof. now rewrite !stringify_object, members_sent_props. Qed.

Lemma sent_props_keys (k : string) (props : list (string * value)) :
  In k (map fst (sent_props props)) -> In k (map fst props).
Proof.
  intros I. apply in_map_iff in I as (kv & E & I).
  apply filter_In in I as [I _]. apply in_map_iff. now exists kv.
Qed.

Lemma lookup_sent_props (k : string) (props : list (string * value)) :
  distinct_keys props ->
  lookup k (sent_props props) =
  match lookup k props with
  | Some v => if defined v then Some v else None
  | None => None
  end.
Proof.
  unfold distinct_keys.
  induction props as [|[k' x] props IH]; intros D; [reflexivity|].
  inversion D as [|? ? notin D']; subst.
  cbn [sent_props filter snd lookup]. fold (sent_props props).
  destruct (String.eqb_spec k k') as [->|ne].
  - destruct (defined x); cbn [lookup]; [now rewrite String.eqb_refl|].
    apply lookup_none_notin. intros I. apply notin. now apply sent_props_keys.
  - destruct (defined x); cbn [lookup].
    + destruct (String.eqb_spec k k'); [contradiction | now apply IH].
    + now apply IH.
Qed.

Lemma or_null_defined (x : value) : defined (or_null x) = true.
Proof. now destruct x. Qed.

Lemma or_null_absent (x : value) : x = VUndefined -> or_null x = VNull.
Proof. now intros ->. Qed.

End Wire.

Ltac distinct_literal :=
  unfold distinct_keys; cbn [map fst];
  repeat (constructor; [cbn [In]; intuition discriminate|]); constructor.

(** C7. In the identify record, the first-touch group ([$setOnce]) carries an
    install timestamp exactly when the normalized kind is install, and the
    last-touch group ([$set]) always carries a last-touch timestamp equal to
    the normalized timestamp; both groups carry the same channel, campaign,
    partner, ad-set and creative. *)
Theorem identification_touch_groups
  (deviceId latd : value) (type : kind) (when : number) :
  let groups := get (identification deviceId latd type when) "user_properties" in
  let first := get groups "$setOnce" in
  let last := get groups "$set" in
  ((exists ts, on_wire first "acq_install_ts" = Some ts) <-> type = Install)
  /\ (type = Install -> on_wire first "acq_install_ts" = Some (VNum when))
  /\ on_wire last "acq_last_touch_ts" = Some (VNum when)
  /\ on_wire last "acq_install_ts" = None
  /\ (forall name src, In (name, src) touch_fields ->
        on_wire first ("acq_" ++ name ++ "_first") = Some (or_null (get latd src))
        /\ on_wire last ("acq_" ++ name ++ "_last") = Some (or_null (get latd src))).
Proof.
  intros groups first last.
  assert (Df : distinct_keys (own_props first)) by distinct_literal.
  assert (Dl : distinct_keys (own_props last)) by distinct_literal.
  unfold on_wire. split; [|split; [|split; [|split]]].
  - rewrite (lookup_sent_props _ _ Df). cbn.
    destruct type; cbn; split; try congruence; try (now intros [ts [=]]).
    intros _. now eexists.
  - intros ->. now rewrite (lookup_sent_props _ _ Df).
  - now rewrite (lookup_sent_props _ _ Dl).
  - now rewrite (lookup_sent_props _ _ Dl).
  - intros name src I. rewrite (lookup_sent_props _ _ Df), (lookup_sent_props _ _ Dl).
    cbn [touch_fields In] in I.
    repeat (destruct I as [[= <- <-]|I];
            [cbn; now rewrite or_null_defined|]).
    destruct I.
Qed.

(** Scenario A of the specification: an install attributed to "Facebook Ads". *)
Lemma identification_touch_groups_witness :
  let latd := VObj [("channel", VStr "Facebook Ads")] in
  let when := of_Z 1700000000000 in
  let groups := get (identification (VStr "ABC123") latd Install when)
                    "user_properties" in
  on_wire (get groups "$setOnce") "acq_install_ts" = Some (VNum when)
  /\ on_wire (get groups "$set") "acq_last_touch_ts" = Some (VNum when)
  /\ on_wire (get groups "$set") "acq_install_ts" = None
  /\ on_wire (get groups "$setOnce") "acq_channel_first" = Some (VStr "Facebook Ads")
  /\ on_wire (get groups "$set") "acq_channel_last" = Some (VStr "Facebook Ads").
Proof.
  intros latd when groups.
  destruct (identification_touch_groups (VStr "ABC123") latd Install when)
    as (_ & Ts & Last & Only & Same).
  destruct (Same "channel" "channel") as [F L]; [now left|].
  repeat match goal with |- _ /\ _ => split end.
  - apply Ts. reflexivity.
  - exact Last.
  - exact Only.
  - exact F.
  - exact L.
Defined.

Section Metadata.

Import Unified.

Variable h : host.

(** [string_field] keeps a property exactly when it is a string. *)
Lemma string_field_value (u : value) (k : string) (v : value) :
  string_field u k = Ok v ->
  v = match get u k with VStr s => VStr s | _ => VUndefined end.
Proof.
  unfold string_field. destruct u as [| | | | |items|props]; cbn [has_property];
    try discriminate; intros [= <-].
  - (* an array *)
    cbn [get]. destruct (String.eqb k "length"); [reflexivity|]. cbn [orb].
    destruct (index_of_key k) as [i|]; [|reflexivity].
    destruct (Nat.ltb_spec i (List.length items)) as [lt|ge].
    + now destruct (nth i items VUndefined).
    + rewrite nth_overflow by exact ge. reflexivity.
  - (* an object *)
    unfold has_key. cbn [get]. destruct (lookup k props) as [x|]; [|reflexivity].
    now destruct x.
Qed.

(** The event record, once it is built. *)
Lemma branchEvent_built
  (deviceId latd u : value) (type : kind) (label : string) (when : number)
  (insertId : string) (event : value) :
  branchEvent h deviceId latd u type label when insertId = Ok event ->
  exists os,
    os_text u = Ok os /\
    event = VObj [ ("device_id", deviceId);
                   ("user_id", VNull);
                   ("event_type", VStr label);
                   ("time", VNum when);
                   ("insert_id", VStr insertId);
                   ("event_properties", event_properties latd type);
                   ("app_version",
                     match get u "app_version" with VStr s => VStr s | _ => VUndefined end);
                   ("platform", platform_of h os);
                   ("os_name",
                     match get u "os" with VStr s => VStr s | _ => VUndefined end);
                   ("os_version",
                     match get u "os_version" with VStr s => VStr s | _ => VUndefined end);
                   ("device_model",
                     match get u "device_model" with VStr s => VStr s | _ => VUndefined end) ].
Proof.
  unfold branchEvent.
  destruct (string_field u "app_version") as [a|] eqn:A; [|discriminate].
  destruct (os_text u) as [os|] eqn:O; [|discriminate].
  destruct (string_field u "os") as [b|] eqn:B; [|discriminate].
  destruct (string_field u "os_version") as [c|] eqn:C; [|discriminate].
  destruct (string_field u "device_model") as [d|] eqn:D; [|discriminate].
  intros [= <-]. exists os. split; [reflexivity|].
  apply string_field_value in A, B, C, D. now subst.
Qed.

End Metadata.

(** X17. In the attribution event of the first revision, channel, campaign,
    partner, ad-set, creative, feature and link id are sent as [null] when
    the source does not have them, whereas app version, OS name, OS version
    and device model are sent exactly when the source holds a string for
    them, and are left out of the record otherwise. *)
Theorem event_nulls_and_omissions
  (h : host) (deviceId latd u : value) (type : kind) (label : string)
  (when : number) (insertId : string) (event : value) :
  Unified.branchEvent h deviceId latd u type label when insertId = Ok event ->
  (forall field src, In (field, src) attribution_fields ->
     on_wire (get event "event_properties") field = Some (or_null (get latd src))
     /\ (get latd src = VUndefined ->
         on_wire (get event "event_properties") field = Some VNull))
  /\ (forall field src, In (field, src) metadata_fields ->
        on_wire event field =
        match get u src with
        | VStr s => Some (VStr s)
        | _ => None
        end).
Proof.
  intros B. apply branchEvent_built in B as (os & _ & ->). split.
  - intros field src I.
    assert (Dp : distinct_keys (own_props (event_properties latd type)))
      by distinct_literal.
    assert (E : on_wire (event_properties latd type) field
                = Some (or_null (get latd src))).
    { unfold on_wire. rewrite (lookup_sent_props _ _ Dp).
      cbn [attribution_fields In] in I.
      repeat (destruct I as [[= <- <-]|I];
              [cbn; now rewrite or_null_defined|]).
      destruct I. }
    split; [exact E|]. intros A. rewrite <- (or_null_absent _ A). exact E.
  - intros field src I. unfold on_wire. cbn [own_props].
    rewrite lookup_sent_props by distinct_literal.
    cbn [metadata_fields In] in I.
    repeat (destruct I as [[= <- <-]|I];
            [cbn; now destruct (get u _)|]).
    destruct I.
Qed.

(** An Android payload with an app version, a numeric OS version and no
    device model, attributed to a campaign but to no channel. *)
Lemma event_nulls_and_omissions_witness :
  let latd := VObj [("campaign", VStr "spring")] in
  let u := VObj [ ("adid", VStr "G-1"); ("app_version", VStr "2.4.1");
                  ("os", VStr "Android"); ("os_version", VNum (of_Z 14)) ] in
  exists event,
    Unified.branchEvent (sample_host 0 accepted) (VStr "G-1") latd u Open
      "Branch Open" (of_Z 1700000000000) "k"
    = Ok event
    /\ on_wire (get event "event_properties") "branch_channel" = Some VNull
    /\ on_wire (get event "event_properties") "branch_campaign" = Some (VStr "spring")
    /\ on_wire event "app_version" = Some (VStr "2.4.1")
    /\ on_wire event "os_name" = Some (VStr "Android")
    /\ on_wire event "os_version" = None
    /\ on_wire event "device_model" = None.
Proof.
  intros latd u. eexists. split; [reflexivity|].
  match goal with
  | |- on_wire (get ?ev _) _ = _ /\ _ =>
      destruct (event_nulls_and_omissions (sample_host 0 accepted) (VStr "G-1")
                  latd u Open "Branch Open" (of_Z 1700000000000) "k" ev eq_refl)
        as [Attr Meta]
  end.
  repeat match goal with |- _ /\ _ => split end.
  - apply (Attr "branch_channel" "channel"); [now left | reflexivity].
  - apply (Attr "branch_campaign" "campaign"). cbn; tauto.
  - apply (Meta "app_version" "app_version"). cbn; tauto.
  - apply (Meta "os_name" "os"). cbn; tauto.
  - apply (Meta "os_version" "os_version"). cbn; tauto.
  - apply (Meta "device_model" "device_model"). cbn; tauto.
Defined.

(** C8, on the second revision.  Its event record takes the device metadata
    by truthiness ([u.k || undefined]) where the first revision asks for a
    string: an app version that is the number 7 is sent, and an OS version
    that is the empty string is left out. *)
Theorem TwoCall_metadata_by_truthiness :
  let u := VObj [("app_version", VNum (of_Z 7)); ("os_version", VStr EmptyString)] in
  exists body event,
    TwoCall.eventBody sample_env (sample_host 0 accepted) (VStr "d") (VObj []) u
      Open "Branch Open" (of_Z 1700000000000) "k" = Ok body
    /\ get body "events" = VArr [event]
    /\ on_wire event "app_version" = Some (VNum (of_Z 7))
    /\ on_wire event "os_version" = None.
Proof. intros u. eexists _, _. repeat split. Qed.

(** ** Delivery *)

Section Delivery.

Import Unified.

Lemma pickDeviceId_sends_nothing (h : host) (p : value) (w : world) :
  sent (snd (pickDeviceId h p w)) = sent w.
Proof. unfold pickDeviceId. now destruct (scan _ _). Qed.

(** The device id of the first revision: always a result, never empty. *)
Lemma pickDeviceId_never_empty (h : host) (p : value) (w : world) :
  exists id w', pickDeviceId h p w = (Ok id, w') /\ JsString.is_empty id = false.
Proof.
  unfold pickDeviceId. destruct (scan _ _) as [id|] eqn:S.
  - exists id, w. split; [reflexivity|]. apply is_empty_false.
    now apply scan_nonempty in S.
  - eexists _, _. split; reflexivity.
Qed.

Lemma normalized_sends_nothing (h : host) (p : value) (w : world) :
  sent (snd (normalized h p w)) = sent w.
Proof.
  unfold normalized, bind.
  pose proof (toMillis_sends_nothing h
                (TsValue (Js.or (get p "timestamp_millis") (get p "timestamp"))) w) as T.
  destruct (toMillis _ _ _) as [[when|err] w1]; cbn [snd] in *; [|exact T].
  unfold lift. destruct (normalizeEventType h p) as [[type label]|err]; exact T.
Qed.

(** What one run of [translate] amounts to: either nothing is sent, or the
    device id, the normalized fields and the event record are computed in
    that order and exactly one request carries the combined payload; the
    answer of the network to that request decides the response. *)
Lemma translate_run (e : env) (h : host) (p : value) (w w' : world)
  (r : result response) :
  translate e h p w = (r, w') ->
  (sent w' = sent w /\ r <> Ok {| status := 200; sent_body := done |})
  \/ exists id w1 when type label insertId w2 event,
       pickDeviceId h p w = (Ok id, w1)
       /\ normalized h p w1 = (Ok (when, type, label, insertId), w2)
       /\ branchEvent h (VStr id) (Js.or (get p "last_attributed_touch_data") (VObj []))
            (nullish (get p "user_data") (VObj [])) type label when insertId
          = Ok event
       /\ let latd := Js.or (get p "last_attributed_touch_data") (VObj []) in
          let rq := post (AMPLITUDE_ENDPOINT e ++ "/2/httpapi")
                      (combinedPayload e (identifyEvent (VStr id) latd type when) event) in
          sent w' = (sent w ++ [rq])%list
          /\ r = match network h (List.length (sent w)) rq with
                 | Throw err => Throw err
                 | Ok res =>
                     if resp_ok res then Ok {| status := 200; sent_body := done |}
                     else match resp_text res with
                          | Ok text =>
                              Ok {| status := 500;
                                    sent_body := failed "event_failed" res text |}
                          | Throw err => Throw err
                          end
                 end.
Proof.
  unfold translate, bind.
  pose proof (pickDeviceId_sends_nothing h p w) as S1.
  destruct (pickDeviceId h p w) as [[id|err] w1] eqn:P; cbn [snd] in S1;
    [|intros [= <- <-]; left; split; [exact S1 | discriminate]].
  destruct (JsString.is_empty id);
    [intros [= <- <-]; left; split; [exact S1 | discriminate]|].
  pose proof (normalized_sends_nothing h p w1) as S2.
  destruct (normalized h p w1) as [[[[[when type] label] insertId]|err] w2] eqn:N;
    cbn [snd] in S2;
    [|intros [= <- <-]; left; split; [congruence | discriminate]].
  unfold lift.
  destruct (branchEvent _ _ _ _ _ _ _) as [event|err] eqn:B;
    [|intros [= <- <-]; left; split; [congruence | discriminate]].
  unfold fetch, respond, ret. cbn [sent ticks].
  intros H. right. exists id, w1, when, type, label, insertId, w2, event.
  split; [reflexivity|]. split; [exact N|]. split; [exact B|].
  cbn zeta. rewrite <- S1, <- S2.
  destruct (network h _ _) as [res|err]; [|inversion H; subst; now split].
  destruct (resp_ok res); cbn [negb] in H; [inversion H; subst; now split|].
  destruct (resp_text res); inversion H; subst; now split.
Qed.

End Delivery.

Section Invocation.

(** The handler: the two gates, then [translate] on the unwrapped body, an
    exception turning into the [server_error] response. *)
Lemma Unified_handler_run (e : env) (h : host) (req : request) (w : world) :
  Unified.handler e h req w =
  if negb (String.eqb (method req) "POST")
  then (Ok {| status := 405; sent_body := Send "Method Not Allowed" |}, w)
  else if negb (Js.truthy (BRANCH_TOKEN e))
          || token_differs (query_token req) (BRANCH_TOKEN e)
  then (Ok {| status := 401; sent_body := Send "Unauthorized" |}, w)
  else
    match Unified.translate e h (unwrap (Js.or (req_body req) (VObj []))) w with
    | (Ok resp, w') => (Ok resp, w')
    | (Throw err, w') => (Ok {| status := 500; sent_body := ServerError err |}, w')
    end.
Proof.
  unfold Unified.handler, try_catch, Unified.process.
  destruct (negb (String.eqb (method req) "POST")); [reflexivity|].
  destruct (negb (Js.truthy (BRANCH_TOKEN e)) || _); reflexivity.
Qed.

(** The handler always answers: no exception escapes it. *)
Lemma Unified_handler_answers (e : env) (h : host) (req : request) (w : world) :
  exists resp w', Unified.handler e h req w = (Ok resp, w').
Proof.
  rewrite Unified_handler_run.
  destruct (negb _); [now eexists _, _|].
  destruct (_ || _); [now eexists _, _|].
  destruct (Unified.translate _ _ _ _) as [[resp|err] w']; now eexists _, _.
Qed.

End Invocation.

(** C9. When the delivery call of an invocation is answered with a status
    outside 200..299, the invocation answers 500, which makes the sender
    retry, and the body of that answer carries the downstream status and the
    downstream body. *)
Theorem delivery_failure_reported
  (e : env) (h : host) (req : request) (rq : http_request) (res : http_response) :
  requests (Unified.handler e h req) = [rq] ->
  network h 0 rq = Ok res ->
  resp_ok res = false ->
  exists resp,
    outcome (Unified.handler e h req) = Ok resp
    /\ status resp = 500
    /\ forall text, resp_text res = Ok text ->
         sent_body resp
         = Json (VObj [ ("error", VStr "event_failed");
                        ("status", VNum (of_Z (resp_status res)));
                        ("body", VStr text) ]).
Proof.
  unfold requests, outcome, run. rewrite Unified_handler_run.
  destruct (negb (String.eqb (method req) "POST")); [discriminate|].
  destruct (_ || _); [discriminate|].
  destruct (Unified.translate _ _ _ start) as [r w'] eqn:T.
  apply translate_run in T
    as [[S _]|(id & w1 & when & type & label & insertId & w2 & event & _ & _ & _ & S & R)].
  - intros Q. exfalso. destruct r; cbn [snd] in Q; rewrite S in Q; discriminate Q.
  - cbn zeta in S, R. cbn [sent start app List.length] in S, R.
    intros Q N B.
    assert (E : sent w' = [rq]) by (destruct r; exact Q).
    rewrite S in E. injection E as E. rewrite E in R. rewrite N, B in R.
    destruct (resp_text res) as [text|err] eqn:X; subst r; cbn [fst].
    + eexists. split; [reflexivity|]. split; [reflexivity|].
      now intros ? [= <-].
    + eexists. split; [reflexivity|]. split; [reflexivity|]. discriminate.
Qed.

(** Scenario D of the specification: the analytics API answers 503. *)
Lemma delivery_failure_reported_witness :
  let payload := VObj [ ("name", VStr "INSTALL");
                        ("user_data", VObj [("idfa", VStr "ABC123")]);
                        ("timestamp_millis", VNum (of_Z 1700000000000)) ] in
  let busy := {| resp_status := 503; resp_text := Ok "try later" |} in
  let h := sample_host 1700000001234 (Ok busy) in
  exists resp,
    outcome (Unified.handler sample_env h (webhook payload)) = Ok resp
    /\ status resp = 500
    /\ sent_body resp
       = Json (VObj [ ("error", VStr "event_failed");
                      ("status", VNum (of_Z 503));
                      ("body", VStr "try later") ]).
Proof.
  intros payload busy h.
  destruct (delivery_failure_reported sample_env h (webhook payload)
              (hd (post EmptyString VNull)
                  (requests (Unified.handler sample_env h (webhook payload))))
              busy)
    as (resp & O & St & Body).
  - vm_compute. reflexivity.
  - reflexivity.
  - reflexivity.
  - exists resp. split; [exact O|]. split; [exact St|]. now apply Body.
Defined.

(** ** No device id *)

Section Skipping.

(** In the first revision the guard [if (!deviceId)] never fires: an
    invocation answers 405, 401, 200 or 500, never 202. *)
Lemma Unified_never_skips (e : env) (h : host) (req : request) (w w' : world)
  (resp : response) :
  Unified.handler e h req w = (Ok resp, w') -> status resp <> 202.
Proof.
  rewrite Unified_handler_run.
  destruct (negb _); [intros [= <- <-]; discriminate|].
  destruct (_ || _); [intros [= <- <-]; discriminate|].
  unfold Unified.translate, bind.
  destruct (pickDeviceId_never_empty h (unwrap (Js.or (req_body req) (VObj []))) w)
    as (id & w1 & -> & ->).
  destruct (normalized _ _ _) as [[[[[when type] label] insertId]|err] w2];
    [|intros [= <- <-]; discriminate].
  unfold lift. destruct (Unified.branchEvent _ _ _ _ _ _ _);
    [|intros [= <- <-]; discriminate].
  unfold fetch. destruct (network h _ _) as [res|err];
    [|intros [= <- <-]; discriminate].
  destruct (negb (resp_ok res)); [|intros [= <- <-]; discriminate].
  destruct (resp_text res); intros [= <- <-]; discriminate.
Qed.

(** The second revision does skip when [idfa], [idfv] and [adid] are each
    absent, [null] or a blank string: it answers 202 and sends nothing. *)
Lemma TwoCall_skips (e : env) (h : host) (p : value) (w : world) :
  (forall k, In k ["idfa"; "idfv"; "adid"] ->
     match get (Js.or (get p "user_data") (VObj [])) k with
     | VUndefined | VNull => True
     | VStr s => blank s = true
     | _ => False
     end) ->
  TwoCall.translate e h p w = (Ok {| status := 202; sent_body := skipped |}, w).
Proof.
  intros H.
  assert (A : forall k, In k ["idfa"; "idfv"; "adid"] ->
              exists x, TwoCall.and_trim (get (Js.or (get p "user_data") (VObj [])) k) = Ok x
                        /\ Js.truthy x = false).
  { intros k I. specialize (H k I). unfold TwoCall.and_trim.
    destruct (get _ k) as [| | | |s| |]; try contradiction;
      try (eexists; split; reflexivity).
    cbn [Js.truthy]. destruct (JsString.is_empty s) eqn:Es; cbn [negb].
    - eexists. split; [reflexivity|]. cbn. now rewrite Es.
    - eexists. split; [reflexivity|]. cbn. now rewrite trim_empty_blank, H. }
  destruct (A "idfa") as (a & Ea & Ta); [cbn; tauto|].
  destruct (A "idfv") as (b & Eb & Tb); [cbn; tauto|].
  destruct (A "adid") as (c & Ec & Tc); [cbn; tauto|].
  unfold TwoCall.translate, TwoCall.pickDeviceId, bind, lift.
  rewrite Ea, Ta, Eb, Tb, Ec. unfold Js.or at 1. rewrite Tc. reflexivity.
Qed.

End Skipping.

(** C1, on the first revision.  A payload without any identity field gets the
    placeholder device id "fallback-" followed by the clock reading; the
    invocation is not skipped: it builds the combined payload, sends it and
    answers 200. *)
Theorem no_identity_not_skipped :
  let h := sample_host 1700000001234 accepted in
  let payload := VObj [("name", VStr "INSTALL")] in
  Unified.pickDeviceId h payload start
  = (Ok "fallback-1700000001234", {| ticks := 1; sent := [] |})
  /\ outcome (Unified.handler sample_env h (webhook payload))
     = Ok {| status := 200; sent_body := done |}
  /\ List.length (requests (Unified.handler sample_env h (webhook payload))) = 1%nat
  /\ outcome (TwoCall.handler sample_env h (webhook payload))
     = Ok {| status := 202; sent_body := skipped |}
  /\ requests (TwoCall.handler sample_env h (webhook payload)) = [].
Proof. vm_compute. repeat split. Qed.

(** ** The clock in the idempotency key *)

Section ClockInKey.

Lemma Contains_app_l (pat s t : string) : Contains pat s -> Contains pat (s ++ t).
Proof.
  intros (b & a & ->). exists b, (a ++ t).
  induction b as [|c b IH]; cbn [append].
  - induction pat as [|c pat IH]; cbn [append]; [reflexivity | now rewrite IH].
  - now rewrite IH.
Qed.

Lemma Contains_app_r (pat s t : string) : Contains pat t -> Contains pat (s ++ t).
Proof.
  intros (b & a & ->). exists (s ++ b), a.
  induction s as [|c s IH]; cbn [append]; [reflexivity | now rewrite IH].
Qed.

Lemma Contains_self (s : string) : Contains s s.
Proof.
  exists EmptyString, EmptyString. cbn [append].
  induction s as [|c s IH]; cbn [append]; [reflexivity | now rewrite <- IH].
Qed.

(** An element of a list occurs in the joined text. *)
Lemma join_Contains (sep x : string) (l : list string) :
  In x l -> Contains x (JsString.join sep l).
Proof.
  induction l as [|y l IH]; [easy|].
  intros [->|I].
  - destruct l; cbn [JsString.join]; [apply Contains_self|].
    apply Contains_app_l, Contains_self.
  - specialize (IH I). destruct l as [|z l]; [easy|].
    change (JsString.join sep (y :: z :: l))
      with (y ++ sep ++ JsString.join sep (z :: l)).
    now apply Contains_app_r, Contains_app_r.
Qed.

(** The member [when] is part of the hashed text, whatever the payload. *)
Lemma seed_has_when (p : value) (when : number) (label : string) :
  Contains (quote "when" ++ ":" ++ json_text (VNum when)) (seed p when label).
Proof.
  unfold seed, json_text at 2. rewrite stringify_object.
  apply Contains_app_r, Contains_app_l, join_Contains.
  unfold members. cbn [flat_map fst snd].
  apply in_or_app; right. apply in_or_app; right. apply in_or_app; right.
  apply in_or_app; left. now left.
Qed.

Lemma toMillis_unusable (h : host) (ts : value) (w : world) :
  unusable h ts -> toMillis h (TsValue ts) w = Date_now h w.
Proof.
  intros [->|[->|(s & -> & N & D)]]; try reflexivity.
  rewrite toMillis_string, N. now destruct (Date_parse h s).
Qed.

End ClockInKey.

(** X18. When the payload gives no usable timestamp (both fields absent, the
    one present a string that reads neither as a number nor as a date, or
    [timestamp_millis] falsy and [timestamp] such), the normalized timestamp
    is the reading of the clock, and that reading is part of the text hashed
    into the idempotency key.  There is a payload that gets two different
    keys when handled at two different instants: the key is not a function
    of the payload alone. *)
Theorem insert_id_depends_on_clock :
  (forall h p w type label,
     unusable h (Js.or (get p "timestamp_millis") (get p "timestamp")) ->
     normalizeEventType h p = Ok (type, label) ->
     let now := of_Z (clock h (ticks w)) in
     normalized h p w
     = (Ok (now, type, label, buildInsertId p now label),
        {| ticks := S (ticks w); sent := sent w |})
     /\ buildInsertId p now label
        = JsString.slice0 64 (Sha256.sha256_hex (seed p now label))
     /\ Contains (quote "when" ++ ":" ++ json_text (VNum now)) (seed p now label))
  /\ (forall p, Js.truthy (get p "timestamp_millis") = false ->
        Js.or (get p "timestamp_millis") (get p "timestamp") = get p "timestamp")
  /\ (exists p t1 t2 when1 when2 type label key1 key2 w1 w2,
        normalized (sample_host t1 accepted) p start
        = (Ok (when1, type, label, key1), w1)
        /\ normalized (sample_host t2 accepted) p start
           = (Ok (when2, type, label, key2), w2)
        /\ key1 <> key2)
  /\ ~ (exists f : value -> string,
          forall h p w when type label key w',
            normalized h p w = (Ok (when, type, label, key), w') -> key = f p).
Proof.
  assert (Two :
    exists p t1 t2 when1 when2 type label key1 key2 w1 w2,
      normalized (sample_host t1 accepted) p start
      = (Ok (when1, type, label, key1), w1)
      /\ normalized (sample_host t2 accepted) p start
         = (Ok (when2, type, label, key2), w2)
      /\ key1 <> key2).
  { exists (VObj [ ("name", VStr "INSTALL");
                   ("user_data", VObj [("idfa", VStr "ABC123")]);
                   ("timestamp_millis", VNum (of_Z 0)) ]),
           1700000000000, 1700000000001.
    eexists _, _, _, _, _, _, _, _.
    split; [vm_compute; reflexivity|]. split; [vm_compute; reflexivity|].
    discriminate. }
  split; [|split; [|split]].
  - intros h p w type label U N now.
    split; [|split].
    + unfold normalized, bind, lift. rewrite (toMillis_unusable h _ w U).
      unfold Date_now. now rewrite N.
    + reflexivity.
    + apply seed_has_when.
  - intros p F. unfold Js.or. now rewrite F.
  - exact Two.
  - intros (f & F).
    destruct Two as (p & t1 & t2 & when1 & when2 & type & label & key1 & key2
                     & w1 & w2 & N1 & N2 & D).
    apply D. rewrite (F _ _ _ _ _ _ _ _ N1). now rewrite (F _ _ _ _ _ _ _ _ N2).
Qed.

(** A payload with [timestamp_millis] zero and no [timestamp], handled one
    millisecond apart. *)
Lemma insert_id_depends_on_clock_witness :
  let p := VObj [ ("name", VStr "INSTALL");
                  ("user_data", VObj [("idfa", VStr "ABC123")]);
                  ("timestamp_millis", VNum (of_Z 0)) ] in
  let h := sample_host 1700000000000 accepted in
  normalized h p start
  = (Ok (of_Z 1700000000000, Install, "Branch Attributed Install",
         buildInsertId p (of_Z 1700000000000) "Branch Attributed Install"),
     {| ticks := 1; sent := [] |})
  /\ Js.or (get p "timestamp_millis") (get p "timestamp") = get p "timestamp".
Proof.
  intros p h.
  destruct insert_id_depends_on_clock as (Now & Zero & _ & _).
  split.
  - apply (Now h p start Install "Branch Attributed Install").
    + left. reflexivity.
    + reflexivity.
  - apply Zero. reflexivity.
Defined.

(** ** The second revision, for comparison *)

Section SecondRevision.

(** Fixed precedence and exact keys: [idfa] wins over an [idfv] met first,
    and an upper-case key is not seen. *)
Lemma TwoCall_fixed_precedence :
  let both := VObj [("user_data", VObj [("idfv", VStr "v-1"); ("idfa", VStr "a-2")])] in
  let upper := VObj [("user_data", VObj [("IDFA", VStr "a-2")])] in
  TwoCall.pickDeviceId both = Ok (VStr "a-2")
  /\ outcome (Unified.pickDeviceId (sample_host 0 accepted) both) = Ok "v-1"
  /\ TwoCall.pickDeviceId upper = Ok VUndefined
  /\ outcome (Unified.pickDeviceId (sample_host 0 accepted) upper) = Ok "a-2".
Proof. repeat split. Qed.

(** An identity field of the wrong type makes the second revision raise,
    since a number has no [trim]. *)
Lemma TwoCall_wrong_type_raises (n : number) :
  JsNumber.truthy n = true ->
  TwoCall.pickDeviceId (VObj [("user_data", VObj [("idfa", VNum n)])])
  = Throw (NotAFunction "trim").
Proof.
  intros T. unfold TwoCall.pickDeviceId, TwoCall.and_trim. cbn. now rewrite T.
Qed.

(** Once the device id and the normalized fields are there, a failed identify
    call ends the invocation: 500 with the downstream status and body, and
    the event call is not made. *)
Lemma TwoCall_identify_failure_reported
  (e : env) (h : host) (p : value) (w w1 : world) (id : value)
  (when : number) (type : kind) (label key : string)
  (res : http_response) (text : string) :
  TwoCall.pickDeviceId p = Ok id ->
  Js.truthy id = true ->
  normalized h p w = (Ok (when, type, label, key), w1) ->
  let latd := Js.or (get p "last_attributed_touch_data") (VObj []) in
  let rq := post (AMPLITUDE_ENDPOINT e ++ "/identify")
              (TwoCall.identifyBody e (identification id latd type when)) in
  network h (List.length (sent w1)) rq = Ok res ->
  resp_ok res = false ->
  resp_text res = Ok text ->
  TwoCall.translate e h p w
  = (Ok {| status := 500; sent_body := failed "identify_failed" res text |},
     {| ticks := ticks w1; sent := sent w1 ++ [rq] |}).
Proof.
  intros P T N latd rq F B X.
  unfold TwoCall.translate, bind, lift. rewrite P, T. cbn [negb]. rewrite N.
  unfold fetch. fold latd. fold rq. rewrite F, B. cbn [negb]. now rewrite X.
Qed.

End SecondRevision.

(** * Further properties of the handler *)

(** ** The two gates *)

Section Gates.

Lemma TwoCall_handler_run (e : env) (h : host) (req : request) (w : world) :
  TwoCall.handler e h req w =
  if negb (String.eqb (method req) "POST")
  then (Ok {| status := 405; sent_body := Send "Method Not Allowed" |}, w)
  else if negb (Js.truthy (BRANCH_TOKEN e))
          || token_differs (query_token req) (BRANCH_TOKEN e)
  then (Ok {| status := 401; sent_body := Send "Unauthorized" |}, w)
  else
    match TwoCall.translate e h (unwrap (Js.or (req_body req) (VObj []))) w with
    | (Ok resp, w') => (Ok resp, w')
    | (Throw err, w') => (Ok {| status := 500; sent_body := ServerError err |}, w')
    end.
Proof.
  unfold TwoCall.handler, try_catch, TwoCall.process.
  destruct (negb (String.eqb (method req) "POST")); [reflexivity|].
  destruct (negb (Js.truthy (BRANCH_TOKEN e)) || _); reflexivity.
Qed.

(** The token test passes exactly for the configured, non-empty token given
    once. *)
Lemma token_gate (e : env) (req : request) :
  negb (Js.truthy (BRANCH_TOKEN e))
  || token_differs (query_token req) (BRANCH_TOKEN e) = false
  <-> exists t, t <> EmptyString /\ BRANCH_TOKEN_var e = Some t
                /\ query_token req = QOne t.
Proof.
  unfold BRANCH_TOKEN, env_value. split.
  - destruct (BRANCH_TOKEN_var e) as [t|]; [|discriminate].
    cbn [Js.truthy]. intros H. apply orb_false_iff in H as [H1 H2].
    apply negb_false_iff, negb_true_iff, is_empty_false in H1.
    destruct (query_token req) as [|s|l]; try discriminate.
    cbn [token_differs] in H2. apply negb_false_iff, String.eqb_eq in H2.
    subst s. now exists t.
  - intros (t & N & -> & ->). cbn [Js.truthy token_differs].
    apply is_empty_false in N. now rewrite N, String.eqb_refl.
Qed.

Lemma gate_open (e : env) (req : request) :
  authorized e req <->
  negb (String.eqb (method req) "POST") = false
  /\ negb (Js.truthy (BRANCH_TOKEN e))
     || token_differs (query_token req) (BRANCH_TOKEN e) = false.
Proof.
  unfold authorized. rewrite token_gate, negb_false_iff, String.eqb_eq. tauto.
Qed.

End Gates.

(** X1. A request that is not a POST is answered 405, and a POST without the
    configured token (token absent, different or repeated, or no token
    configured at all) is answered 401; in both revisions such a request
    leaves the world as it was: the clock is not read and nothing is sent. *)
Theorem refused_without_effect (e : env) (h : host) (req : request) (w : world) :
  ~ authorized e req ->
  Unified.handler e h req w = (Ok (refusal req), w)
  /\ TwoCall.handler e h req w = (Ok (refusal req), w).
Proof.
  intros N. rewrite Unified_handler_run, TwoCall_handler_run. unfold refusal.
  destruct (String.eqb (method req) "POST") eqn:M; cbn [negb]; [|now split].
  destruct (negb (Js.truthy (BRANCH_TOKEN e)) || _) eqn:T; [now split|].
  elim N. apply gate_open. now rewrite M.
Qed.

(** The right token given twice, and a GET with the right token. *)
Lemma refused_without_effect_witness :
  let h := sample_host 1700000001234 accepted in
  let payload := VObj [("user_data", VObj [("idfa", VStr "ABC123")])] in
  let twice := {| method := "POST"; query_token := QMany ["XYZ"; "XYZ"];
                  req_body := payload |} in
  let get_it := {| method := "GET"; query_token := QOne "XYZ"; req_body := payload |} in
  Unified.handler sample_env h twice start
  = (Ok {| status := 401; sent_body := Send "Unauthorized" |}, start)
  /\ TwoCall.handler sample_env h get_it start
     = (Ok {| status := 405; sent_body := Send "Method Not Allowed" |}, start).
Proof.
  intros h payload twice get_it. split.
  - apply (refused_without_effect sample_env h twice start).
    intros (_ & t & _ & _ & Q). discriminate Q.
  - apply (refused_without_effect sample_env h get_it start).
    intros (M & _). discriminate M.
Defined.

(** ** One invocation of the first revision *)

Section UnifiedShape.

Import Unified.

(** A run of [translate] either raises before anything is sent, or sends the
    combined payload once and answers by what the network said. *)
Lemma translate_outcomes (e : env) (h : host) (p : value) (w w' : world)
  (r : result response) :
  translate e h p w = (r, w') ->
  (sent w' = sent w /\ exists err, r = Throw err)
  \/ exists id w1 when type label insertId w2 event,
       JsString.is_empty id = false
       /\ pickDeviceId h p w = (Ok id, w1)
       /\ normalized h p w1 = (Ok (when, type, label, insertId), w2)
       /\ branchEvent h (VStr id) (Js.or (get p "last_attributed_touch_data") (VObj []))
            (nullish (get p "user_data") (VObj [])) type label when insertId
          = Ok event
       /\ let latd := Js.or (get p "last_attributed_touch_data") (VObj []) in
          let rq := post (AMPLITUDE_ENDPOINT e ++ "/2/httpapi")
                      (combinedPayload e (identifyEvent (VStr id) latd type when) event) in
          sent w' = (sent w ++ [rq])%list
          /\ r = match network h (List.length (sent w)) rq with
                 | Throw err => Throw err
                 | Ok res =>
                     if resp_ok res then Ok {| status := 200; sent_body := done |}
                     else match resp_text res with
                          | Ok text =>
                              Ok {| status := 500;
                                    sent_body := failed "event_failed" res text |}
                          | Throw err => Throw err
                          end
                 end.
Proof.
  unfold translate, bind.
  pose proof (pickDeviceId_sends_nothing h p w) as S1.
  destruct (pickDeviceId_never_empty h p w) as (id & w1 & P & E).
  rewrite P in S1 |- *. cbn [snd] in S1. rewrite E.
  pose proof (normalized_sends_nothing h p w1) as S2.
  destruct (normalized h p w1) as [[[[[when type] label] insertId]|err] w2] eqn:N;
    cbn [snd] in S2;
    [|intros [= <- <-]; left; split; [congruence | now eexists]].
  unfold lift.
  destruct (branchEvent _ _ _ _ _ _ _) as [event|err] eqn:B;
    [|intros [= <- <-]; left; split; [congruence | now eexists]].
  unfold fetch, respond, ret. cbn [sent ticks].
  intros H. right. exists id, w1, when, type, label, insertId, w2, event.
  split; [exact E|]. split; [reflexivity|]. split; [exact N|].
  split; [exact B|].
  cbn zeta. rewrite <- S1, <- S2.
  destruct (network h _ _) as [res|err]; [|inversion H; subst; now split].
  destruct (resp_ok res); cbn [negb] in H; [inversion H; subst; now split|].
  destruct (resp_text res); inversion H; subst; now split.
Qed.

End UnifiedShape.

(** X2. Every invocation of the first revision ends with a response (no
    exception escapes), whose status is 405, 401, 200 or 500.  It sends at
    most one request, and only for an authorized request: a POST to
    [<endpoint>/2/httpapi] with a JSON content type, whose body holds the API
    key and two events, in this order: the identify event and the attribution
    event, both built from the device id that [pickDeviceId] returned and the
    time, kind, label and idempotency key that the normalization returned.
    The identify event has the type [$identify]; the attribution event has
    the label as its type and carries the idempotency key and the event
    properties.  The answer is 200 exactly when the network answered that
    request with a status in 200..299. *)
Theorem unified_invocation_shape (e : env) (h : host) (req : request) :
  let p := unwrap (Js.or (req_body req) (VObj [])) in
  let latd := Js.or (get p "last_attributed_touch_data") (VObj []) in
  let u := nullish (get p "user_data") (VObj []) in
  exists resp,
    outcome (Unified.handler e h req) = Ok resp
    /\ In (status resp) [405; 401; 200; 500]
    /\ ((requests (Unified.handler e h req) = [] /\ status resp <> 200)
        \/ exists rq id w1 when type label key w2 event,
             requests (Unified.handler e h req) = [rq]
             /\ authorized e req
             /\ Unified.pickDeviceId h p start = (Ok id, w1)
             /\ normalized h p w1 = (Ok (when, type, label, key), w2)
             /\ Unified.branchEvent h (VStr id) latd u type label when key
                = Ok event
             /\ url rq = AMPLITUDE_ENDPOINT e ++ "/2/httpapi"
             /\ http_method rq = "POST"
             /\ headers rq = [("Content-Type", "application/json")]
             /\ (let ident := Unified.identifyEvent (VStr id) latd type when in
                 body rq = json_text (VObj [ ("api_key", AMPLITUDE_KEY e);
                                             ("events", VArr [ident; event]) ])
                 /\ get ident "event_type" = VStr "$identify"
                 /\ get ident "device_id" = VStr id
                 /\ get ident "time" = VNum when
                 /\ get ident "user_properties" = user_properties latd type when)
             /\ get event "event_type" = VStr label
             /\ get event "device_id" = VStr id
             /\ get event "time" = VNum when
             /\ get event "insert_id" = VStr key
             /\ get event "event_properties" = event_properties latd type
             /\ (status resp = 200 <->
                 exists res, network h 0 rq = Ok res /\ resp_ok res = true)).
Proof.
  intros p latd u.
  unfold outcome, requests, run. rewrite Unified_handler_run. fold p.
  destruct (negb (String.eqb (method req) "POST")) eqn:M.
  { eexists. split; [reflexivity|]. split; [cbn; tauto|]. left. now split. }
  destruct (negb (Js.truthy (BRANCH_TOKEN e)) || _) eqn:G.
  { eexists. split; [reflexivity|]. split; [cbn; tauto|]. left. now split. }
  assert (A : authorized e req) by now apply gate_open.
  destruct (Unified.translate _ _ _ start) as [r w'] eqn:T.
  apply translate_outcomes in T
    as [[S [err ->]]
       |(id & w1 & when & type & label & key & w2 & event & _ & P & N & B & S & R)].
  - eexists. split; [reflexivity|]. split; [cbn; tauto|]. left.
    cbn [snd]. now split.
  - cbn zeta in S, R. cbn [sent start app List.length] in S, R.
    fold latd in S, R, B. fold u in B.
    pose proof B as Built. apply branchEvent_built in Built as (os & _ & Ev).
    set (rq := post (AMPLITUDE_ENDPOINT e ++ "/2/httpapi")
                 (Unified.combinedPayload e
                    (Unified.identifyEvent (VStr id) latd type when) event)) in *.
    assert (Shape :
      forall resp,
        r = Ok resp
        \/ (exists err, r = Throw err
                        /\ resp = {| status := 500; sent_body := ServerError err |}) ->
      (status resp = 200 <->
       exists res, network h 0 rq = Ok res /\ resp_ok res = true)
      /\ In (status resp) [405; 401; 200; 500]).
    { intros resp Hr. revert R.
      destruct (network h 0 rq) as [res|err].
      - destruct (resp_ok res) eqn:K.
        + intros ->. destruct Hr as [[= <-]|(err & [=] & _)].
          split; [|cbn; tauto]. split; [intros _; now exists res | reflexivity].
        + destruct (resp_text res) as [text|err]; intros ->.
          * destruct Hr as [[= <-]|(err & [=] & _)].
            split; [|cbn; tauto].
            split; [discriminate | intros (res' & [= <-] & K'); congruence].
          * destruct Hr as [[=]|(err' & [= <-] & ->)].
            split; [|cbn; tauto].
            split; [discriminate | intros (res' & [= <-] & K'); congruence].
      - intros ->. destruct Hr as [[=]|(err' & [= <-] & ->)].
        split; [|cbn; tauto].
        split; [discriminate | intros (res' & [=] & _)]. }
    assert (Sent :
      forall resp,
        (status resp = 200 <->
         exists res, network h 0 rq = Ok res /\ resp_ok res = true) ->
        exists rq0 id0 w10 when0 type0 label0 key0 w20 event0,
          sent w' = [rq0]
          /\ authorized e req
          /\ Unified.pickDeviceId h p start = (Ok id0, w10)
          /\ normalized h p w10 = (Ok (when0, type0, label0, key0), w20)
          /\ Unified.branchEvent h (VStr id0) latd u type0 label0 when0 key0
             = Ok event0
          /\ url rq0 = AMPLITUDE_ENDPOINT e ++ "/2/httpapi"
          /\ http_method rq0 = "POST"
          /\ headers rq0 = [("Content-Type", "application/json")]
          /\ (let ident := Unified.identifyEvent (VStr id0) latd type0 when0 in
              body rq0 = json_text (VObj [ ("api_key", AMPLITUDE_KEY e);
                                           ("events", VArr [ident; event0]) ])
              /\ get ident "event_type" = VStr "$identify"
              /\ get ident "device_id" = VStr id0
              /\ get ident "time" = VNum when0
              /\ get ident "user_properties" = user_properties latd type0 when0)
          /\ get event0 "event_type" = VStr label0
          /\ get event0 "device_id" = VStr id0
          /\ get event0 "time" = VNum when0
          /\ get event0 "insert_id" = VStr key0
          /\ get event0 "event_properties" = event_properties latd type0
          /\ (status resp = 200 <->
              exists res, network h 0 rq0 = Ok res /\ resp_ok res = true)).
    { intros resp Iff.
      exists rq, id, w1, when, type, label, key, w2, event.
      split; [exact S|]. split; [exact A|]. split; [exact P|].
      split; [exact N|]. split; [exact B|].
      do 3 (split; [reflexivity|]).
      split; [cbn zeta; repeat split|].
      rewrite Ev. do 5 (split; [reflexivity|]). exact Iff. }
    destruct r as [resp|err].
    + destruct (Shape resp) as [Iff St]; [now left|].
      exists resp. split; [reflexivity|]. split; [exact St|]. right.
      cbn [snd]. exact (Sent resp Iff).
    + destruct (Shape {| status := 500; sent_body := ServerError err |})
        as [Iff St]; [right; now exists err|].
      eexists. split; [reflexivity|]. split; [exact St|]. right.
      cbn [snd]. exact (Sent _ Iff).
Qed.

(** ** The device id of the first revision *)

Section DeviceIdShape.

Import JsString Unified.

Variable h : host.

(** The scan finds nothing exactly when no key is populated. *)
Lemma scan_none (u : value) (ks : list string) :
  scan h u ks = None <-> forall k, In k ks -> populated h (k, get u k) = false.
Proof.
  induction ks as [|k ks IH].
  - split; [intros _ k [] | reflexivity].
  - rewrite scan_step. destruct (populated h (k, get u k)) eqn:P.
    + split.
      * unfold populated in P. cbn [fst snd] in P.
        destruct (get u k); try (rewrite andb_false_r in P; discriminate P).
        discriminate.
      * intros H. rewrite (H k) in P by now left. discriminate P.
    + rewrite IH. split.
      * intros H k' [<-|I]; [exact P | now apply H].
      * intros H k' I. apply H. now right.
Qed.

(** What the scan finds is the trimmed value of a populated key. *)
Lemma scan_some (u : value) (ks : list string) (id : string) :
  scan h u ks = Some id ->
  exists k s, In k ks /\ is_recognized h k = true /\ get u k = VStr s
              /\ blank s = false /\ id = trim s.
Proof.
  induction ks as [|k ks IH]; [discriminate|].
  rewrite scan_step. destruct (populated h (k, get u k)) eqn:P.
  - unfold populated in P. cbn [fst snd] in P.
    apply andb_true_iff in P as [R B].
    destruct (get u k) as [| | | |s| |] eqn:G; try discriminate B.
    apply negb_true_iff in B. intros [= <-].
    exists k, s. split; [now left|]. now repeat split.
  - intros H. destruct (IH H) as (k' & s & I & rest).
    exists k', s. split; [now right | exact rest].
Qed.

Lemma uint_digits (d : Decimal.uint) :
  all_chars is_digit (NilZero.string_of_uint d) = true.
Proof.
  assert (E : forall d', all_chars is_digit (NilEmpty.string_of_uint d') = true).
  { induction d'; cbn [NilEmpty.string_of_uint all_chars]; try reflexivity;
      rewrite IHd'; reflexivity. }
  destruct d; try reflexivity; apply E.
Qed.

(** The decimal numeral of an index is written in digits, *)
Lemma key_of_index_digits (i : nat) : all_chars is_digit (key_of_index i) = true.
Proof.
  unfold key_of_index, JsString.of_Z.
  destruct (Z.of_nat i) as [|q|q] eqn:E; [reflexivity| |lia].
  cbn [Z.to_int NilZero.string_of_int]. apply uint_digits.
Qed.

(** which changing the case leaves alone. *)
Lemma lower_digits (s : string) :
  all_chars is_digit s = true -> toLowerCase h s = s.
Proof.
  intros D. unfold toLowerCase.
  assert (L : ascii_lower s = s /\ ascii_only s = true).
  { induction s as [|c s IH]; [now split|].
    cbn [all_chars] in D. apply andb_true_iff in D as [Dc D].
    destruct (IH D) as [L A]. unfold ascii_lower in *. cbn [map_string ascii_only].
    unfold is_digit in Dc. apply andb_true_iff in Dc as [_ Dc].
    apply Z.leb_le in Dc.
    assert (Lc : lower_char c = c).
    { unfold lower_char, is_upper.
      destruct (65 <=? code c) eqn:U; [apply Z.leb_le in U; lia | reflexivity]. }
    rewrite Lc, L, A. split; [reflexivity|].
    apply andb_true_iff. split; [apply Z.ltb_lt; lia | reflexivity]. }
  destruct L as [-> ->]. reflexivity.
Qed.

(** An array index is not an identity field. *)
Lemma index_not_recognized (i : nat) : is_recognized h (key_of_index i) = false.
Proof.
  unfold is_recognized. rewrite (lower_digits _ (key_of_index_digits i)).
  destruct (key_of_index_head i) as (c & r & -> & D).
  cbn [existsb recognized String.eqb].
  assert (Ni : Ascii.eqb c "i" = false).
  { apply Ascii.eqb_neq. intros ->. discriminate D. }
  assert (Na : Ascii.eqb c "a" = false).
  { apply Ascii.eqb_neq. intros ->. discriminate D. }
  assert (Ng : Ascii.eqb c "g" = false).
  { apply Ascii.eqb_neq. intros ->. discriminate D. }
  now rewrite Ni, Na, Ng.
Qed.

Lemma keys_indexed (items : list value) (k : string) :
  In k (map fst (indexed items)) -> exists i, k = key_of_index i.
Proof.
  unfold indexed. intros I. apply in_map_iff in I as ([k' v] & E & I).
  cbn [fst] in E. subst k'. apply in_combine_l in I.
  apply in_map_iff in I as (i & E & _). now exists i.
Qed.

(** Only an object can hold an identity field. *)
Lemma not_object_unpopulated (u : value) (k : string) :
  (forall props, u <> VObj props) -> In k (keys u) ->
  populated h (k, get u k) = false.
Proof.
  intros N I. unfold populated. cbn [fst].
  assert (R : is_recognized h k = false); [|now rewrite R].
  unfold keys in I.
  destruct u as [| | | |s|items|props]; cbn [own_props map] in I;
    try contradiction.
  - apply keys_indexed in I as [i ->]. apply index_not_recognized.
  - apply keys_indexed in I as [i ->]. apply index_not_recognized.
  - now elim (N props).
Qed.

End DeviceIdShape.

(** X3. When no key of the identity mapping holds a non-blank string under a
    recognized name, and in particular whenever [user_data] is absent or is
    not an object, the first revision's [pickDeviceId] reads the clock once
    and returns the placeholder "fallback-" followed by that reading. *)
Theorem unified_placeholder_id (h : host) (p : value) (w : world) :
  let u := Js.or (get p "user_data") (VObj []) in
  let placeholder :=
    (Ok ("fallback-" ++ toString (of_Z (clock h (ticks w)))),
     {| ticks := S (ticks w); sent := sent w |}) in
  ((forall k, In k (keys u) -> populated h (k, get u k) = false) ->
   Unified.pickDeviceId h p w = placeholder)
  /\ ((forall props, get p "user_data" <> VObj props) ->
      Unified.pickDeviceId h p w = placeholder).
Proof.
  intros u placeholder.
  assert (F : (forall k, In k (keys u) -> populated h (k, get u k) = false) ->
              Unified.pickDeviceId h p w = placeholder).
  { intros N. apply scan_none in N. unfold Unified.pickDeviceId. fold u.
    now rewrite N. }
  split; [exact F|].
  intros N. apply F. unfold u, Js.or.
  destruct (Js.truthy (get p "user_data")).
  - intros k I. now apply not_object_unpopulated.
  - intros k [].
Qed.

(** An identity mapping with a null [idfa] and a blank [gaid], and a
    [user_data] that is a string. *)
Lemma unified_placeholder_id_witness :
  let h := sample_host 1700000001234 accepted in
  let blanks := VObj [("user_data", VObj [ ("idfa", VNull); ("os", VStr "iOS");
                                           ("gaid", VStr "   ") ])] in
  let text := VObj [("user_data", VStr "idfa=ABC123")] in
  Unified.pickDeviceId h blanks start
  = (Ok "fallback-1700000001234", {| ticks := 1; sent := [] |})
  /\ Unified.pickDeviceId h text start
     = (Ok "fallback-1700000001234", {| ticks := 1; sent := [] |}).
Proof.
  intros h blanks text. split.
  - apply (proj1 (unified_placeholder_id h blanks start)).
    intros k I. cbn in I.
    repeat (destruct I as [<-|I]; [reflexivity|]). destruct I.
  - apply (proj2 (unified_placeholder_id h text start)).
    intros props. discriminate.
Defined.

(** X4. The device id of the first revision is never empty, and it is either
    the placeholder, in which case no key was populated, or the trimmed value
    of a string that the identity mapping holds under a recognized name; such
    an id has no white space left around it and the clock was not read. *)
Theorem unified_device_id_sound (h : host) (p : value) (w w' : world) (id : string) :
  Unified.pickDeviceId h p w = (Ok id, w') ->
  let u := Js.or (get p "user_data") (VObj []) in
  id <> EmptyString
  /\ ((w' = w /\ JsString.trim id = id
       /\ exists k s, In k (keys u) /\ is_recognized h k = true
                      /\ get u k = VStr s /\ blank s = false
                      /\ id = JsString.trim s)
      \/ (id = "fallback-" ++ toString (of_Z (clock h (ticks w)))
          /\ ticks w' = S (ticks w)
          /\ forall k, In k (keys u) -> populated h (k, get u k) = false)).
Proof.
  intros P u. unfold Unified.pickDeviceId in P. fold u in P.
  destruct (Unified.scan h u (keys u)) as [found|] eqn:S.
  - injection P as <- <-. split; [now apply scan_nonempty in S|]. left.
    apply scan_some in S as (k & s & I & R & G & B & ->).
    split; [reflexivity|]. split; [apply trim_idempotent|]. now exists k, s.
  - injection P as <- <-. split; [discriminate|]. right.
    split; [reflexivity|]. split; [reflexivity|]. now apply scan_none.
Qed.

(** An identifier with white space around it, under a mixed-case key. *)
Lemma unified_device_id_sound_witness :
  let h := sample_host 1700000001234 accepted in
  let p := VObj [("user_data", VObj [("Advertising_Id", VStr "  G-77 ")])] in
  "G-77" <> EmptyString
  /\ ((start = start /\ JsString.trim "G-77" = "G-77"
       /\ exists k s, In k (keys (Js.or (get p "user_data") (VObj [])))
                      /\ is_recognized h k = true
                      /\ get (Js.or (get p "user_data") (VObj [])) k = VStr s
                      /\ blank s = false /\ "G-77" = JsString.trim s)
      \/ ("G-77" = "fallback-" ++ toString (of_Z (clock h (ticks start)))
          /\ ticks start = S (ticks start)
          /\ forall k, In k (keys (Js.or (get p "user_data") (VObj []))) ->
                       populated h (k, get (Js.or (get p "user_data") (VObj [])) k) = false)).
Proof.
  intros h p.
  exact (unified_device_id_sound h p start start "G-77" eq_refl).
Defined.

(** ** Event names *)

Section EventNames.

Import JsString.

Lemma upper_lower_char (c : ascii) : upper_char (lower_char c) = upper_char c.
Proof. destruct c as [[] [] [] [] [] [] [] []]; reflexivity. Qed.

(** Upper-casing forgets the case of the letters of its argument. *)
Lemma toUpperCase_toLowerCase (h : host) (s : string) :
  toUpperCase h (ascii_lower s) = toUpperCase h s.
Proof.
  unfold toUpperCase.
  assert (E : ascii_upper (ascii_lower s) = ascii_upper s); [|now rewrite E].
  unfold ascii_upper, ascii_lower.
  induction s as [|c s IH]; cbn [map_string]; [reflexivity|].
  now rewrite upper_lower_char, IH.
Qed.

Lemma normalized_ok (h : host) (p : value) (w w' : world)
  (when : number) (type : kind) (label key : string) :
  normalized h p w = (Ok (when, type, label, key), w') ->
  toMillis h (TsValue (Js.or (get p "timestamp_millis") (get p "timestamp"))) w
  = (Ok when, w')
  /\ normalizeEventType h p = Ok (type, label)
  /\ key = buildInsertId p when label.
Proof.
  unfold normalized, bind, lift, ret.
  destruct (toMillis _ _ _) as [[n|err] w1]; [|discriminate].
  destruct (normalizeEventType h p) as [[t l]|err]; [|discriminate].
  now intros [= <- <- <- <- <-].
Qed.

(** Without an event string the normalization raises, whatever the clock. *)
Lemma normalized_fails (h : host) (p : value) (w : world) :
  (forall s, raw_event p <> VStr s) ->
  exists err w', normalized h p w = (Throw err, w') /\ sent w' = sent w.
Proof.
  intros N. unfold normalized, bind, lift.
  pose proof (toMillis_sends_nothing h
                (TsValue (Js.or (get p "timestamp_millis") (get p "timestamp"))) w) as S.
  destruct (toMillis _ _ _) as [[n|err] w1]; cbn [snd] in S; [|now eexists _, _].
  unfold normalizeEventType.
  destruct (raw_event p) as [| | | |s| |] eqn:R; try (now eexists _, _).
  now elim (N s).
Qed.

End EventNames.

(** X5. The label that [normalizeEventType] returns is never empty.  It is
    fixed by the kind for reinstall, install and open; for the kind other it
    is the upper-cased event string, which then contains neither INSTALL nor
    OPEN, or "Branch Event" when the upper-cased event string is empty, as it
    is when there is no event string.  The function raises only when the
    event name it finds is not a string. *)
Theorem normalizeEventType_label (h : host) (p : value) :
  (forall type label, normalizeEventType h p = Ok (type, label) ->
     label <> EmptyString
     /\ match type with
        | Reinstall => label = "Branch Reinstall"
        | Install => label = "Branch Attributed Install"
        | Open => label = "Branch Open"
        | Other =>
            ~ Contains "INSTALL" label /\ ~ Contains "OPEN" label
            /\ exists s, raw_event p = VStr s
                         /\ (toUpperCase h s = EmptyString
                             /\ label = "Branch Event"
                             \/ toUpperCase h s <> EmptyString
                                /\ label = toUpperCase h s)
        end)
  /\ (raw_event p = VStr EmptyString ->
      normalizeEventType h p = Ok (Other, "Branch Event"))
  /\ (forall err, normalizeEventType h p = Throw err ->
        err = NotAFunction "toUpperCase" /\ forall s, raw_event p <> VStr s).
Proof.
  unfold normalizeEventType. split; [|split].
  - intros type label.
    destruct (raw_event p) as [| | | |s| |]; try discriminate.
    destruct (JsString.includes "REINSTALL" _) eqn:R;
      [intros [= <- <-]; split; [discriminate | reflexivity]|].
    destruct (JsString.includes "INSTALL" _) eqn:I;
      [intros [= <- <-]; split; [discriminate | reflexivity]|].
    destruct (JsString.includes "OPEN" _) eqn:O;
      [intros [= <- <-]; split; [discriminate | reflexivity]|].
    destruct (toUpperCase h s) as [|c r] eqn:U; cbn [JsString.is_empty].
    + intros [= <- <-]. split; [discriminate|].
      split; [|split].
      * now apply includes_not_Contains.
      * now apply includes_not_Contains.
      * exists s. split; [reflexivity|]. left. now split.
    + intros [= <- <-]. split; [discriminate|].
      split; [now apply includes_not_Contains|].
      split; [now apply includes_not_Contains|].
      exists s. split; [reflexivity|]. right. rewrite U. now split.
  - now intros ->.
  - intros err. destruct (raw_event p) as [| | | |s| |];
      try (intros [= <-]; split; [reflexivity | discriminate]).
    destruct (JsString.includes "REINSTALL" _); [discriminate|].
    destruct (JsString.includes "INSTALL" _); [discriminate|].
    destruct (JsString.includes "OPEN" _); discriminate.
Qed.

(** A custom event, and a payload whose name is a number. *)
Lemma normalizeEventType_label_witness :
  let h := sample_host 0 accepted in
  ("PURCHASE" <> EmptyString
   /\ ~ Contains "INSTALL" "PURCHASE" /\ ~ Contains "OPEN" "PURCHASE"
   /\ exists s, raw_event (VObj [("event", VStr "purchase")]) = VStr s
                /\ (toUpperCase h s = EmptyString /\ "PURCHASE" = "Branch Event"
                    \/ toUpperCase h s <> EmptyString
                       /\ "PURCHASE" = toUpperCase h s))
  /\ (NotAFunction "toUpperCase" = NotAFunction "toUpperCase"
      /\ forall s, raw_event (VObj [("name", VNum (of_Z 42))]) <> VStr s).
Proof.
  intros h. split.
  - exact (proj1 (normalizeEventType_label h (VObj [("event", VStr "purchase")]))
             Other "PURCHASE" eq_refl).
  - exact (proj2 (proj2 (normalizeEventType_label h
                           (VObj [("name", VNum (of_Z 42))])))
             (NotAFunction "toUpperCase") eq_refl).
Defined.

(** X6. Event-type normalization does not see letter case: two payloads
    whose event strings differ only in the case of their letters get the same
    kind and the same label. *)
Theorem normalizeEventType_case_insensitive
  (h : host) (p p' : value) (s s' : string) :
  raw_event p = VStr s ->
  raw_event p' = VStr s' ->
  JsString.ascii_lower s = JsString.ascii_lower s' ->
  normalizeEventType h p = normalizeEventType h p'.
Proof.
  intros E E' L. unfold normalizeEventType. rewrite E, E'.
  now rewrite <- (toUpperCase_toLowerCase h s), L, toUpperCase_toLowerCase.
Qed.

(** "Install" under [name] and "iNSTALL" under [event]. *)
Lemma normalizeEventType_case_insensitive_witness :
  normalizeEventType (sample_host 0 accepted) (VObj [("name", VStr "Install")])
  = normalizeEventType (sample_host 0 accepted)
      (VObj [("name", VNull); ("event", VStr "iNSTALL")]).
Proof.
  apply (normalizeEventType_case_insensitive (sample_host 0 accepted)
           (VObj [("name", VStr "Install")])
           (VObj [("name", VNull); ("event", VStr "iNSTALL")])
           "Install" "iNSTALL"); reflexivity.
Defined.

(** ** Payloads of the wrong type *)

Section WrongTypes.

(** In the first revision an exception raised by the normalization or by the
    event record ends the invocation with 500 before anything is sent. *)
Lemma Unified_raises_before_sending (e : env) (h : host) (req : request) :
  authorized e req ->
  let p := unwrap (Js.or (req_body req) (VObj [])) in
  ((forall s, raw_event p <> VStr s)
   \/ (forall id type label when key,
         exists err,
           Unified.branchEvent h id (Js.or (get p "last_attributed_touch_data") (VObj []))
             (nullish (get p "user_data") (VObj [])) type label when key
           = Throw err)) ->
  exists err,
    outcome (Unified.handler e h req)
    = Ok {| status := 500; sent_body := ServerError err |}
    /\ requests (Unified.handler e h req) = [].
Proof.
  intros A p C. apply gate_open in A as [M G].
  unfold outcome, requests, run. rewrite Unified_handler_run, M, G.
  fold p. unfold Unified.translate, bind.
  pose proof (pickDeviceId_sends_nothing h p start) as S1.
  destruct (pickDeviceId_never_empty h p start) as (id & w1 & P & E).
  rewrite P in S1 |- *. cbn [snd] in S1. rewrite E.
  destruct C as [N|B].
  - destruct (normalized_fails h p w1 N) as (err & w2 & -> & S2).
    exists err. cbn [fst snd]. split; [reflexivity|]. now rewrite S2, S1.
  - pose proof (normalized_sends_nothing h p w1) as S2.
    destruct (normalized h p w1) as [[[[[when type] label] key]|err] w2];
      cbn [snd] in S2.
    + unfold lift.
      destruct (B (VStr id) type label when key) as [err ->].
      exists err. cbn [fst snd]. split; [reflexivity|]. now rewrite S2, S1.
    + exists err. cbn [fst snd]. split; [reflexivity|]. now rewrite S2, S1.
Qed.

(** A boolean, a number or a string has none of the identity fields the
    second revision reads. *)
Lemma primitive_has_no_identity (v : value) (k : string) :
  match v with VBool _ | VNum _ | VStr _ => True | _ => False end ->
  In k ["idfa"; "idfv"; "adid"] ->
  get (Js.or v (VObj [])) k = VUndefined.
Proof.
  intros V I. unfold Js.or. destruct (Js.truthy v); [|reflexivity].
  destruct v; try contradiction; try reflexivity.
  cbn [In] in I. cbn [get].
  destruct I as [<-|[<-|[<-|[]]]].
  - change (index_of_key "idfa") with (@None nat). reflexivity.
  - change (index_of_key "idfv") with (@None nat). reflexivity.
  - change (index_of_key "adid") with (@None nat). reflexivity.
Qed.

End WrongTypes.

(** X7. In the first revision, an authorized request whose event name is
    present but is not a string (a number, [true], an array, an object) is
    answered 500 [server_error], and nothing is sent downstream. *)
Theorem unified_wrong_typed_name (e : env) (h : host) (req : request) :
  authorized e req ->
  (forall s, raw_event (unwrap (Js.or (req_body req) (VObj []))) <> VStr s) ->
  exists err,
    outcome (Unified.handler e h req)
    = Ok {| status := 500; sent_body := ServerError err |}
    /\ requests (Unified.handler e h req) = [].
Proof.
  intros A N. apply (Unified_raises_before_sending e h req A). now left.
Qed.

(** An install whose name arrives as the number 1. *)
Lemma unified_wrong_typed_name_witness :
  let h := sample_host 1700000001234 accepted in
  let req := webhook (VObj [ ("name", VNum (of_Z 1));
                             ("user_data", VObj [("idfa", VStr "ABC123")]) ]) in
  exists err,
    outcome (Unified.handler sample_env h req)
    = Ok {| status := 500; sent_body := ServerError err |}
    /\ requests (Unified.handler sample_env h req) = [].
Proof.
  intros h req. apply (unified_wrong_typed_name sample_env h req).
  - split; [reflexivity|]. exists "XYZ". now repeat split.
  - intros s. discriminate.
Defined.

(** X8. When [user_data] is a boolean, a number or a string, the first
    revision applies the [in] operator to it and answers 500
    [server_error] without sending anything, whereas the second revision
    finds no identity in it and answers 202 skipped, also without sending. *)
Theorem primitive_user_data (e : env) (h : host) (req : request) :
  authorized e req ->
  match get (unwrap (Js.or (req_body req) (VObj []))) "user_data" with
  | VBool _ | VNum _ | VStr _ => True
  | _ => False
  end ->
  (exists err,
     outcome (Unified.handler e h req)
     = Ok {| status := 500; sent_body := ServerError err |}
     /\ requests (Unified.handler e h req) = [])
  /\ outcome (TwoCall.handler e h req) = Ok {| status := 202; sent_body := skipped |}
  /\ requests (TwoCall.handler e h req) = [].
Proof.
  intros A V. split.
  - apply (Unified_raises_before_sending e h req A). right.
    intros id type label when key. exists (InOnPrimitive "app_version").
    unfold Unified.branchEvent, Unified.string_field.
    destruct (get _ "user_data"); try contradiction; reflexivity.
  - apply gate_open in A as [M G].
    unfold outcome, requests, run. rewrite TwoCall_handler_run, M, G.
    rewrite TwoCall_skips; [now split|].
    intros k I. now rewrite primitive_has_no_identity.
Qed.

(** [user_data] sent as a query-like string. *)
Lemma primitive_user_data_witness :
  let h := sample_host 1700000001234 accepted in
  let req := webhook (VObj [ ("name", VStr "OPEN");
                             ("user_data", VStr "idfa=ABC123") ]) in
  (exists err,
     outcome (Unified.handler sample_env h req)
     = Ok {| status := 500; sent_body := ServerError err |}
     /\ requests (Unified.handler sample_env h req) = [])
  /\ outcome (TwoCall.handler sample_env h req)
     = Ok {| status := 202; sent_body := skipped |}
  /\ requests (TwoCall.handler sample_env h req) = [].
Proof.
  intros h req. apply (primitive_user_data sample_env h req).
  - split; [reflexivity|]. exists "XYZ". now repeat split.
  - exact I.
Defined.

(** ** Repeated deliveries *)

Section SameTables.

Variables h1 h2 : host.
Hypothesis upper : forall s, unicode_upper h1 s = unicode_upper h2 s.
Hypothesis lower : forall s, unicode_lower h1 s = unicode_lower h2 s.

Lemma toUpperCase_ext (s : string) : toUpperCase h1 s = toUpperCase h2 s.
Proof. unfold toUpperCase. now rewrite upper. Qed.

Lemma toLowerCase_ext (s : string) : toLowerCase h1 s = toLowerCase h2 s.
Proof. unfold toLowerCase. now rewrite lower. Qed.

Lemma scan_ext (u : value) (ks : list string) :
  Unified.scan h1 u ks = Unified.scan h2 u ks.
Proof.
  induction ks as [|k ks IH]; [reflexivity|]. cbn [Unified.scan].
  now rewrite toLowerCase_ext, IH.
Qed.

Lemma normalizeEventType_ext (p : value) :
  normalizeEventType h1 p = normalizeEventType h2 p.
Proof.
  unfold normalizeEventType. destruct (raw_event p); try reflexivity.
  now rewrite toUpperCase_ext.
Qed.

Lemma branchEvent_ext (id latd u : value) (type : kind) (label : string)
  (when : number) (key : string) :
  Unified.branchEvent h1 id latd u type label when key
  = Unified.branchEvent h2 id latd u type label when key.
Proof.
  unfold Unified.branchEvent, platform_of.
  destruct (Unified.string_field u "app_version"); [|reflexivity].
  destruct (Unified.os_text u); [|reflexivity].
  now rewrite toLowerCase_ext.
Qed.

End SameTables.

(** X9. In the first revision, when the identity mapping holds a populated
    key and the timestamp is a number or a string that reads as a number, an
    invocation reads neither the clock nor the date parser: two hosts with
    the same case tables whose networks answer alike give the same response
    and send the same request, hence the same idempotency key, so a repeated
    delivery of the payload is recognizable downstream. *)
Theorem unified_retry_stable (e : env) (h1 h2 : host) (req : request) (w : world) :
  (forall s, unicode_upper h1 s = unicode_upper h2 s) ->
  (forall s, unicode_lower h1 s = unicode_lower h2 s) ->
  (forall i rq, network h1 i rq = network h2 i rq) ->
  let p := unwrap (Js.or (req_body req) (VObj [])) in
  let u := Js.or (get p "user_data") (VObj []) in
  let ts := Js.or (get p "timestamp_millis") (get p "timestamp") in
  (exists k, In k (keys u) /\ populated h1 (k, get u k) = true) ->
  ((exists n, ts = VNum n) \/ (exists s, ts = VStr s /\ isNaN (of_string s) = false)) ->
  Unified.handler e h1 req w = Unified.handler e h2 req w.
Proof.
  intros Up Lo Net p u ts (k & I & P) T.
  rewrite !Unified_handler_run. fold p.
  destruct (negb (String.eqb (method req) "POST")); [reflexivity|].
  destruct (_ || _); [reflexivity|].
  assert (E : Unified.translate e h1 p w = Unified.translate e h2 p w);
    [|now rewrite E].
  unfold Unified.translate, bind, Unified.pickDeviceId. fold u.
  rewrite <- (scan_ext h1 h2 Lo u (keys u)).
  destruct (Unified.scan h1 u (keys u)) as [id|] eqn:S.
  2:{ rewrite (proj1 (scan_none h1 u (keys u)) S k I) in P. discriminate P. }
  unfold ret. destruct (JsString.is_empty id); [reflexivity|].
  assert (N : normalized h1 p w = normalized h2 p w).
  { unfold normalized, bind. fold ts.
    rewrite (normalizeEventType_ext h1 h2 Up p).
    destruct T as [[n ->]|(s & -> & Num)].
    - now rewrite !toMillis_number.
    - now rewrite !toMillis_string, Num. }
  rewrite N.
  destruct (normalized h2 p w) as [[[[[when type] label] key]|err] w1];
    [|reflexivity].
  rewrite (branchEvent_ext h1 h2 Lo).
  unfold lift. destruct (Unified.branchEvent _ _ _ _ _ _ _ _); [|reflexivity].
  unfold fetch. now rewrite Net.
Qed.

(** Scenario A handled by two hosts whose clocks are years apart. *)
Lemma unified_retry_stable_witness :
  let req := webhook (VObj [ ("name", VStr "INSTALL");
                             ("user_data", VObj [("idfa", VStr "ABC123")]);
                             ("timestamp_millis", VNum (of_Z 1700000000000)) ]) in
  Unified.handler sample_env (sample_host 1700000001234 accepted) req start
  = Unified.handler sample_env (sample_host 1900000000000 accepted) req start.
Proof.
  intros req.
  apply (unified_retry_stable sample_env (sample_host 1700000001234 accepted)
           (sample_host 1900000000000 accepted) req start).
  - reflexivity.
  - reflexivity.
  - reflexivity.
  - exists "idfa". split; [now left | reflexivity].
  - left. now eexists.
Defined.

(** ** The endpoint *)

Section Endpoint.

Import JsString.

Lemma strip_no_trailing_slash (s : string) :
  ends_with_slash (strip_trailing_slashes s) = false.
Proof.
  induction s as [|c s IH]; [reflexivity|]. cbn [strip_trailing_slashes].
  destruct (is_empty (strip_trailing_slashes s) && Ascii.eqb c "/") eqn:C;
    [reflexivity|].
  cbn [ends_with_slash].
  destruct (strip_trailing_slashes s) as [|d r]; [|exact IH].
  cbn [is_empty andb] in C. exact C.
Qed.

Lemma strip_removes_slashes (s : string) :
  exists tail, s = strip_trailing_slashes s ++ tail /\ slashes tail = true.
Proof.
  induction s as [|c s (tail & E & T)]; [now exists EmptyString|].
  cbn [strip_trailing_slashes].
  destruct (is_empty (strip_trailing_slashes s) && Ascii.eqb c "/") eqn:C.
  - apply andb_true_iff in C as [C K]. apply is_empty_true in C.
    rewrite C in E. cbn [append] in E. exists (String c s).
    split; [reflexivity|]. unfold slashes in *. cbn [all_chars].
    now rewrite K, E.
  - exists tail. split; [|exact T]. cbn [append]. now rewrite <- E.
Qed.

Lemma strip_fixed (s : string) :
  ends_with_slash s = false -> strip_trailing_slashes s = s.
Proof.
  induction s as [|c s IH]; [reflexivity|]. cbn [ends_with_slash strip_trailing_slashes].
  destruct s as [|d r].
  - intros ->. reflexivity.
  - intros H. rewrite (IH H). reflexivity.
Qed.

End Endpoint.

(** X10. The endpoint is the configured one, or "https://api2.amplitude.com"
    when none or an empty one is configured, without its trailing slashes:
    only slashes are removed, none is left at the end, and an endpoint
    without a trailing slash is used as it is. *)
Theorem endpoint_without_trailing_slash (e : env) :
  let configured :=
    match AMPLITUDE_HTTP_ENDPOINT e with
    | Some s => if JsString.is_empty s then "https://api2.amplitude.com" else s
    | None => "https://api2.amplitude.com"
    end in
  ends_with_slash (AMPLITUDE_ENDPOINT e) = false
  /\ (exists tail, configured = AMPLITUDE_ENDPOINT e ++ tail /\ slashes tail = true)
  /\ (ends_with_slash configured = false -> AMPLITUDE_ENDPOINT e = configured)
  /\ (AMPLITUDE_HTTP_ENDPOINT e = None \/ AMPLITUDE_HTTP_ENDPOINT e = Some EmptyString ->
      AMPLITUDE_ENDPOINT e = "https://api2.amplitude.com").
Proof.
  intros configured. unfold AMPLITUDE_ENDPOINT. fold configured.
  split; [apply strip_no_trailing_slash|].
  split; [apply strip_removes_slashes|].
  split; [apply strip_fixed|].
  unfold configured. intros [->| ->]; reflexivity.
Qed.

(** A regional endpoint written with two trailing slashes. *)
Lemma endpoint_without_trailing_slash_witness :
  AMPLITUDE_ENDPOINT {| AMPLITUDE_API_KEY := Some "KEY";
                        AMPLITUDE_HTTP_ENDPOINT := Some "https://api.eu.amplitude.com//";
                        BRANCH_TOKEN_var := Some "XYZ" |}
  = "https://api.eu.amplitude.com"
  /\ AMPLITUDE_ENDPOINT sample_env = "https://api2.amplitude.com".
Proof.
  split.
  - reflexivity.
  - apply (endpoint_without_trailing_slash sample_env). now left.
Defined.

(** ** The platform *)

Section Platform.

Variable h : host.

Lemma os_text_value (u : value) (os : string) :
  Unified.os_text u = Ok os ->
  os = match get u "os" with VStr s => s | _ => EmptyString end.
Proof.
  unfold Unified.os_text.
  destruct u as [| | | | |items|props]; cbn [has_property]; try discriminate;
    intros [= <-].
  - cbn [get]. change (String.eqb "os" "length") with false.
    change (index_of_key "os") with (@None nat). reflexivity.
  - cbn [get]. unfold has_key. destruct (lookup "os" props) as [x|]; [|reflexivity].
    now destruct x.
Qed.

Lemma platform_of_cases (os : string) :
  (platform_of h os = VStr "Android" \/ platform_of h os = VStr "iOS")
  /\ (platform_of h os = VStr "Android"
      <-> Contains "android" (toLowerCase h os)).
Proof.
  unfold platform_of. rewrite <- includes_Contains.
  destruct (JsString.includes "android" _); split;
    try tauto; split; congruence.
Qed.

End Platform.

(** X11. The platform of the attribution event is "Android" when the OS
    field of [user_data] is a string that contains "android" in any letter
    case, and "iOS" in every other case, an absent or non-string OS
    included. *)
Theorem event_platform
  (h : host) (deviceId latd u : value) (type : kind) (label : string)
  (when : number) (insertId : string) (event : value) :
  Unified.branchEvent h deviceId latd u type label when insertId = Ok event ->
  (get event "platform" = VStr "Android" \/ get event "platform" = VStr "iOS")
  /\ (get event "platform" = VStr "Android"
      <-> exists s, get u "os" = VStr s
                    /\ Contains "android" (toLowerCase h s)).
Proof.
  intros B. apply branchEvent_built in B as (os & O & ->).
  apply os_text_value in O. cbn [get lookup String.eqb Ascii.eqb Bool.eqb].
  destruct (platform_of_cases h os) as [C A]. split; [exact C|].
  rewrite A, O. split.
  - destruct (get u "os") as [| | | |s| |];
      try (intros H; apply includes_Contains in H; discriminate H).
    intros H. now exists s.
  - now intros (s & -> & H).
Qed.

(** An OS written "ANDROID 14", and a payload without [user_data]. *)
Lemma event_platform_witness :
  let h := sample_host 0 accepted in
  exists droid plain,
    Unified.branchEvent h (VStr "d") (VObj []) (VObj [("os", VStr "ANDROID 14")])
      Open "Branch Open" (of_Z 1700000000000) "k" = Ok droid
    /\ Unified.branchEvent h (VStr "d") (VObj []) (VObj [])
         Open "Branch Open" (of_Z 1700000000000) "k" = Ok plain
    /\ get droid "platform" = VStr "Android"
    /\ (get plain "platform" = VStr "Android" \/ get plain "platform" = VStr "iOS").
Proof.
  intros h.
  eexists _, _. split; [reflexivity|]. split; [reflexivity|]. split.
  - apply (event_platform h (VStr "d") (VObj []) (VObj [("os", VStr "ANDROID 14")])
             Open "Branch Open" (of_Z 1700000000000) "k" _ eq_refl).
    exists "ANDROID 14". split; [reflexivity|].
    exists EmptyString, " 14". reflexivity.
  - apply (event_platform h (VStr "d") (VObj []) (VObj [])
             Open "Branch Open" (of_Z 1700000000000) "k" _ eq_refl).
Defined.

(** ** One invocation of the second revision *)

Section TwoCallShape.

Import TwoCall.

(** A run of the second revision's [translate]: nothing is sent (skipped, or
    an exception before the identify call); or the identify call alone is
    sent; or the identify call was accepted and the event call follows. *)
Lemma TwoCall_translate_outcomes (e : env) (h : host) (p : value) (w w' : world)
  (r : result response) :
  translate e h p w = (r, w') ->
  (sent w' = sent w
   /\ (r = Ok {| status := 202; sent_body := skipped |} \/ exists err, r = Throw err))
  \/ exists id when type label key,
       pickDeviceId p = Ok id /\ Js.truthy id = true /\
       let latd := Js.or (get p "last_attributed_touch_data") (VObj []) in
       let u := Js.or (get p "user_data") (VObj []) in
       let n := List.length (sent w) in
       let rq1 := post (AMPLITUDE_ENDPOINT e ++ "/identify")
                    (identifyBody e (identification id latd type when)) in
       (sent w' = (sent w ++ [rq1])%list
        /\ ((exists err, network h n rq1 = Throw err /\ r = Throw err)
            \/ (exists res, network h n rq1 = Ok res /\ resp_ok res = false
                            /\ r = answered "identify_failed" res)
            \/ (exists res err, network h n rq1 = Ok res /\ resp_ok res = true
                                /\ eventBody e h id latd u type label when key = Throw err
                                /\ r = Throw err)))
       \/ exists res1 event,
            network h n rq1 = Ok res1 /\ resp_ok res1 = true
            /\ eventBody e h id latd u type label when key = Ok event
            /\ let rq2 := post (AMPLITUDE_ENDPOINT e ++ "/2/httpapi") event in
               sent w' = (sent w ++ [rq1; rq2])%list
               /\ r = match network h (S n) rq2 with
                      | Throw err => Throw err
                      | Ok res =>
                          if resp_ok res
                          then Ok {| status := 200; sent_body := done |}
                          else answered "event_failed" res
                      end.
Proof.
  unfold translate, bind, lift.
  destruct (pickDeviceId p) as [id|err] eqn:P;
    [|intros [= <- <-]; left; split; [reflexivity | right; now eexists]].
  destruct (Js.truthy id) eqn:T; cbn [negb];
    [|intros [= <- <-]; left; split; [reflexivity | now left]].
  pose proof (normalized_sends_nothing h p w) as S1.
  destruct (normalized h p w) as [[[[[when type] label] key]|err] w1];
    cbn [snd] in S1;
    [|intros [= <- <-]; left; split; [exact S1 | right; now eexists]].
  unfold fetch. cbn [sent ticks]. rewrite S1.
  intros H. right. exists id, when, type, label, key.
  split; [reflexivity|]. split; [exact T|]. cbn zeta.
  set (rq1 := post (AMPLITUDE_ENDPOINT e ++ "/identify") _) in *.
  destruct (network h (List.length (sent w)) rq1) as [res1|err] eqn:N1.
  { destruct (resp_ok res1) eqn:K1; cbn [negb] in H.
    - destruct (eventBody _ _ _ _ _ _ _ _ _) as [event|err] eqn:B.
      + right. exists res1, event. split; [reflexivity|]. split; [exact K1|].
        split; [reflexivity|]. cbn zeta. cbn [sent] in H.
        rewrite length_app in H. cbn [List.length] in H.
        rewrite Nat.add_1_r in H. unfold answered.
        destruct (network h (S _) _) as [res2|err].
        * destruct (resp_ok res2); cbn [negb] in H.
          -- inversion H; subst. cbn [sent]. now rewrite <- app_assoc.
          -- unfold respond, ret in H.
             destruct (resp_text res2); inversion H; subst; cbn [sent];
               now rewrite <- app_assoc.
        * inversion H; subst. cbn [sent]. now rewrite <- app_assoc.
      + left. inversion H; subst. cbn [sent]. split; [reflexivity|].
        right. right. now exists res1, err.
    - left. unfold respond, ret in H. unfold answered.
      destruct (resp_text res1) eqn:X; inversion H; subst; cbn [sent];
        (split; [reflexivity|]); right; left; exists res1;
        now rewrite X. }
  left. inversion H; subst. cbn [sent]. split; [reflexivity|]. left. now exists err.
Qed.

End TwoCallShape.

Section TwoCallInvocation.

Lemma caught_answered (what : string) (res : http_response) :
  status (caught (answered what res)) = 500.
Proof. unfold answered. now destruct (resp_text res). Qed.

End TwoCallInvocation.

(** X12. Every invocation of the second revision ends with a response, whose
    status is 405, 401, 202, 200 or 500.  It sends nothing, or the identify
    call alone, or the identify call followed by the event call; the event
    call is made only after the network accepted the identify call, and the
    answer is 200 exactly when the event call was accepted too.  When the
    identify call is the only one sent, the answer is 500. *)
Theorem twocall_invocation_shape (e : env) (h : host) (req : request) :
  exists resp,
    outcome (TwoCall.handler e h req) = Ok resp
    /\ In (status resp) [405; 401; 202; 200; 500]
    /\ ((requests (TwoCall.handler e h req) = [] /\ status resp <> 200)
        \/ (exists rq1,
              requests (TwoCall.handler e h req) = [rq1]
              /\ authorized e req
              /\ url rq1 = AMPLITUDE_ENDPOINT e ++ "/identify"
              /\ status resp = 500)
        \/ (exists rq1 rq2 res1,
              requests (TwoCall.handler e h req) = [rq1; rq2]
              /\ authorized e req
              /\ url rq1 = AMPLITUDE_ENDPOINT e ++ "/identify"
              /\ url rq2 = AMPLITUDE_ENDPOINT e ++ "/2/httpapi"
              /\ network h 0 rq1 = Ok res1 /\ resp_ok res1 = true
              /\ (status resp = 200 <->
                  exists res2, network h 1 rq2 = Ok res2 /\ resp_ok res2 = true))).
Proof.
  unfold outcome, requests, run. rewrite TwoCall_handler_run.
  destruct (negb (String.eqb (method req) "POST")) eqn:M.
  { eexists. split; [reflexivity|]. split; [cbn; tauto|]. left. now split. }
  destruct (negb (Js.truthy (BRANCH_TOKEN e)) || _) eqn:G.
  { eexists. split; [reflexivity|]. split; [cbn; tauto|]. left. now split. }
  assert (A : authorized e req) by now apply gate_open.
  destruct (TwoCall.translate _ _ _ start) as [r w'] eqn:T.
  exists (caught r).
  split; [now destruct r|].
  apply TwoCall_translate_outcomes in T
    as [[S R]|(id & when & type & label & key & _ & _ & T)].
  - split.
    + destruct R as [->|[err ->]]; cbn; tauto.
    + left. split; [now destruct r|].
      destruct R as [->|[err ->]]; discriminate.
  - cbn zeta in T. cbn [sent start app List.length] in T.
    destruct T as [[S R]|(res1 & event & N1 & K1 & _ & S & R)].
    + assert (St : status (caught r) = 500).
      { destruct R as [(err & _ & ->)|[(res & _ & _ & ->)|(res & err & _ & _ & _ & ->)]];
          [reflexivity | apply caught_answered | reflexivity]. }
      split; [rewrite St; cbn; tauto|]. right. left.
      eexists. split; [destruct r; exact S|].
      split; [exact A|]. split; [reflexivity | exact St].
    + cbn zeta in S, R.
      assert (Iff : status (caught r) = 200 <->
                    exists res2,
                      network h 1 (post (AMPLITUDE_ENDPOINT e ++ "/2/httpapi") event)
                      = Ok res2 /\ resp_ok res2 = true).
      { rewrite R. destruct (network h 1 _) as [res2|err].
        - destruct (resp_ok res2) eqn:K2.
          + split; [intros _; now exists res2 | reflexivity].
          + rewrite caught_answered.
            split; [discriminate | intros (res' & [= <-] & K'); congruence].
        - split; [discriminate | intros (res' & [=] & _)]. }
      assert (St : In (status (caught r)) [405; 401; 202; 200; 500]).
      { rewrite R. destruct (network h 1 _) as [res2|err]; [|cbn; tauto].
        destruct (resp_ok res2); [cbn; tauto|].
        rewrite caught_answered. cbn; tauto. }
      split; [exact St|]. right. right.
      eexists _, _, res1. split; [destruct r; exact S|].
      split; [exact A|]. split; [reflexivity|]. split; [reflexivity|].
      split; [exact N1|]. split; [exact K1 | exact Iff].
Qed.

(** X13. In the second revision the event record is built after the identify
    call.  When the OS field of [user_data] is truthy and not a string, the
    invocation never answers 200 and never makes the event call; if the
    identify call was made and accepted, the answer is 500 [server_error]
    although the identify record has been delivered. *)
Theorem twocall_wrong_typed_os (e : env) (h : host) (req : request) :
  let p := unwrap (Js.or (req_body req) (VObj [])) in
  let os := get (Js.or (get p "user_data") (VObj [])) "os" in
  Js.truthy os = true ->
  (forall s, os <> VStr s) ->
  exists resp,
    outcome (TwoCall.handler e h req) = Ok resp
    /\ status resp <> 200
    /\ (forall rq, In rq (requests (TwoCall.handler e h req)) ->
          url rq = AMPLITUDE_ENDPOINT e ++ "/identify")
    /\ (forall rq res,
          requests (TwoCall.handler e h req) = [rq] ->
          network h 0 rq = Ok res -> resp_ok res = true ->
          resp = {| status := 500;
                    sent_body := ServerError (NotAFunction "toLowerCase") |}).
Proof.
  intros p os Tr Ns.
  assert (Ev : forall id latd type label when key,
            TwoCall.eventBody e h id latd (Js.or (get p "user_data") (VObj []))
              type label when key = Throw (NotAFunction "toLowerCase")).
  { intros. unfold TwoCall.eventBody, TwoCall.platform, Js.or at 1.
    fold os. rewrite Tr. destruct os; try reflexivity. now elim (Ns s). }
  unfold outcome, requests, run. rewrite TwoCall_handler_run. fold p.
  destruct (negb (String.eqb (method req) "POST")).
  { eexists. split; [reflexivity|]. split; [discriminate|].
    split; [intros rq []|discriminate]. }
  destruct (negb (Js.truthy (BRANCH_TOKEN e)) || _).
  { eexists. split; [reflexivity|]. split; [discriminate|].
    split; [intros rq []|discriminate]. }
  destruct (TwoCall.translate _ _ _ start) as [r w'] eqn:T.
  exists (caught r). split; [now destruct r|].
  assert (Q : sent (snd (match r with
                         | Ok resp => (Ok resp, w')
                         | Throw err =>
                             (Ok {| status := 500; sent_body := ServerError err |}, w')
                         end)) = sent w') by now destruct r.
  rewrite Q. clear Q.
  apply TwoCall_translate_outcomes in T
    as [[S R]|(id & when & type & label & key & _ & _ & T)].
  - rewrite S. cbn [sent start].
    split; [destruct R as [->|[err ->]]; discriminate|].
    split; [intros rq []|discriminate].
  - cbn zeta in T. cbn [sent start app List.length] in T. fold p in T.
    destruct T as [[S R]|(res1 & event & _ & _ & B & _)];
      [|rewrite Ev in B; discriminate B].
    rewrite S. split; [|split].
    + destruct R as [(err & _ & ->)|[(res & _ & _ & ->)|(res & err & _ & _ & _ & ->)]];
        [discriminate | rewrite caught_answered; discriminate | discriminate].
    + intros rq [<-|[]]. reflexivity.
    + intros rq res [= <-] N K.
      destruct R as [(err & N' & _)|[(res' & N' & K' & _)|(res' & err & _ & _ & B & ->)]].
      * congruence.
      * congruence.
      * rewrite Ev in B. now injection B as <-.
Qed.

(** An Android payload whose OS arrives as the number 14. *)
Lemma twocall_wrong_typed_os_witness :
  let h := sample_host 1700000001234 accepted in
  let req := webhook (VObj [ ("name", VStr "OPEN");
                             ("user_data", VObj [ ("adid", VStr "G-1");
                                                  ("os", VNum (of_Z 14)) ]) ]) in
  exists resp,
    outcome (TwoCall.handler sample_env h req) = Ok resp
    /\ status resp <> 200
    /\ (forall rq, In rq (requests (TwoCall.handler sample_env h req)) ->
          url rq = AMPLITUDE_ENDPOINT sample_env ++ "/identify")
    /\ (forall rq res,
          requests (TwoCall.handler sample_env h req) = [rq] ->
          network h 0 rq = Ok res -> resp_ok res = true ->
          resp = {| status := 500;
                    sent_body := ServerError (NotAFunction "toLowerCase") |}).
Proof.
  intros h req. apply (twocall_wrong_typed_os sample_env h req).
  - reflexivity.
  - intros s. discriminate.
Defined.

(** X14. In the second revision a downstream call answered with a status
    outside 200..299 ends the invocation with 500 and the downstream status
    and body: [identify_failed] when the identify call, then the only call
    made, is refused, and [event_failed] when the event call is refused. *)
Theorem twocall_delivery_failure (e : env) (h : host) (req : request)
  (res : http_response) :
  resp_ok res = false ->
  let reported what resp :=
    status resp = 500
    /\ forall text, resp_text res = Ok text ->
         sent_body resp = Json (VObj [ ("error", VStr what);
                                       ("status", VNum (of_Z (resp_status res)));
                                       ("body", VStr text) ]) in
  (forall rq,
     requests (TwoCall.handler e h req) = [rq] -> network h 0 rq = Ok res ->
     exists resp, outcome (TwoCall.handler e h req) = Ok resp
                  /\ reported "identify_failed" resp)
  /\ (forall rq1 rq2,
        requests (TwoCall.handler e h req) = [rq1; rq2] -> network h 1 rq2 = Ok res ->
        exists resp, outcome (TwoCall.handler e h req) = Ok resp
                     /\ reported "event_failed" resp).
Proof.
  intros K reported.
  assert (Rep : forall what, reported what (caught (answered what res))).
  { intros what. unfold reported, answered.
    destruct (resp_text res) as [text|err]; cbn; split; try reflexivity.
    - now intros ? [= <-].
    - discriminate. }
  unfold outcome, requests, run. rewrite TwoCall_handler_run.
  destruct (negb (String.eqb (method req) "POST")); [split; discriminate|].
  destruct (negb (Js.truthy (BRANCH_TOKEN e)) || _); [split; discriminate|].
  destruct (TwoCall.translate _ _ _ start) as [r w'] eqn:T.
  assert (Q : forall l,
            sent (snd (match r with
                       | Ok resp => (Ok resp, w')
                       | Throw err =>
                           (Ok {| status := 500; sent_body := ServerError err |}, w')
                       end)) = l -> sent w' = l) by now destruct r.
  assert (O : fst (match r with
                   | Ok resp => (Ok resp, w')
                   | Throw err =>
                       (Ok {| status := 500; sent_body := ServerError err |}, w')
                   end) = Ok (caught r)) by now destruct r.
  rewrite O. clear O.
  apply TwoCall_translate_outcomes in T
    as [[S R]|(id & when & type & label & key & _ & _ & T)].
  - cbn [sent start] in S. split; intros; apply Q in H; congruence.
  - cbn zeta in T. cbn [sent start app List.length] in T.
    destruct T as [[S R]|(res1 & event & N1 & K1 & _ & S & R)].
    + split; [|intros rq1 rq2 H; apply Q in H; congruence].
      intros rq H N. apply Q in H. rewrite S in H. injection H as <-.
      destruct R as [(err & N' & _)|[(res' & N' & _ & ->)|(res' & err & N' & K' & _)]].
      * congruence.
      * rewrite N in N'. injection N' as <-. eexists. split; [reflexivity|]. apply Rep.
      * congruence.
    + cbn zeta in S, R. split; [intros rq H; apply Q in H; congruence|].
      intros rq1 rq2 H N. apply Q in H. rewrite S in H. injection H as <- <-.
      rewrite N, K in R. subst r. eexists. split; [reflexivity|]. apply Rep.
Qed.

(** The identify endpoint answers 429. *)
Lemma twocall_delivery_failure_witness :
  let busy := {| resp_status := 429; resp_text := Ok "slow down" |} in
  let h := sample_host 1700000001234 (Ok busy) in
  let req := webhook (VObj [ ("name", VStr "INSTALL");
                             ("user_data", VObj [("idfa", VStr "ABC123")]) ]) in
  exists resp,
    outcome (TwoCall.handler sample_env h req) = Ok resp
    /\ status resp = 500
    /\ forall text, Ok "slow down" = Ok text ->
         sent_body resp = Json (VObj [ ("error", VStr "identify_failed");
                                       ("status", VNum (of_Z 429));
                                       ("body", VStr text) ]).
Proof.
  intros busy h req.
  destruct (twocall_delivery_failure sample_env h req busy eq_refl) as [First _].
  apply (First (hd (post EmptyString VNull)
                   (requests (TwoCall.handler sample_env h req)))).
  - vm_compute. reflexivity.
  - reflexivity.
Defined.

(** ** The device id of the second revision *)

Section TwoCallDeviceId.

Import TwoCall.


End TwoCallDeviceId.



(** ** The normalized timestamp is a number *)

Section NotNaN.

Lemma shr_1_nonneg (mrs : shr_record) : 0 <= shr_m mrs -> 0 <= shr_m (shr_1 mrs).
Proof.
  destruct mrs as [m r s]. cbn [shr_m]. intros H.
  destruct m as [|[q|q|]|q]; cbn; lia.
Qed.

Lemma iter_shr_1_nonneg (p : positive) (mrs : shr_record) :
  0 <= shr_m mrs -> 0 <= shr_m (iter_pos shr_1 p mrs).
Proof.
  revert mrs. induction p as [p IH|p IH|]; intros mrs H; cbn [iter_pos].
  - apply IH, IH, shr_1_nonneg, H.
  - apply IH, IH, H.
  - apply shr_1_nonneg, H.
Qed.

Lemma shr_fexp_nonneg (m e : Z) (l : location) :
  0 <= m -> 0 <= shr_m (fst (shr_fexp prec emax m e l)).
Proof.
  intros H. unfold shr_fexp, shr.
  assert (R : 0 <= shr_m (shr_record_of_loc m l)).
  { destruct l as [|[]]; exact H. }
  destruct (_ - e) as [|p|p]; cbn [fst]; try exact R.
  now apply iter_shr_1_nonneg.
Qed.

Lemma round_nearest_even_nonneg (m : Z) (l : location) :
  0 <= m -> 0 <= round_nearest_even m l.
Proof.
  intros H. unfold round_nearest_even.
  destruct l as [|[]]; try exact H; [destruct (Z.even m)|]; lia.
Qed.

(** Rounding a non-negative mantissa never gives [NaN]. *)
Lemma binary_round_aux_number (s : bool) (m e : Z) (l : location) :
  0 <= m -> isNaN (binary_round_aux prec emax s m e l) = false.
Proof.
  intros H. unfold binary_round_aux.
  pose proof (shr_fexp_nonneg m e l H) as H1.
  destruct (shr_fexp prec emax m e l) as [mrs' e']. cbn [fst] in H1.
  pose proof (shr_fexp_nonneg _ e' loc_Exact
                (round_nearest_even_nonneg _ (loc_of_shr_record mrs') H1)) as H2.
  destruct (shr_fexp prec emax _ e' loc_Exact) as [mrs'' e'']. cbn [fst] in H2.
  destruct (shr_m mrs'') as [|q|q]; [reflexivity | | lia].
  now destruct (e'' <=? emax - prec).
Qed.

Lemma of_Z_number (z : Z) : isNaN (of_Z z) = false.
Proof.
  unfold of_Z, binary_normalize, binary_round.
  destruct z as [|q|q]; [reflexivity| |];
    destruct (shl_align _ _ _) as [mz ez]; now apply binary_round_aux_number.
Qed.

(** Scaling seconds to milliseconds keeps a number a number. *)
Lemma to_ms_number (n : number) : isNaN n = false -> isNaN (to_ms n) = false.
Proof.
  intros N. unfold to_ms. destruct (gt n seconds_limit); [exact N|].
  unfold mul. change thousand with (S754_finite false 8796093022208000 (-43)).
  destruct n as [s|s| |s m e]; try reflexivity; [discriminate N|].
  cbn [SFmul]. now apply binary_round_aux_number.
Qed.

End NotNaN.

(** X16. Whatever the payload gives as a timestamp, [toMillis] returns
    [NaN] only when it is handed the number [NaN] itself, which a JSON body
    cannot carry: every other input that does not make it raise gives a
    number, the clock reading when nothing else is usable. *)
Theorem toMillis_is_a_number (h : host) (ts : timestamp) (w w' : world) (n : number) :
  ts <> TsValue (VNum NaN) ->
  toMillis h ts w = (Ok n, w') ->
  isNaN n = false.
Proof.
  intros N.
  assert (Inv : forall (a b : number) (w1 w2 : world),
            (Ok a, w1) = (Ok b, w2) -> a = b) by (intros; congruence).
  assert (Now : forall v, Date_now h w = (Ok v, w') -> isNaN v = false).
  { unfold Date_now. intros v H. apply Inv in H. subst v. apply of_Z_number. }
  assert (Date : forall d v,
            (if JsNumber.truthy d then (Ok d, w) else Date_now h w) = (Ok v, w') ->
            isNaN v = false).
  { intros d v. destruct d; cbn [JsNumber.truthy]; try apply Now;
      intros H; apply Inv in H; now subst v. }
  assert (Ms : forall x v, isNaN x = false -> (Ok (to_ms x), w) = (Ok v, w') ->
                           isNaN v = false).
  { intros x v X H. apply Inv in H. subst v. now apply to_ms_number. }
  destruct ts as [v|t];
    [|cbn [toMillis]; unfold ret; intros H; apply (Date t);
      now destruct (JsNumber.truthy t)].
  destruct v as [| |b|x|s|items|props].
  - apply Now.
  - apply Now.
  - (* a boolean *)
    cbn [toMillis]. unfold bind, lift, to_number, ret.
    destruct b; cbn [isNaN negb]; [rewrite of_Z_number; cbn [negb]|];
      apply Ms; [apply of_Z_number | reflexivity].
  - (* a number *)
    cbn [toMillis]. unfold ret. apply Ms.
    destruct x; try reflexivity. now elim N.
  - (* a string *)
    rewrite toMillis_string. destruct (isNaN (of_string s)) eqn:E.
    + apply (Date (Date_parse h s)).
    + now apply Ms.
  - (* an array *)
    cbn [toMillis]. unfold bind, lift, ret.
    destruct (to_number (VArr items)) as [x|err]; [|discriminate].
    destruct (isNaN x) eqn:E; cbn [negb].
    + destruct (to_string (VArr items)) as [txt|err]; [|discriminate].
      intros H. apply (Date (Date_parse h txt)).
      now destruct (JsNumber.truthy (Date_parse h txt)).
    + now apply Ms.
  - (* an object *)
    cbn [toMillis]. unfold bind, lift, ret.
    destruct (to_number (VObj props)) as [x|err]; [|discriminate].
    destruct (isNaN x) eqn:E; cbn [negb].
    + destruct (to_string (VObj props)) as [txt|err]; [|discriminate].
      intros H. apply (Date (Date_parse h txt)).
      now destruct (JsNumber.truthy (Date_parse h txt)).
    + now apply Ms.
Qed.

(** The text "NaN" as a timestamp falls back on the clock. *)
Lemma toMillis_is_a_number_witness :
  isNaN (of_Z 1700000001234) = false.
Proof.
  apply (toMillis_is_a_number (sample_host 1700000001234 accepted)
           (TsValue (VStr "NaN")) start {| ticks := 1; sent := [] |}).
  - discriminate.
  - reflexivity.
Defined.
